(** * Kernel fallback execution engine (compat mode)

    A shallow embedding of
    [tensorflow/core/runtime_fallback/kernel/kernel_fallback_execute_compat.cc]:
    the error-translation routine, input conversion and validation, the
    thread-local run state, the synchronous and asynchronous dispatch paths,
    the two dispatch entry points and the runner-table / resource-array
    kernels.

    The new runtime's futures ([tfrt::AsyncValue]) are cells of a store that
    are addressed by reference, so that two slots holding the same reference
    alias the same future.  A sticky [fault] flag records that the C++ code
    reached undefined behaviour (a null dereference), which keeps every
    function of the model total.  Reference counts, logging and tracing are
    not modelled, and debug-only checks ([DCHECK]) are left out. *)

From Stdlib Require Import ZArith Lia.
From stdpp Require Import base decidable option list strings gmap pretty.

Set Default Proof Using "Type".
Open Scope string_scope.
Open Scope list_scope.
Open Scope nat_scope.

(** ** Legacy status values *)

(** [tensorflow::error::Code]. *)
Inductive Code :=
  | OK | CANCELLED | UNKNOWN | INVALID_ARGUMENT | DEADLINE_EXCEEDED
  | NOT_FOUND | ALREADY_EXISTS | PERMISSION_DENIED | UNAUTHENTICATED
  | RESOURCE_EXHAUSTED | FAILED_PRECONDITION | ABORTED | OUT_OF_RANGE
  | UNIMPLEMENTED | INTERNAL | UNAVAILABLE | DATA_LOSS.

#[global] Instance Code_eq_dec : EqDecision Code.
Proof. solve_decision. Defined.

(** [tensorflow::Status]. *)
Record Status := mkStatus { code : Code; error_message : string }.

#[global] Instance Status_eq_dec : EqDecision Status.
Proof. solve_decision. Defined.

Definition ok (s : Status) : bool := bool_decide (code s = OK).

(** [tensorflow::errors]: statuses of a given code. *)
Module errors.

Definition InvalidArgument (msg : string) : Status := mkStatus INVALID_ARGUMENT msg.

Definition NotFound (msg : string) : Status := mkStatus NOT_FOUND msg.

Definition Internal (msg : string) : Status := mkStatus INTERNAL msg.

End errors.

Definition Status_OK : Status := mkStatus OK "".

(** [llvm::Expected<T>] and [StatusOr<T>]: a value or an error. *)
Inductive Expected (E T : Type) :=
  | Value (v : T)
  | Failure (e : E).
Arguments Value {E T} v.
Arguments Failure {E T} e.

(** [tfrt::StrCat] / [absl::StrCat] of a list of already printed pieces. *)
Definition StrCat (pieces : list string) : string := foldr String.append "" pieces.

(** [s] has [sub] as a contiguous substring. *)
Definition contains (s sub : string) : Prop :=
  ∃ pre post, s = pre +:+ sub +:+ post.

(** ** External collaborators

    Types and functions the file uses but does not define: the legacy tensor
    with its [dtype()], [DataTypeString], the new runtime's error codes with
    the translation [ConvertTfErrorCodeToTfrtErrorCode], and the new
    runtime's generic tensor with [TFRTTensorToTFTensor]. *)
Class Collaborators := {
  DataType : Type;
  DataType_eq_dec :: EqDecision DataType;
  DataTypeString : DataType → string;
  Tensor : Type;
  dtype : Tensor → DataType;
  ErrorCode : Type;
  default_error_code : ErrorCode;
  ConvertTfErrorCodeToTfrtErrorCode : Status → ErrorCode;
  TfrtTensor : Type;
  TFRTTensorToTFTensor : TfrtTensor → Expected string Tensor;
}.

(** Opaque pointers ([Device*], [ResourceMgr*], ...); [None] is [nullptr]. *)
Abbreviation handle := nat (only parsing).

(** A reference to a future ([tfrt::AsyncValue*]), and a slot that holds one
    ([None]: an empty [RCReference]). *)
Abbreviation AVRef := nat (only parsing).
Abbreviation Slot := (option nat) (only parsing).

(** [tensorflow::TensorValue]: a borrowed pointer to a tensor, modelled by
    the tensor it points at; [None] is the null pointer of a
    default-constructed handle. *)
Abbreviation TensorValue := (option Tensor) (only parsing).

Section Engine.
Context `{Collaborators}.

(** ** Tensors of the fallback runtime *)

(** [tfrt_stub::ImmutableTensor]: a tensor that is never written again. *)
Record ImmutableTensor := mkImmutableTensor { imm_tensor : Tensor }.

(** [ImmutableTensor::Create]. *)
Definition ImmutableTensor_Create (t : Tensor) : ImmutableTensor :=
  mkImmutableTensor t.

(** [tfrt_stub::FallbackTensor]. *)
Record FallbackTensor := mkFallbackTensor {
  is_immutable : bool;
  tensor : Tensor;
}.

Definition FallbackTensor_of_Tensor (t : Tensor) : FallbackTensor :=
  mkFallbackTensor false t.
Definition FallbackTensor_of_Immutable (t : ImmutableTensor) : FallbackTensor :=
  mkFallbackTensor true (imm_tensor t).

(** ** Futures *)

(** [tfrt::DecodedDiagnostic]: the payload of an error future. *)
Record DecodedDiagnostic := mkDiag {
  diag_message : string;
  diag_code : ErrorCode;
}.

(** What an available future holds. *)
Inductive Payload :=
  | PChain
  | PKernelFallbackTensor (t : Tensor)
  | PFallbackTensor (t : FallbackTensor).

(** The state of one [tfrt::AsyncValue]. *)
Inductive AsyncValue :=
  | Unconstructed
  | Available (p : Payload)
  | Error (d : DecodedDiagnostic).


(** ** The legacy kernel interface *)


(** The part of [tensorflow::OpKernel] the engine reads. *)
Record OpKernel := mkOpKernel {
  name : string;
  input_types : list DataType;
  num_outputs : nat;
}.

(** [params.inputs] is either null or the address of the
    [input_tf_tensor_values] of the run state that owns the parameters. *)
Inductive InputsPtr := NullInputs | OwnTensorValues.

(** The fields of [OpKernelContext::Params] that the engine assigns. *)
Record Params := mkParams {
  params_inputs : InputsPtr;
  params_device : option handle;
  params_op_kernel : option OpKernel;
  params_resource_manager : option handle;
  params_input_alloc_attrs : option handle;
  params_output_attr_array : option handle;
  params_step_container : option handle;
  params_function_library : option handle;
  params_runner : option handle;
  params_collective_executor : option handle;
  params_rendezvous : option handle;
  params_session_metadata : option handle;
  params_cancellation_manager : option handle;
}.

Definition Params_default : Params :=
  mkParams NullInputs None None None None None None None None None None None None.

(** [OpKernelRunState] keeps the states needed for per-kernel execution. *)
Record OpKernelRunState := mkRunState {
  input_tf_tensors : list Tensor;
  input_tf_tensor_values : list TensorValue;
  params : Params;
}.

(** [OpKernelRunState() = default]. *)
Definition OpKernelRunState_default : OpKernelRunState :=
  mkRunState [] [] Params_default.

(** [tensorflow::OpKernelContext], as the engine uses it: the parameters it
    was built from, the inputs reachable through [params->inputs], the
    number of outputs it was sized for, and what the kernel left in it. *)
Record OpKernelContext := mkContext {
  ctx_params : Params;
  ctx_inputs : list TensorValue;
  ctx_num_outputs : nat;
  status : Status;
  mutable_output : nat → option Tensor;
}.

(** [OpKernelContext context(&run_state->params, num_outputs)]. *)
Definition OpKernelContext_new (rs : OpKernelRunState) (n : nat) : OpKernelContext :=
  mkContext (params rs)
            (match params_inputs (params rs) with
             | NullInputs => []
             | OwnTensorValues => input_tf_tensor_values rs
             end)
            n Status_OK (λ _, None).

(** What a kernel leaves in its context: a status and the outputs it set. *)
Record KernelEffect := mkEffect {
  k_status : Status;
  k_output : nat → option Tensor;
}.

(** The context after the kernel ran; only the outputs the context was sized
    for exist. *)
Definition ran (ctx : OpKernelContext) (e : KernelEffect) : OpKernelContext :=
  mkContext (ctx_params ctx) (ctx_inputs ctx) (ctx_num_outputs ctx)
            (k_status e)
            (λ i, if decide (i < ctx_num_outputs ctx) then k_output e i else None).

(** When an asynchronous kernel invokes its completion callback: inside
    [RunAsync], or later from a thread of the legacy runtime. *)
Inductive AsyncCompletion :=
  | CallbackInline (e : KernelEffect)
  | CallbackLater.

(** [OpKernelRunner]: the opaque runner of a legacy kernel. *)
Record OpKernelRunner := mkRunner {
  op_kernel : OpKernel;
  device : option handle;
  resource_manager : option handle;
  input_alloc_attrs : option handle;
  output_alloc_attrs : option handle;
  function_library_runtime : option handle;
  IsAsync : bool;
  Run : OpKernelContext → KernelEffect;
  RunAsync : OpKernelContext → AsyncCompletion;
}.

(** The accessors of [KernelFallbackCompatRequestState] the engine reads.
    Its runner table and resource array live in the [World]. *)
Record KernelFallbackCompatRequestState := mkRequestState {
  custom_device : option handle;
  step_container : option handle;
  runner : option handle;
  collective_executor : option handle;
  rendezvous : option handle;
  session_metadata : handle;
  cancellation_manager : option handle;
  log_device_placement : bool;
}.

(** [tfrt::ExecutionContext]: the request context's data and the location. *)
Record ExecutionContext := mkExecCtx {
  request_state : option KernelFallbackCompatRequestState;
  location : nat;
}.

(** ** Asynchronous execution state and the world *)

(** The flavour of tensor the results hold: the template parameter
    [TensorType] of the two internal execute functions. *)
Inductive TensorType := KernelFallbackTensorT | FallbackTensorT.

Definition make_payload (ty : TensorType) (t : Tensor) : Payload :=
  match ty with
  | KernelFallbackTensorT => PKernelFallbackTensor t
  | FallbackTensorT => PFallbackTensor (FallbackTensor_of_Tensor t)
  end.

(** [AsyncState] of [KernelFallbackExecuteCompatAsyncInternal]. *)
Record AsyncState := mkAsyncState {
  as_tensor_type : TensorType;
  as_run_state : OpKernelRunState;
  as_context : OpKernelContext;
  as_chain : AVRef;
  as_result_refs : list AVRef;
}.

(** A unit of work on the host's queue: the closure passed to
    [tfrt::EnqueueWork], which captures the asynchronous state. *)
Inductive WorkItem := PublishOutputs (st : AsyncState).

(** An invocation of a runner, with the context it was handed. *)
Inductive KernelCall :=
  | RunCall (ctx : OpKernelContext)
  | RunAsyncCall (ctx : OpKernelContext).

Record World := mkWorld {
  heap : list AsyncValue;
  work_queue : list WorkItem;
  pending : list AsyncState;
  runner_table : gmap Z OpKernelRunner;
  resource_array : gmap Z AVRef;
  kernel_calls : list KernelCall;
  fault : bool;
}.

Definition World_empty : World := mkWorld [] [] [] ∅ ∅ [] false.

Definition set_heap (h : list AsyncValue) (w : World) : World :=
  mkWorld h (work_queue w) (pending w) (runner_table w) (resource_array w)
          (kernel_calls w) (fault w).
Definition set_work_queue (q : list WorkItem) (w : World) : World :=
  mkWorld (heap w) q (pending w) (runner_table w) (resource_array w)
          (kernel_calls w) (fault w).
Definition set_pending (p : list AsyncState) (w : World) : World :=
  mkWorld (heap w) (work_queue w) p (runner_table w) (resource_array w)
          (kernel_calls w) (fault w).
Definition set_runner_table (t : gmap Z OpKernelRunner) (w : World) : World :=
  mkWorld (heap w) (work_queue w) (pending w) t (resource_array w)
          (kernel_calls w) (fault w).
Definition set_resource_array (a : gmap Z AVRef) (w : World) : World :=
  mkWorld (heap w) (work_queue w) (pending w) (runner_table w) a
          (kernel_calls w) (fault w).
Definition log_call (c : KernelCall) (w : World) : World :=
  mkWorld (heap w) (work_queue w) (pending w) (runner_table w) (resource_array w)
          (kernel_calls w ++ [c]) (fault w).
Definition set_fault (w : World) : World :=
  mkWorld (heap w) (work_queue w) (pending w) (runner_table w) (resource_array w)
          (kernel_calls w) true.

(** *** Primitives of the new runtime *)

(** A fresh future in state [v]. *)
Definition alloc (v : AsyncValue) (w : World) : AVRef * World :=
  (length (heap w), set_heap (heap w ++ [v]) w).

(** [tfrt::MakeUnconstructedAsyncValueRef<T>]. *)
Definition MakeUnconstructedAsyncValueRef (w : World) : AVRef * World :=
  alloc Unconstructed w.

(** [tfrt::MakeAvailableAsyncValueRef<T>]. *)
Definition MakeAvailableAsyncValueRef (p : Payload) (w : World) : AVRef * World :=
  alloc (Available p) w.

(** [tfrt::GetReadyChain]. *)
Definition GetReadyChain (w : World) : AVRef * World :=
  alloc (Available PChain) w.

(** [tfrt::EmitErrorAsync]: a fresh error future. *)
Definition EmitErrorAsync (msg : string) (c : ErrorCode) (w : World) : AVRef * World :=
  alloc (Error (mkDiag msg c)) w.

(** [tfrt::EmitError]: the decoded diagnostic itself. *)
Definition EmitError (msg : string) (c : ErrorCode) : DecodedDiagnostic :=
  mkDiag msg c.

(** [AsyncValueRef::SetError] and [AsyncValueRef::emplace]: the future
    changes state in place, for every holder of the reference. *)
Definition SetError (r : AVRef) (d : DecodedDiagnostic) (w : World) : World :=
  set_heap (<[r := Error d]> (heap w)) w.
Definition emplace (r : AVRef) (p : Payload) (w : World) : World :=
  set_heap (<[r := Available p]> (heap w)) w.

(** [tfrt::EnqueueWork]. *)
Definition EnqueueWork (item : WorkItem) (w : World) : World :=
  set_work_queue (work_queue w ++ [item]) w.

(** The state of the future a slot refers to. *)
Definition slot_state (w : World) (s : Slot) : option AsyncValue :=
  r ← s; heap w !! r.

(** ** Error translation *)

Definition KernelFallbackEmitError
    (op_name : string) (op_chain : option Slot) (results : list Slot)
    (st : Status) (w : World) : option Slot * list Slot * World :=
  (* Set all results to error, with the correct TFRT error code according to
     the error propagated from runtime fallback execution. *)
  let '(error, w) :=
    EmitErrorAsync
      (StrCat ["error running kernel fallback kernel "; op_name; ": ";
               error_message st])
      (ConvertTfErrorCodeToTfrtErrorCode st) w in
  let results := (λ _, Some error) <$> results in
  let op_chain := (λ _, Some error) <$> op_chain in
  (op_chain, results, w).

(** ** Input conversion and validation *)

Fixpoint ConvertInputTensors_from
    (input_tf_tensors : list Tensor) (arguments : list TfrtTensor)
    : Expected string (list Tensor) :=
  match arguments with
  | [] => Value input_tf_tensors
  | argument :: arguments =>
      match TFRTTensorToTFTensor argument with
      | Failure e => Failure (StrCat [e])
      | Value t => ConvertInputTensors_from (input_tf_tensors ++ [t]) arguments
      end
  end.

Definition ConvertInputTensors (arguments : list TfrtTensor)
    : Expected string (list Tensor) :=
  ConvertInputTensors_from [] arguments.

(** The loop of [ValidateInputTypes], from index [i] on. *)
Fixpoint ValidateInputTypes_from
    (op_name : string) (i : nat)
    (input_tf_tensors : list Tensor) (input_types : list DataType) : Status :=
  match input_tf_tensors, input_types with
  | t :: input_tf_tensors, ty :: input_types =>
      if decide (dtype t ≠ ty) then
        errors.InvalidArgument
          (StrCat ["cannot compute "; op_name; " as input #"; pretty i;
                   "(zero-based)"; " was expected to be a "; DataTypeString ty;
                   " tensor but is a "; DataTypeString (dtype t); " tensor"])
      else ValidateInputTypes_from op_name (S i) input_tf_tensors input_types
  | _, _ => Status_OK
  end.

Definition ValidateInputTypes
    (op_name : string) (input_tf_tensors : list Tensor)
    (input_types : list DataType) : Status :=
  let n_inputs := length input_tf_tensors in
  if decide (length input_types ≠ n_inputs) then
    errors.InvalidArgument
      (StrCat ["expected "; pretty (length input_types); " inputs, got ";
               pretty n_inputs])
  else ValidateInputTypes_from op_name 0 input_tf_tensors input_types.

(** ** The run state *)

Definition set_params_inputs (i : InputsPtr) (p : Params) : Params :=
  mkParams i (params_device p) (params_op_kernel p) (params_resource_manager p)
           (params_input_alloc_attrs p) (params_output_attr_array p)
           (params_step_container p) (params_function_library p)
           (params_runner p) (params_collective_executor p)
           (params_rendezvous p) (params_session_metadata p)
           (params_cancellation_manager p).

(** [OpKernelRunState(tensor_values, p)]: every tensor the handles point at
    is copied, and the handles and [params.inputs] are re-pointed at the
    copies.  The flag is [false] when a handle was null, which the
    constructor dereferences. *)
Definition OpKernelRunState_of
    (tensor_values : list TensorValue) (p : Params) : OpKernelRunState * bool :=
  let input_tf_tensors := omap id tensor_values in
  let input_tf_tensor_values := Some <$> input_tf_tensors in
  (mkRunState input_tf_tensors input_tf_tensor_values
              (set_params_inputs OwnTensorValues p),
   bool_decide (Forall is_Some tensor_values)).

Definition SetUpParams
    (rs : OpKernelRunState) (kernel_runner : OpKernelRunner)
    (fallback_request_state : KernelFallbackCompatRequestState)
    : OpKernelRunState :=
  mkRunState (input_tf_tensors rs) (input_tf_tensor_values rs)
    (mkParams
       OwnTensorValues
       (* Replace the thread pool device if the custom device is specified. *)
       (match custom_device fallback_request_state with
        | Some custom_device => Some custom_device
        | None => device kernel_runner
        end)
       (Some (op_kernel kernel_runner))
       (* Still use original device's resource_manager. *)
       (resource_manager kernel_runner)
       (input_alloc_attrs kernel_runner)
       (output_alloc_attrs kernel_runner)
       (step_container fallback_request_state)
       (function_library_runtime kernel_runner)
       (runner fallback_request_state)
       (collective_executor fallback_request_state)
       (rendezvous fallback_request_state)
       (Some (session_metadata fallback_request_state))
       (cancellation_manager fallback_request_state)).

(** [input_tf_tensor_values.resize(n)]. *)
Definition resize (n : nat) (values : list TensorValue) : list TensorValue :=
  take n values ++ replicate (n - length values) None.

(** The scope guard [clean_up_inputs]. *)
Definition clean_up_inputs (rs : OpKernelRunState) : OpKernelRunState :=
  mkRunState [] (input_tf_tensor_values rs) (params rs).

Definition set_input_tf_tensors (ts : list Tensor) (rs : OpKernelRunState)
    : OpKernelRunState :=
  mkRunState ts (input_tf_tensor_values rs) (params rs).
Definition set_input_tf_tensor_values (vs : list TensorValue)
    (rs : OpKernelRunState) : OpKernelRunState :=
  mkRunState (input_tf_tensors rs) vs (params rs).

(** ** Asynchronous path *)

Definition set_context (ctx : OpKernelContext) (st : AsyncState) : AsyncState :=
  mkAsyncState (as_tensor_type st) (as_run_state st) ctx (as_chain st)
               (as_result_refs st).

(** [async_state->result_refs[i].emplace(
    std::move( *context.mutable_output(i)))] for the given [i]. *)
Definition emplace_output (async_state : AsyncState) (w : World) (i : nat) : World :=
  match as_result_refs async_state !! i,
        mutable_output (as_context async_state) i with
  | Some result_ref, Some t =>
      emplace result_ref (make_payload (as_tensor_type async_state) t) w
  | _, _ => set_fault w
  end.

(** The closure enqueued by the completion callback: set payload and mark
    async values available in TFRT's thread. *)
Definition publish_outputs (async_state : AsyncState) (w : World) : World :=
  let context := as_context async_state in
  let w := foldl (emplace_output async_state) w
                 (seq 0 (ctx_num_outputs context)) in
  emplace (as_chain async_state) PChain w.

Definition done_callback (async_state : AsyncState) (w : World) : World :=
  let context := as_context async_state in
  if negb (ok (status context)) then
    match params_op_kernel (ctx_params context) with
    | None => set_fault w
    | Some kernel =>
        let diag :=
          EmitError
            (StrCat ["error running kernel fallback kernel "; name kernel; ": ";
                     error_message (status context)])
            (ConvertTfErrorCodeToTfrtErrorCode (status context)) in
        let w :=
          foldl (λ w result, SetError result diag w) w
                (as_result_refs async_state) in
        SetError (as_chain async_state) diag w
    end
  else
    EnqueueWork (PublishOutputs async_state) w.

(** Allocate unconstructed result tensors, one per output slot. *)
Fixpoint alloc_result_refs (results : list Slot) (w : World)
    : list AVRef * World :=
  match results with
  | [] => ([], w)
  | _ :: results =>
      let '(r, w) := MakeUnconstructedAsyncValueRef w in
      let '(refs, w) := alloc_result_refs results w in
      (r :: refs, w)
  end.

(** Everything up to, and excluding, the call of [RunAsync]: the futures are
    created and published, and the shared state is built. *)
Definition async_prepare
    (ty : TensorType) (run_state : OpKernelRunState)
    (op_chain : option Slot) (results : list Slot) (w : World)
    : option Slot * list Slot * AsyncState * World :=
  let '(chain, w) := MakeUnconstructedAsyncValueRef w in
  let op_chain := (λ _, Some chain) <$> op_chain in
  let '(result_refs, w) := alloc_result_refs results w in
  let results := Some <$> result_refs in
  let '(rs, valid) :=
    OpKernelRunState_of (input_tf_tensor_values run_state) (params run_state) in
  let w := if valid then w else set_fault w in
  let async_state :=
    mkAsyncState ty rs (OpKernelContext_new rs (length results)) chain
                 result_refs in
  (op_chain, results, async_state, w).

Definition KernelFallbackExecuteCompatAsyncInternal
    (ty : TensorType) (run_state : OpKernelRunState)
    (kernel_runner : OpKernelRunner)
    (op_chain : option Slot) (results : list Slot) (w : World)
    : option Slot * list Slot * World :=
  let '(op_chain, results, async_state, w) :=
    async_prepare ty run_state op_chain results w in
  let context := as_context async_state in
  let w := log_call (RunAsyncCall context) w in
  match RunAsync kernel_runner context with
  | CallbackInline e =>
      (op_chain, results,
       done_callback (set_context (ran context e) async_state) w)
  | CallbackLater =>
      (op_chain, results, set_pending (pending w ++ [async_state]) w)
  end.

(** The legacy runtime completes the oldest outstanding asynchronous kernel
    with effect [e] and invokes its callback. *)
Definition legacy_completes (e : KernelEffect) (w : World) : World :=
  match pending w with
  | [] => w
  | async_state :: rest =>
      done_callback (set_context (ran (as_context async_state) e) async_state)
                    (set_pending rest w)
  end.

(** The host runs the oldest unit of work of its queue. *)
Definition host_runs_work (w : World) : World :=
  match work_queue w with
  | [] => w
  | PublishOutputs async_state :: rest =>
      publish_outputs async_state (set_work_queue rest w)
  end.

(** ** Synchronous path *)

(** [results[i] = MakeAvailableAsyncValueRef<TensorType>(
    std::move( *context.mutable_output(i)))] for the given [i]. *)
Definition make_output_available
    (ty : TensorType) (context : OpKernelContext)
    (acc : list Slot * World) (i : nat) : list Slot * World :=
  let '(results, w) := acc in
  match mutable_output context i with
  | Some t =>
      let '(r, w) := MakeAvailableAsyncValueRef (make_payload ty t) w in
      (<[i := Some r]> results, w)
  | None => (results, set_fault w)
  end.

Definition KernelFallbackExecuteCompatSyncInternal
    (ty : TensorType) (run_state : OpKernelRunState)
    (kernel_runner : OpKernelRunner)
    (op_chain : option Slot) (results : list Slot) (w : World)
    : option Slot * list Slot * World :=
  let context := OpKernelContext_new run_state (length results) in
  let w := log_call (RunCall context) w in
  let context := ran context (Run kernel_runner context) in
  if negb (ok (status context)) then
    KernelFallbackEmitError (name (op_kernel kernel_runner)) op_chain results
                            (status context) w
  else
    let '(results, w) :=
      foldl (make_output_available ty context) (results, w)
            (seq 0 (ctx_num_outputs context)) in
    match op_chain with
    | None => (None, results, w)
    | Some _ =>
        let '(chain, w) := MakeAvailableAsyncValueRef PChain w in
        (Some (Some chain), results, w)
    end.

(** ** The core-runtime dispatch entry point *)

(** Attributes of an op ([tfrt::OpAttrsRef], [tfrt::AggregateAttr]), and the
    runner cache and the runner factory of [op_kernel_runner.h], which this
    file only calls.  [GetOrCreate] stands for the lookup in the request's
    [OpKernelRunnerCache] together with the attribute builder it is given;
    the cache's own state is not modelled. *)
Class RunnerFactory := {
  OpAttrsRef : Type;
  GetOrCreate :
    nat → string → string → nat → OpAttrsRef →
    KernelFallbackCompatRequestState → Expected Status OpKernelRunner;
  AggregateAttr : Type;
  OpKernelRunner_Create :
    string → string → Z → AggregateAttr → AggregateAttr →
    KernelFallbackCompatRequestState → Expected Status OpKernelRunner;
}.
Context `{RunnerFactory}.

Definition request_state_not_found : string :=
  "KernelFallbackCompatRequestState not found in RequestContext.".

(** An out-parameter that points at the local [op_chain]. *)
Definition local_chain (op_chain : Slot) (out : option Slot) : Slot :=
  from_option id op_chain out.

(** [input_tf_tensor_values[i].tensor = &input_tf_tensors[i]] for every [i]. *)
Definition point_values_at_tensors (rs : OpKernelRunState) : OpKernelRunState :=
  foldl (λ rs i,
           set_input_tf_tensor_values
             (<[i := input_tf_tensors rs !! i]> (input_tf_tensor_values rs)) rs)
        rs (seq 0 (length (input_tf_tensors rs))).

(** The part of the dispatch function that runs under the scope guard
    [clean_up_inputs]. *)
Definition core_runtime_dispatch_guarded
    (op_name : string) (kernel_runner : OpKernelRunner)
    (fallback_request_state : KernelFallbackCompatRequestState)
    (expected_input_tf_tensors : list Tensor)
    (op_chain : Slot) (results : list Slot)
    (run_state : OpKernelRunState) (w : World)
    : Slot * list Slot * OpKernelRunState * World :=
  let run_state := set_input_tf_tensors expected_input_tf_tensors run_state in
  (* Check if input tensor dtypes are valid. *)
  let status :=
    ValidateInputTypes op_name (input_tf_tensors run_state)
                       (input_types (op_kernel kernel_runner)) in
  (* Skip checking dtypes for tf._BatchFunctionFallback op. *)
  if negb (ok status) && negb (bool_decide (op_name = "_BatchFunctionFallback"))
  then
    let '(out, results, w) :=
      KernelFallbackEmitError op_name (Some op_chain) results status w in
    (local_chain op_chain out, results, run_state, w)
  else
    let run_state :=
      set_input_tf_tensor_values
        (resize (length (input_tf_tensors run_state))
                (input_tf_tensor_values run_state)) run_state in
    let run_state := point_values_at_tensors run_state in
    let run_state := SetUpParams run_state kernel_runner fallback_request_state in
    let '(out, results, w) :=
      if IsAsync kernel_runner then
        KernelFallbackExecuteCompatAsyncInternal
          KernelFallbackTensorT run_state kernel_runner (Some op_chain) results w
      else
        KernelFallbackExecuteCompatSyncInternal
          KernelFallbackTensorT run_state kernel_runner (Some op_chain) results w in
    (local_chain op_chain out, results, run_state, w).

(** [tls] is the calling thread's [GetThreadLocalOpKernelRunState()]. *)
Definition KernelFallbackExecuteCompatCoreRuntimeDispatch
    (exec_ctx : ExecutionContext) (op_name device_name : string)
    (arguments : list TfrtTensor) (results : list Slot) (attrs : OpAttrsRef)
    (tls : OpKernelRunState) (w : World)
    : Slot * list Slot * OpKernelRunState * World :=
  let '(ready, w) := GetReadyChain w in
  let op_chain : Slot := Some ready in
  match request_state exec_ctx with
  | None =>
      let status := errors.NotFound request_state_not_found in
      let '(out, results, w) :=
        KernelFallbackEmitError op_name (Some op_chain) results status w in
      (local_chain op_chain out, results, tls, w)
  | Some fallback_request_state =>
      match GetOrCreate (location exec_ctx) op_name device_name
                        (length arguments) attrs fallback_request_state with
      | Failure st =>
          let '(out, results, w) :=
            KernelFallbackEmitError op_name (Some op_chain) results st w in
          (local_chain op_chain out, results, tls, w)
      | Value kernel_runner =>
          match ConvertInputTensors arguments with
          | Failure e =>
              let status := errors.Internal (StrCat [e]) in
              let '(out, results, w) :=
                KernelFallbackEmitError op_name (Some op_chain) results status w in
              (local_chain op_chain out, results, tls, w)
          | Value expected_input_tf_tensors =>
              let '(op_chain, results, run_state, w) :=
                core_runtime_dispatch_guarded
                  op_name kernel_runner fallback_request_state
                  expected_input_tf_tensors op_chain results tls w in
              (op_chain, results, clean_up_inputs run_state, w)
          end
      end
  end.

(** ** The BEF kernels *)

(** [absl::StripPrefix]. *)
Definition StripPrefix (s pre : string) : string :=
  if String.prefix pre s
  then String.substring (String.length pre)
                        (String.length s - String.length pre) s
  else s.

Definition StripTfPrefix (op_name : string) : string := StripPrefix op_name "tf.".

(** The attributes [FallbackKernelAttributeFrame] reads from a frame. *)
Record FallbackKernelAttributeFrame := mkAttrFrame {
  frame_device : string;
  frame_op_attr : AggregateAttr;
  frame_op_func_attr : AggregateAttr;
  frame_op_key : Z;
  frame_op_name : string;
}.

(** An argument of a kernel frame: the future, and whether the frame holds
    the only reference to it ([AsyncValue::IsUnique]). *)
Record FrameArg := mkFrameArg {
  arg_value : AVRef;
  IsUnique : bool;
}.

(** Modelled from the spec: [OpKernelRunnerTable::Insert] of
    [op_kernel_runner.h], which is not among the sources: it returns failure
    (false) if [key] is already present; otherwise it stores the runner and
    returns success. *)
Definition Insert (key : Z) (r : OpKernelRunner) (t : gmap Z OpKernelRunner)
    : bool * gmap Z OpKernelRunner :=
  match t !! key with
  | Some _ => (false, t)
  | None => (true, <[key := r]> t)
  end.

(** Modelled from the spec: [OpKernelRunnerTable::Get] returns the runner or
    a null indicator if not present. *)
Definition Get (key : Z) (t : gmap Z OpKernelRunner) : option OpKernelRunner :=
  t !! key.

(** Prepare the input tensors, from argument [i] on.  [None]: an argument
    is not an available fallback tensor, and [get] on it is undefined. *)
Fixpoint prepare_input_tensors
    (i : nat) (args : list FrameArg) (run_state : OpKernelRunState) (w : World)
    : option OpKernelRunState :=
  match args with
  | [] => Some run_state
  | arg :: args =>
      match heap w !! arg_value arg with
      | Some (Available (PFallbackTensor fallback_tensor)) =>
          (* If the argument is immutable or unique, we can just keep the
             reference without copying.  Otherwise, we conservatively copy
             the tensor. *)
          let run_state :=
            if negb (is_immutable fallback_tensor) && negb (IsUnique arg)
            then set_input_tf_tensors
                   (input_tf_tensors run_state ++ [tensor fallback_tensor])
                   run_state
            else run_state in
          let run_state :=
            set_input_tf_tensor_values
              (<[i := Some (tensor fallback_tensor)]>
                 (input_tf_tensor_values run_state)) run_state in
          prepare_input_tensors (S i) args run_state w
      | _ => None
      end
  end.

(** The part of [KernelFallbackExecuteOp] that runs under the scope guard
    [clean_up_inputs]. *)
Definition execute_op_guarded
    (args : list FrameArg) (results : list Slot) (op_chain : option Slot)
    (kernel_runner : OpKernelRunner)
    (fallback_request_state : KernelFallbackCompatRequestState)
    (run_state : OpKernelRunState) (w : World)
    : option Slot * list Slot * OpKernelRunState * World :=
  let run_state :=
    set_input_tf_tensor_values
      (resize (length args) (input_tf_tensor_values run_state)) run_state in
  match prepare_input_tensors 0 args run_state w with
  | None => (op_chain, results, run_state, set_fault w)
  | Some run_state =>
      let run_state :=
        SetUpParams run_state kernel_runner fallback_request_state in
      let '(op_chain, results, w) :=
        if IsAsync kernel_runner then
          KernelFallbackExecuteCompatAsyncInternal
            FallbackTensorT run_state kernel_runner op_chain results w
        else
          KernelFallbackExecuteCompatSyncInternal
            FallbackTensorT run_state kernel_runner op_chain results w in
      (op_chain, results, run_state, w)
  end.

(** The BEF kernel for kernel fallback compat mode. *)
Definition KernelFallbackExecuteOp
    (args : list FrameArg) (results : list Slot) (op_chain : option Slot)
    (frame : FallbackKernelAttributeFrame) (exec_ctx : ExecutionContext)
    (tls : OpKernelRunState) (w : World)
    : option Slot * list Slot * OpKernelRunState * World :=
  match request_state exec_ctx with
  | None =>
      let '(op_chain, results, w) :=
        KernelFallbackEmitError (frame_op_name frame) op_chain results
                                (errors.NotFound request_state_not_found) w in
      (op_chain, results, tls, w)
  | Some fallback_request_state =>
      match Get (frame_op_key frame) (runner_table w) with
      | None => (op_chain, results, tls, set_fault w)
      | Some kernel_runner =>
          let '(op_chain, results, run_state, w) :=
            execute_op_guarded args results op_chain kernel_runner
                               fallback_request_state tls w in
          (op_chain, results, clean_up_inputs run_state, w)
      end
  end.

(** [llvm::Error] as the kernels below build it. *)
Inductive LlvmError :=
  | StringError (msg : string)
  | StatusError (st : Status).

(** The BEF kernel for creating [tensorflow::OpKernel] to be used in kernel
    fallback compat mode. *)
Definition KernelFallbackCreateOp
    (device_attr : string) (num_args : Z)
    (op_attr_array op_func_attr_array : AggregateAttr)
    (op_key : Z) (op_name_attr : string)
    (exec_ctx : ExecutionContext) (w : World)
    : Expected LlvmError unit * World :=
  match request_state exec_ctx with
  | None => (Failure (StringError request_state_not_found), w)
  | Some fallback_request_state =>
      let op_name := StripTfPrefix op_name_attr in
      match OpKernelRunner_Create op_name device_attr num_args op_attr_array
                                  op_func_attr_array fallback_request_state with
      | Failure st => (Failure (StatusError st), w)
      | Value kernel_runner =>
          let '(inserted, table) :=
            Insert op_key kernel_runner (runner_table w) in
          let w := set_runner_table table w in
          if negb inserted then
            (Failure
               (StringError
                  (StrCat ["KernelFallbackCreateOp: OpKernelRunner already exists: ";
                           op_name_attr])), w)
          else (Value (), w)
      end
  end.

(** Modelled from the spec: [FallbackResourceArray::SetResource] of
    [kernel_fallback_compat_request_state.h], which is not among the
    sources: it stores an immutable wrapper of the given tensor at [index],
    overwriting any previous value. *)
Definition SetResource (index : Z) (t : ImmutableTensor) (w : World) : World :=
  let '(r, w) :=
    MakeAvailableAsyncValueRef (PFallbackTensor (FallbackTensor_of_Immutable t)) w in
  set_resource_array (<[index := r]> (resource_array w)) w.

(** Modelled from the spec: [FallbackResourceArray::GetResource] returns the
    stored value; an unset index is a contract violation. *)
Definition GetResource (index : Z) (w : World) : option AVRef :=
  resource_array w !! index.

(** [FallbackSetResource] is the fallback kernel that sets the tensor value
    in the fallback's resource array. *)
Definition FallbackSetResource
    (arg : FallbackTensor) (device_attr : string) (index_attr : Z)
    (exec_ctx : ExecutionContext) (w : World)
    : Expected LlvmError unit * World :=
  match request_state exec_ctx with
  | None => (Failure (StringError request_state_not_found), w)
  | Some fallback_request_state =>
      let index := index_attr in
      (* Setting the resource tensor to be immutable, so that we don't need
         reference counting on it and that it cannot be buffer-forwarded. *)
      (Value (), SetResource index (ImmutableTensor_Create (tensor arg)) w)
  end.

(** [FallbackGetResource] is the fallback kernel that retrieves the tensor
    value in the fallback's resource array. *)
Definition FallbackGetResource
    (in_ch : Slot) (out_ch : Slot) (results : list Slot)
    (device_attr : string) (indices_attr : list Z)
    (exec_ctx : ExecutionContext) (w : World)
    : Slot * list Slot * World :=
  match request_state exec_ctx with
  | None =>
      let '(error, w) :=
        EmitErrorAsync request_state_not_found default_error_code w in
      (Some error, results, w)
  | Some fallback_request_state =>
      let indices := indices_attr in
      let '(results, w) :=
        foldl (λ '(results, w) i,
                 match indices !! i with
                 | None => (results, w)
                 | Some index =>
                     match GetResource index w with
                     | Some r =>
                         if decide (i < length results)
                         then (<[i := Some r]> results, w)
                         else (results, set_fault w)
                     | None => (results, set_fault w)
                     end
                 end)
              (results, w) (seq 0 (length indices)) in
      (in_ch, results, w)
  end.

(** A kernel frame: arguments, result slots and attributes. *)
Record AsyncKernelFrame := mkFrame {
  GetArguments : list FrameArg;
  GetResults : list Slot;
  GetAttributes : FallbackKernelAttributeFrame;
  GetExecutionContext : ExecutionContext;
}.

(** The implementation of [tfrt_fallback_async.executeop]: it executes a
    non-side-effecting TF op.  The result slots of the frame are returned. *)
Definition FallbackAsyncExecuteOp
    (frame : AsyncKernelFrame) (tls : OpKernelRunState) (w : World)
    : list Slot * OpKernelRunState * World :=
  let '(_, results, tls, w) :=
    KernelFallbackExecuteOp (GetArguments frame) (GetResults frame) None
                            (GetAttributes frame) (GetExecutionContext frame)
                            tls w in
  (results, tls, w).

(** The implementation of [tfrt_fallback_async.executeop.seq]: it executes a
    side-effecting TF op; the first argument and the first result are the
    chains used for side-effect visibility. *)
Definition FallbackAsyncExecuteOpSeq
    (frame : AsyncKernelFrame) (tls : OpKernelRunState) (w : World)
    : list Slot * OpKernelRunState * World :=
  match GetArguments frame, GetResults frame with
  | in_chain :: args, out_op_chain :: results =>
      let op_chain : Slot := Some (arg_value in_chain) in
      let '(out, results, tls, w) :=
        KernelFallbackExecuteOp args results (Some op_chain)
                                (GetAttributes frame)
                                (GetExecutionContext frame) tls w in
      (local_chain op_chain out :: results, tls, w)
  | _, _ => (GetResults frame, tls, set_fault w)
  end.

(** [FallbackCopyTensorIfSmall]: every result gets a future of its own, so
    that downstream threads do not contend on one reference count. *)
Definition FallbackCopyTensorIfSmall
    (arg : FallbackTensor) (results : list Slot) (w : World)
    : list Slot * World :=
  let fallback_tensor := arg in
  let t := tensor fallback_tensor in
  if negb (is_immutable fallback_tensor) then
    (* Create a new TensorBuffer which contains a new atomic counter for
       each result. *)
    foldl (λ '(results, w) i,
             let immutable_tensor := ImmutableTensor_Create t in
             let '(r, w) :=
               MakeAvailableAsyncValueRef
                 (PFallbackTensor
                    (FallbackTensor_of_Tensor (imm_tensor immutable_tensor))) w in
             (<[i := Some r]> results, w))
          (results, w) (seq 0 (length results))
  else
    (* For immutable tensors, we just need to copy the pointer; a new
       AsyncValue is still created. *)
    foldl (λ '(results, w) i,
             let '(r, w) :=
               MakeAvailableAsyncValueRef (PFallbackTensor fallback_tensor) w in
             (<[i := Some r]> results, w))
          (results, w) (seq 0 (length results)).

(** ** A worker thread *)

(** One op invocation through either dispatch entry point. *)
Inductive Invocation :=
  | CoreRuntimeDispatch
      (exec_ctx : ExecutionContext) (op_name device_name : string)
      (arguments : list TfrtTensor) (results : list Slot) (attrs : OpAttrsRef)
  | ExecuteOp
      (args : list FrameArg) (results : list Slot) (op_chain : option Slot)
      (frame : FallbackKernelAttributeFrame) (exec_ctx : ExecutionContext).

(** What the caller and the rest of the system can see of an invocation:
    the completion token, the outputs and the world. *)
Definition Observable : Type := option Slot * list Slot * World.

(** The invocation on a thread whose scratch run state is [tls]. *)
Definition invoke (inv : Invocation) (tls : OpKernelRunState) (w : World)
    : Observable * OpKernelRunState :=
  match inv with
  | CoreRuntimeDispatch exec_ctx op_name device_name arguments results attrs =>
      let '(op_chain, results, tls, w) :=
        KernelFallbackExecuteCompatCoreRuntimeDispatch
          exec_ctx op_name device_name arguments results attrs tls w in
      ((Some op_chain, results, w), tls)
  | ExecuteOp args results op_chain frame exec_ctx =>
      let '(op_chain, results, tls, w) :=
        KernelFallbackExecuteOp args results op_chain frame exec_ctx tls w in
      ((op_chain, results, w), tls)
  end.

(** Invocations back-to-back on one thread. *)
Fixpoint run_thread (invs : list Invocation) (tls : OpKernelRunState) (w : World)
    : OpKernelRunState * World :=
  match invs with
  | [] => (tls, w)
  | inv :: invs =>
      let '((_, _, w), tls) := invoke inv tls w in
      run_thread invs tls w
  end.

End Engine.

(** * A concrete instance

    A small tensor type and three runners, used to run the model on concrete
    invocations. *)
Module Demo.

Inductive DemoDataType := DT_FLOAT | DT_INT32 | DT_STRING.

#[export] Instance DemoDataType_eq_dec : EqDecision DemoDataType.
Proof. solve_decision. Defined.

Definition DemoDataTypeString (d : DemoDataType) : string :=
  match d with
  | DT_FLOAT => "float"
  | DT_INT32 => "int32"
  | DT_STRING => "string"
  end.

Record DemoTensor := mkTensor {
  demo_dtype : DemoDataType;
  demo_values : list Z;
}.

(** A generic tensor of the new runtime: one that converts, or one of a kind
    the conversion does not support. *)
Inductive DemoTfrtTensor :=
  | DenseHostTensor (t : DemoTensor)
  | OpaqueTensor (kind : string).

#[export] Instance demo_collaborators : Collaborators := {|
  DataType := DemoDataType;
  DataTypeString := DemoDataTypeString;
  Tensor := DemoTensor;
  dtype := demo_dtype;
  ErrorCode := Code;
  default_error_code := UNKNOWN;
  ConvertTfErrorCodeToTfrtErrorCode := code;
  TfrtTensor := DemoTfrtTensor;
  TFRTTensorToTFTensor := λ t,
    match t with
    | DenseHostTensor t => Value t
    | OpaqueTensor kind => Failure ("cannot convert tensor of kind " +:+ kind)
    end;
|}.

Definition scalar (v : Z) : DemoTensor := mkTensor DT_INT32 [v].

(** Element-wise addition of two int32 tensors. *)
Definition add_kernel (ctx : OpKernelContext) : KernelEffect :=
  match ctx_inputs ctx with
  | [Some a; Some b] =>
      mkEffect Status_OK
        (λ i, if decide (i = 0)
              then Some (mkTensor DT_INT32
                           (zip_with Z.add (demo_values a) (demo_values b)))
              else None)
  | _ => mkEffect (errors.InvalidArgument "Add needs two inputs") (λ _, None)
  end.

(** A kernel that always fails. *)
Definition failing_kernel (ctx : OpKernelContext) : KernelEffect :=
  mkEffect (mkStatus ABORTED "out of luck") (λ _, None).

(** A kernel that forwards its first input. *)
Definition identity_kernel (ctx : OpKernelContext) : KernelEffect :=
  mkEffect Status_OK (λ i, if decide (i = 0) then mjoin (ctx_inputs ctx !! 0) else None).

Definition AddRunner : OpKernelRunner :=
  mkRunner (mkOpKernel "Add" [DT_INT32; DT_INT32] 1)
           (Some 1) (Some 2) (Some 3) (Some 4) (Some 5)
           false add_kernel (λ _, CallbackLater).

Definition FailRunner : OpKernelRunner :=
  mkRunner (mkOpKernel "Fail" [] 2)
           (Some 1) (Some 2) (Some 3) (Some 4) (Some 5)
           false failing_kernel (λ _, CallbackLater).

Definition BatchRunner : OpKernelRunner :=
  mkRunner (mkOpKernel "_BatchFunctionFallback" [DT_INT32] 1)
           (Some 1) (Some 2) (Some 3) (Some 4) (Some 5)
           false identity_kernel (λ _, CallbackLater).

(** An asynchronous kernel that completes later, from the legacy runtime. *)
Definition AsyncRunner : OpKernelRunner :=
  mkRunner (mkOpKernel "AsyncIdentity" [DT_INT32] 1)
           (Some 1) (Some 2) (Some 3) (Some 4) (Some 5)
           true identity_kernel (λ _, CallbackLater).

Definition runner_of_name (op_name : string) : Expected Status OpKernelRunner :=
  if decide (op_name = "Add") then Value AddRunner
  else if decide (op_name = "Fail") then Value FailRunner
  else if decide (op_name = "_BatchFunctionFallback") then Value BatchRunner
  else if decide (op_name = "AsyncIdentity") then Value AsyncRunner
  else Failure (errors.NotFound ("no kernel registered for " +:+ op_name)).

#[export] Instance demo_factory : RunnerFactory := {|
  OpAttrsRef := unit;
  GetOrCreate := λ _ op_name _ _ _ _, runner_of_name op_name;
  AggregateAttr := unit;
  OpKernelRunner_Create := λ op_name _ _ _ _ _, runner_of_name op_name;
|}.

Definition demo_request_state : KernelFallbackCompatRequestState :=
  mkRequestState None (Some 10) (Some 11) None (Some 12) 13 (Some 14) false.

Definition with_state : ExecutionContext := mkExecCtx (Some demo_request_state) 0.
Definition without_state : ExecutionContext := mkExecCtx None 0.

End Demo.

(** * Vocabulary of the properties *)

Section Vocabulary.
Context `{Collaborators} `{!RunnerFactory}.

(** The message and classification of the error [KernelFallbackEmitError]
    synthesizes. *)
Definition translated_error (op_name : string) (st : Status) : DecodedDiagnostic :=
  mkDiag (StrCat ["error running kernel fallback kernel "; op_name; ": ";
                  error_message st])
         (ConvertTfErrorCodeToTfrtErrorCode st).

(** The message [ValidateInputTypes] builds for input [i]. *)
Definition dtype_mismatch_message
    (op_name : string) (i : nat) (expected actual : DataType) : string :=
  StrCat ["cannot compute "; op_name; " as input #"; pretty i; "(zero-based)";
          " was expected to be a "; DataTypeString expected;
          " tensor but is a "; DataTypeString actual; " tensor"].

(** Input [i] is the first whose data type differs from the declared one. *)
Definition first_dtype_mismatch
    (ts : list Tensor) (declared : list DataType) (i : nat) (t : Tensor)
    (ty : DataType) : Prop :=
  ts !! i = Some t ∧ declared !! i = Some ty ∧ dtype t ≠ ty
  ∧ ∀ j t', j < i → ts !! j = Some t' → declared !! j = Some (dtype t').

(** The invocation was rejected with [st]: the completion token and every
    output slot refer to one future that holds the translation of [st], and
    no runner was invoked. *)
Definition rejected_with
    (op_name : string) (st : Status) (results : list Slot) (w : World)
    (out : Slot * list Slot * OpKernelRunState * World) : Prop :=
  ∃ error : AVRef,
    out.1.1.1 = Some error
    ∧ out.1.1.2 = (λ _, Some error) <$> results
    ∧ heap out.2 !! error = Some (Error (translated_error op_name st))
    ∧ kernel_calls out.2 = kernel_calls w.

(** The runner was invoked once, on the given converted inputs. *)
Definition kernel_invoked
    (kernel_runner : OpKernelRunner) (inputs : list Tensor) (w w' : World) : Prop :=
  ∃ ctx : OpKernelContext,
    ctx_inputs ctx = Some <$> inputs
    ∧ params_op_kernel (ctx_params ctx) = Some (op_kernel kernel_runner)
    ∧ kernel_calls w' =
        kernel_calls w ++ [if IsAsync kernel_runner then RunAsyncCall ctx
                           else RunCall ctx].

(** From [w] to [w'] futures were only added: nothing but the store and
    the fault flag differ, and the store of [w] is a prefix of that of [w']. *)
Definition only_allocates (w w' : World) : Prop :=
  (∃ ext, heap w' = heap w ++ ext)
  ∧ work_queue w' = work_queue w
  ∧ pending w' = pending w
  ∧ runner_table w' = runner_table w
  ∧ resource_array w' = resource_array w
  ∧ kernel_calls w' = kernel_calls w.

(** The run state a core-runtime dispatch hands to the runner for the
    converted inputs [ts]. *)
Definition prepared_run_state
    (ts : list Tensor) (kernel_runner : OpKernelRunner)
    (fallback_request_state : KernelFallbackCompatRequestState)
    : OpKernelRunState :=
  SetUpParams (mkRunState ts (Some <$> ts) Params_default)
              kernel_runner fallback_request_state.

(** The exempted op name. *)
Definition exempted (op_name : string) : Prop :=
  op_name = "_BatchFunctionFallback".

(** The tensors of the arguments of a kernel frame, when every argument is
    an available fallback tensor. *)
Fixpoint argument_tensors (w : World) (args : list FrameArg)
    : option (list Tensor) :=
  match args with
  | [] => Some []
  | arg :: args =>
      match heap w !! arg_value arg with
      | Some (Available (PFallbackTensor fallback_tensor)) =>
          match argument_tensors w args with
          | Some ts => Some (tensor fallback_tensor :: ts)
          | None => None
          end
      | _ => None
      end
  end.

(** The tensors [KernelFallbackExecuteOp] copies into the run state: those
    of the arguments that are neither immutable nor uniquely referenced. *)
Fixpoint copied_tensors (w : World) (args : list FrameArg) : list Tensor :=
  match args with
  | [] => []
  | arg :: args =>
      match heap w !! arg_value arg with
      | Some (Available (PFallbackTensor fallback_tensor)) =>
          if negb (is_immutable fallback_tensor) && negb (IsUnique arg)
          then tensor fallback_tensor :: copied_tensors w args
          else copied_tensors w args
      | _ => []
      end
  end.

(** The state of the completion token when an internal execute function
    returns, given the call of the runner it made: after a synchronous [Run]
    the token is available, or holds the translation of the failure status;
    after [RunAsync] it is still unconstructed, unless the completion callback
    ran inside [RunAsync] with a failure status. *)
Definition token_on_return
    (kernel_runner : OpKernelRunner) (call : KernelCall) : AsyncValue :=
  let failed st :=
    Error (translated_error (name (op_kernel kernel_runner)) st) in
  match call with
  | RunCall context =>
      let st := k_status (Run kernel_runner context) in
      if ok st then Available PChain else failed st
  | RunAsyncCall context =>
      match RunAsync kernel_runner context with
      | CallbackInline e =>
          if ok (k_status e) then Unconstructed else failed (k_status e)
      | CallbackLater => Unconstructed
      end
  end.

(** The first [i] arguments convert. *)
Definition converts_before (arguments : list TfrtTensor) (i : nat) : Prop :=
  ∀ j a, j < i → arguments !! j = Some a →
         ∃ t, TFRTTensorToTFTensor a = Value t.

End Vocabulary.

(** * The pass that imports quantization statistics

    The second unit of the source file: [ImportQuantStatsPass], which
    attaches the statistics of a serialized [QuantizationInfo] to the
    operations of a function.  Floating-point values are only moved around,
    so they are values of an arbitrary type [F].  The protobuf parser, the
    integer parser [std::stoi] (which throws on a string that is no number)
    and the regular-expression matcher are functions the pass is given. *)
Module ImportQuantStats.

Section Pass.
Variable F : Type.

(** [QuantizationInfo::MinMax] and [QuantizationInfo::QuantParams], as far
    as the pass reads them. *)
Record MinMax := mkMinMax { min : F; max : F }.

Record QuantParamsEntry := mkEntry {
  entry_name : string;
  entry_name_regex : string;
  entry_params : list MinMax;
  entry_quantize_axis : Z;
}.

(** An operation: whether it is a terminator, its "name" attribute, and for
    each result whether its type is a shaped type with a float element
    type. *)
Record Operation := mkOperation {
  isKnownTerminator : bool;
  name_attr : option string;
  result_is_float : list bool;
}.

Definition getNumResults (op : Operation) : nat := length (result_is_float op).

(** A [quant::StatisticsOp] created on result [stats_arg] of an operation. *)
Record StatisticsOp := mkStatisticsOp {
  stats_arg : nat;
  layer_stats : F * F;
  axis_stats : option (list nat * list F);
  axis : option Z;
}.

Variable LoadProtoFromBuffer : string → option (list QuantParamsEntry).
Variable stoi : string → option Z.
Variable regex_match : string → string → bool.

(** [absl::StrSplit(text, delimiter)] into a vector of strings. *)
Fixpoint StrSplit (text : string) (delimiter : Ascii.ascii) : list string :=
  match text with
  | EmptyString => [EmptyString]
  | String c text =>
      if Ascii.eqb c delimiter then EmptyString :: StrSplit text delimiter
      else match StrSplit text delimiter with
           | piece :: pieces => String c piece :: pieces
           | [] => [String c EmptyString]
           end
  end.

(** [StringMap::insert]: an existing key keeps its value. *)
Definition StringMap_insert {V} (key : string) (v : V) (m : gmap string V)
    : gmap string V :=
  match m !! key with
  | Some _ => m
  | None => <[key := v]> m
  end.

(** The members [name_to_info_] and [regex_to_info_]. *)
Record PassState := mkPassState {
  name_to_info : gmap string (Z * QuantParamsEntry);
  regex_to_info : gmap string (Z * QuantParamsEntry);
}.

(** The delimiter ':' between a name and a port. *)
Definition colon : Ascii.ascii := Ascii.ascii_of_nat 58.

(** The key and the port of an entry name, split at ':':
    [name_and_port[0]], and
    [name_and_port.size() == 2 ? std::stoi(name_and_port[1]) : -1].  [None]:
    [std::stoi] throws. *)
Definition name_and_port (text : string) : option (string * Z) :=
  let name_and_port := StrSplit text colon in
  let key := default EmptyString (name_and_port !! 0) in
  if decide (length name_and_port = 2)
  then port ← stoi (default EmptyString (name_and_port !! 1)); Some (key, port)
  else Some (key, (-1)%Z).

(** The loop of [ParseQuantStats] over the entries. *)
Fixpoint parse_entries (entries : list QuantParamsEntry) (st : PassState)
    : option PassState :=
  match entries with
  | [] => Some st
  | entry :: entries =>
      if negb (String.eqb (entry_name entry) EmptyString) then
        '(key, port) ← name_and_port (entry_name entry);
        parse_entries entries
          (mkPassState (StringMap_insert key (port, entry) (name_to_info st))
                       (regex_to_info st))
      else if negb (String.eqb (entry_name_regex entry) EmptyString) then
        '(key, port) ← name_and_port (entry_name_regex entry);
        parse_entries entries
          (mkPassState (name_to_info st)
                       (StringMap_insert key (port, entry) (regex_to_info st)))
      else parse_entries entries st
  end.

(** [ParseQuantStats]: the result is [true] when the statistics could not
    be loaded.  [None]: an exception of [std::stoi] escapes. *)
Definition ParseQuantStats (stats_str : string) (st : PassState)
    : option (bool * PassState) :=
  match LoadProtoFromBuffer stats_str with
  | None => Some (true, st)
  | Some quant_stats =>
      st ← parse_entries quant_stats st; Some (false, st)
  end.

(** [CreateImportQuantStatsPass]: the pass, or [nullptr]. *)
Definition CreateImportQuantStatsPass (stats_str : string)
    : option (option PassState) :=
  '(failed, pass) ← ParseQuantStats stats_str (mkPassState ∅ ∅);
  Some (if failed : bool then None else Some pass).

(** If the index is out of range, this method returns false.  Otherwise it
    returns true if the value is a float tensor. *)
Definition IsQuantizableResult (op : Operation) (index : Z) : bool :=
  if decide (index < 0 ∨ Z.of_nat (getNumResults op) ≤ index)%Z then false
  else default false (result_is_float op !! Z.to_nat index).

Definition ImportAsStatsOps
    (op : Operation) (index : Z) (info : QuantParamsEntry)
    : list StatisticsOp :=
  if decide (length (entry_params info) = 0) then []
  else
    let min_maxs :=
      flat_map (λ param, [min param; max param]) (entry_params info) in
    match min_maxs with
    | min0 :: max0 :: _ =>
        (* The layer stats contain only the first min/max pairs. *)
        let layer_stats := (min0, max0) in
        let '(axis_stats, axis) :=
          if decide (1 < length (entry_params info))
          then (Some ([length (entry_params info); 2], min_maxs),
                Some (entry_quantize_axis info))
          else (None, None) in
        if IsQuantizableResult op index then
          [mkStatisticsOp (Z.to_nat index) layer_stats axis_stats axis]
        else
          omap (λ i, if IsQuantizableResult op (Z.of_nat i)
                     then Some (mkStatisticsOp i layer_stats axis_stats axis)
                     else None)
               (seq 0 (getNumResults op))
    | _ => []
    end.

(** Iterate all the regex names and match the first one; [regexes] are the
    entries of [regex_to_info_] in the order the map enumerates them. *)
Fixpoint import_first_match
    (op : Operation) (op_name : string)
    (regexes : list (string * (Z * QuantParamsEntry))) : list StatisticsOp :=
  match regexes with
  | [] => []
  | (regex, (port, info)) :: regexes =>
      if regex_match regex op_name then ImportAsStatsOps op port info
      else import_first_match op op_name regexes
  end.

(** The callback [runOnFunction] walks the function with. *)
Definition visit
    (op_to_name : Operation → string)
    (names : gmap string (Z * QuantParamsEntry))
    (regexes : list (string * (Z * QuantParamsEntry)))
    (op : Operation) : list StatisticsOp :=
  if isKnownTerminator op then []
  else
    let op_name := op_to_name op in
    (* Check the named info collection first. *)
    match names !! op_name with
    | Some (port, info) => ImportAsStatsOps op port info
    | None => import_first_match op op_name regexes
    end.

(** Whether a string contains a character. *)
Fixpoint has_char (c : Ascii.ascii) (text : string) : bool :=
  match text with
  | EmptyString => false
  | String c' text => Ascii.eqb c' c || has_char c text
  end.

(** The name function of [CreateImportQuantStatsPassForTFControlDialect]. *)
Definition get_name_func (op : Operation) : string :=
  default EmptyString (name_attr op).

End Pass.

End ImportQuantStats.

(** * Properties *)

Section EngineProperties.
Context `{Collaborators} `{!RunnerFactory}.

(** ** Strings *)

Lemma string_app_assoc (a b c : string) : (a +:+ b) +:+ c = a +:+ b +:+ c.
Proof.
  induction a as [|x a IH]; [done|].
  change (String x ((a +:+ b) +:+ c) = String x (a +:+ b +:+ c)).
  by rewrite IH.
Qed.

Lemma StrCat_app (l1 l2 : list string) :
  StrCat (l1 ++ l2) = StrCat l1 +:+ StrCat l2.
Proof.
  induction l1 as [|x l1 IH]; [done|].
  change (x +:+ StrCat (l1 ++ l2) = (x +:+ StrCat l1) +:+ StrCat l2).
  by rewrite IH, string_app_assoc.
Qed.

(** Every piece of a concatenation is a substring of it. *)
Lemma contains_StrCat (pieces : list string) (sub : string) :
  sub ∈ pieces → contains (StrCat pieces) sub.
Proof.
  intros (l1 & l2 & ->)%list_elem_of_split.
  exists (StrCat l1), (StrCat l2). by rewrite StrCat_app.
Qed.

(** ** Error translation *)

Lemma KernelFallbackEmitError_eq op_name op_chain results st w :
  KernelFallbackEmitError op_name op_chain results st w =
    ((λ _, Some (length (heap w))) <$> op_chain,
     (λ _, Some (length (heap w))) <$> results,
     set_heap (heap w ++ [Error (translated_error op_name st)]) w).
Proof. done. Qed.

Lemma translated_error_contains op_name st :
  contains (diag_message (translated_error op_name st)) op_name
  ∧ contains (diag_message (translated_error op_name st)) (error_message st).
Proof. split; apply contains_StrCat; set_solver. Qed.

(** C1: [KernelFallbackEmitError] synthesizes one error future, whose
    message contains the op name and the message of the status and whose
    code is the translated code of the status; every output slot, and the
    completion token when its slot is supplied, then refer to that one
    future, and no other future changes. *)
Theorem KernelFallbackEmitError_one_error_everywhere
    (op_name : string) (op_chain : option Slot) (results : list Slot)
    (st : Status) (w : World) :
  let '(op_chain', results', w') :=
    KernelFallbackEmitError op_name op_chain results st w in
  ∃ (error : AVRef) (d : DecodedDiagnostic),
    heap w !! error = None
    ∧ heap w' !! error = Some (Error d)
    ∧ contains (diag_message d) op_name
    ∧ contains (diag_message d) (error_message st)
    ∧ diag_code d = ConvertTfErrorCodeToTfrtErrorCode st
    ∧ length results' = length results
    ∧ Forall (λ s, s = Some error) results'
    ∧ op_chain' = (λ _, Some error) <$> op_chain
    ∧ Forall (λ s, slot_state w' s = Some (Error d))
             (results' ++ option_list op_chain')
    ∧ (∀ r, r < length (heap w) → heap w' !! r = heap w !! r).
Proof.
  rewrite KernelFallbackEmitError_eq.
  exists (length (heap w)), (translated_error op_name st).
  assert (Hnew : (heap w ++ [Error (translated_error op_name st)])
                   !! length (heap w)
                 = Some (Error (translated_error op_name st))).
  { by rewrite lookup_app_r, Nat.sub_diag. }
  destruct (translated_error_contains op_name st) as [Hop Hmsg].
  split_and!; try done.
  - by apply lookup_ge_None_2.
  - by rewrite length_fmap.
  - apply Forall_fmap, Forall_true. done.
  - apply Forall_app. split.
    + apply Forall_fmap, Forall_true. intros s. simpl. done.
    + destruct op_chain; simpl; [|constructor].
      repeat constructor. simpl. done.
  - intros r Hr. simpl. by rewrite lookup_app_l.
Qed.

(** ** Validation *)

Lemma ValidateInputTypes_count_mismatch op_name (ts : list Tensor) declared :
  length ts ≠ length declared →
  ValidateInputTypes op_name ts declared =
    errors.InvalidArgument
      (StrCat ["expected "; pretty (length declared); " inputs, got ";
               pretty (length ts)]).
Proof. intros Hne. unfold ValidateInputTypes. by rewrite decide_True. Qed.

Lemma ValidateInputTypes_from_match op_name i0 (ts : list Tensor) declared :
  Forall2 (λ t ty, dtype t = ty) ts declared →
  ValidateInputTypes_from op_name i0 ts declared = Status_OK.
Proof.
  intros Hall. revert i0.
  induction Hall as [|t ty ts declared Ht _ IH]; intros i0; simpl; [done|].
  rewrite decide_False by (by intros ?). apply IH.
Qed.

Lemma ValidateInputTypes_from_mismatch op_name i0 (ts : list Tensor) declared i t ty :
  first_dtype_mismatch ts declared i t ty →
  ValidateInputTypes_from op_name i0 ts declared =
    errors.InvalidArgument (dtype_mismatch_message op_name (i0 + i) ty (dtype t)).
Proof.
  revert i0 ts declared.
  induction i as [|i IH]; intros i0 ts declared (Ht & Hty & Hne & Hbefore).
  - destruct ts as [|t0 ts], declared as [|ty0 declared]; simplify_eq/=.
    rewrite decide_True by done. by rewrite Nat.add_0_r.
  - destruct ts as [|t0 ts], declared as [|ty0 declared]; simplify_eq/=.
    rewrite decide_False.
    + rewrite (IH (S i0) ts declared).
      * by rewrite Nat.add_succ_r.
      * split_and!; try done.
        intros j t' Hj Hl. apply (Hbefore (S j) t'); [lia|done].
    + intros Hdiff. apply Hdiff.
      specialize (Hbefore 0 t0 ltac:(lia) eq_refl). by simplify_eq/=.
Qed.

(** A list of inputs whose types do not all match has a first mismatch. *)
Lemma first_dtype_mismatch_exists (ts : list Tensor) declared (i : nat) t ty :
  ts !! i = Some t → declared !! i = Some ty → dtype t ≠ ty →
  ∃ (j : nat) t' ty', j ≤ i ∧ first_dtype_mismatch ts declared j t' ty'.
Proof.
  revert ts declared.
  induction i as [|i IH]; intros ts declared Ht Hty Hne.
  - exists 0, t, ty. split; [lia|]. split_and!; try done. intros; lia.
  - destruct ts as [|t0 ts], declared as [|ty0 declared]; simplify_eq/=.
    destruct (decide (dtype t0 = ty0)) as [Heq|Hdiff].
    + destruct (IH ts declared Ht Hty Hne) as (j & t' & ty' & Hj & H1 & H2 & H3 & H4).
      exists (S j), t', ty'. split; [lia|]. split_and!; try done.
      intros [|k] t'' Hk Hl; simplify_eq/=; [done|].
      apply (H4 k); [lia|done].
    + exists 0, t0, ty0. split; [lia|]. split_and!; try done. intros; lia.
Qed.

Lemma ValidateInputTypes_ok_iff op_name (ts : list Tensor) declared :
  ok (ValidateInputTypes op_name ts declared) = true
  ↔ Forall2 (λ t ty, dtype t = ty) ts declared.
Proof.
  split.
  - intros Hok. unfold ValidateInputTypes in Hok.
    destruct (decide (length declared ≠ length ts)) as [|Hlen%dec_stable];
      [done|].
    apply Forall2_same_length_lookup_2; [done|].
    intros i t ty Ht Hty.
    destruct (decide (dtype t = ty)) as [|Hne]; [done|].
    destruct (first_dtype_mismatch_exists ts declared i t ty Ht Hty Hne)
      as (j & t' & ty' & _ & Hfirst).
    by rewrite (ValidateInputTypes_from_mismatch _ _ _ _ _ _ _ Hfirst) in Hok.
  - intros Hall. unfold ValidateInputTypes.
    rewrite decide_False.
    + by rewrite ValidateInputTypes_from_match.
    + intros Hne. apply Hne. symmetry. by eapply Forall2_length.
Qed.

(** ** The synchronous path *)

Lemma only_allocates_refl (w : World) : only_allocates w w.
Proof. split_and!; try done. exists []. by rewrite app_nil_r. Qed.

Lemma only_allocates_trans (w1 w2 w3 : World) :
  only_allocates w1 w2 → only_allocates w2 w3 → only_allocates w1 w3.
Proof.
  intros ([e1 He1] & ? & ? & ? & ? & ?) ([e2 He2] & ? & ? & ? & ? & ?).
  split_and!; try congruence.
  exists (e1 ++ e2). by rewrite He2, He1, app_assoc.
Qed.

Lemma only_allocates_alloc (v : AsyncValue) (w : World) :
  only_allocates w (alloc v w).2.
Proof. split_and!; try done. by exists [v]. Qed.

Lemma only_allocates_set_fault (w : World) : only_allocates w (set_fault w).
Proof. split_and!; try done. exists []. by rewrite app_nil_r. Qed.

(** The loop that makes the outputs available, for outputs [0 .. k-1]. *)
Lemma make_outputs_available_spec ty context (k : nat)
    (results results' : list Slot) (w w' : World) :
  k ≤ length results →
  foldl (make_output_available ty context) (results, w) (seq 0 k)
    = (results', w') →
  length results' = length results
  ∧ only_allocates w w'
  ∧ (∀ i, i < k →
       match mutable_output context i with
       | Some t => ∃ r : AVRef,
           results' !! i = Some (Some r)
           ∧ heap w' !! r = Some (Available (make_payload ty t))
           ∧ heap w !! r = None
       | None => fault w' = true
       end)
  ∧ (∀ i, k ≤ i → results' !! i = results !! i)
  ∧ ((∀ i, i < k → is_Some (mutable_output context i)) → fault w' = fault w).
Proof.
  revert results' w'.
  induction k as [|k IH]; intros results' w' Hk Hfold.
  { simpl in Hfold. simplify_eq. split_and!; try done.
    - apply only_allocates_refl.
    - intros; lia. }
  rewrite seq_S, foldl_app in Hfold. simpl in Hfold.
  destruct (foldl (make_output_available ty context) (results, w) (seq 0 k))
    as [results1 w1] eqn:Hprev.
  destruct (IH results1 w1 ltac:(lia) eq_refl)
    as (Hlen & Hgrow & Hdone & Hrest & Hfault).
  unfold make_output_available in Hfold.
  destruct (mutable_output context k) as [t|] eqn:Hout; simplify_eq/=.
  - split_and!.
    + by rewrite length_insert.
    + eapply only_allocates_trans; [done|].
      apply (only_allocates_alloc (Available (make_payload ty t))).
    + intros i Hi. destruct (decide (i = k)) as [->|Hne].
      * rewrite Hout. exists (length (heap w1)). split_and!.
        -- apply list_lookup_insert_eq. lia.
        -- by rewrite lookup_app_r, Nat.sub_diag.
        -- destruct Hgrow as ([ext Hext] & _). apply lookup_ge_None_2.
           rewrite Hext, length_app. lia.
      * specialize (Hdone i ltac:(lia)).
        destruct (mutable_output context i) as [ti|]; [|done].
        destruct Hdone as (r & Hr & Hheap & Hfresh).
        exists r. split_and!; [|by apply lookup_app_l_Some|done].
        by rewrite list_lookup_insert_ne.
    + intros i Hi. rewrite list_lookup_insert_ne by lia. apply Hrest. lia.
    + intros Hall. apply Hfault. intros i Hi. apply Hall. lia.
  - split_and!.
    + done.
    + eapply only_allocates_trans; [done|]. apply only_allocates_set_fault.
    + intros i Hi. destruct (decide (i = k)) as [->|Hne].
      * by rewrite Hout.
      * specialize (Hdone i ltac:(lia)).
        destruct (mutable_output context i) as [ti|]; done.
    + intros i Hi. apply Hrest. lia.
    + intros Hall. destruct (Hall k ltac:(lia)) as [t Ht]. congruence.
Qed.

(** C3: on the synchronous path, a failure status of the legacy context
    ends the call in error translation, with every declared output and the
    completion token in the error state; on a success status every output
    the kernel produced is in its declared output slot as an available
    value, and the completion token is available. *)
Theorem KernelFallbackExecuteCompatSyncInternal_outcome
    (ty : TensorType) (run_state : OpKernelRunState)
    (kernel_runner : OpKernelRunner)
    (op_chain : option Slot) (results : list Slot) (w : World) :
  let context := OpKernelContext_new run_state (length results) in
  let e := Run kernel_runner context in
  let '(op_chain', results', w') :=
    KernelFallbackExecuteCompatSyncInternal
      ty run_state kernel_runner op_chain results w in
  length results' = length results
  ∧ kernel_calls w' = kernel_calls w ++ [RunCall context]
  ∧ if ok (k_status e) then
      (∀ i, i < length results →
         match k_output e i with
         | Some t => ∃ r : AVRef,
             results' !! i = Some (Some r)
             ∧ heap w' !! r = Some (Available (make_payload ty t))
         | None => fault w' = true
         end)
      ∧ match op_chain with
        | None => op_chain' = None
        | Some _ => ∃ c : AVRef,
            op_chain' = Some (Some c) ∧ heap w' !! c = Some (Available PChain)
        end
      ∧ ((∀ i, i < length results → is_Some (k_output e i)) →
         fault w' = fault w)
    else
      ∃ error : AVRef,
        results' = (λ _, Some error) <$> results
        ∧ op_chain' = (λ _, Some error) <$> op_chain
        ∧ heap w' = heap w ++ [Error (translated_error
                                        (name (op_kernel kernel_runner))
                                        (k_status e))]
        ∧ heap w' !! error =
            Some (Error (translated_error (name (op_kernel kernel_runner))
                                          (k_status e))).
Proof.
  intros context e. unfold KernelFallbackExecuteCompatSyncInternal.
  fold context. fold e.
  change (status (ran context e)) with (k_status e).
  destruct (ok (k_status e)) eqn:Hok; simpl.
  - change (ctx_num_outputs (ran context e)) with (length results).
    destruct (foldl (make_output_available ty (ran context e))
                    (results, log_call (RunCall context) w)
                    (seq 0 (length results))) as [results1 w1] eqn:Hloop.
    destruct (make_outputs_available_spec _ _ _ _ _ _ _ (Nat.le_refl _) Hloop)
      as (Hlen & Hgrow & Hdone & _ & Hfault).
    assert (Houts : ∀ i, i < length results →
              match k_output e i with
              | Some t => ∃ r : AVRef,
                  results1 !! i = Some (Some r)
                  ∧ heap w1 !! r = Some (Available (make_payload ty t))
              | None => fault w1 = true
              end).
    { intros i Hi. specialize (Hdone i Hi). simpl in Hdone.
      rewrite decide_True in Hdone by done.
      destruct (k_output e i); [|done].
      destruct Hdone as (r & ? & ? & _). by exists r. }
    assert (Hnofault : (∀ i, i < length results → is_Some (k_output e i)) →
              fault w1 = fault w).
    { intros Hall. rewrite Hfault; [done|].
      intros i Hi. simpl. rewrite decide_True by done. by apply Hall. }
    destruct Hgrow as (_ & _ & _ & _ & _ & Hcalls).
    destruct op_chain as [s|]; simpl.
    + split_and!; try done.
      * intros i Hi. specialize (Houts i Hi).
        destruct (k_output e i); [|done].
        destruct Houts as (r & ? & ?). exists r. split; [done|].
        by apply lookup_app_l_Some.
      * exists (length (heap w1)). split; [done|].
        by rewrite lookup_app_r, Nat.sub_diag.
    + split_and!; done.
  - split_and!; [by rewrite length_fmap|done|].
    exists (length (heap w)). split_and!; try done.
    by rewrite lookup_app_r, Nat.sub_diag.
Qed.

(** ** The asynchronous path *)

Lemma alloc_result_refs_eq (results : list Slot) (w : World) :
  alloc_result_refs results w =
    (seq (length (heap w)) (length results),
     set_heap (heap w ++ replicate (length results) Unconstructed) w).
Proof.
  revert w. induction results as [|s results IH]; intros w; simpl.
  - rewrite app_nil_r. by destruct w.
  - rewrite IH. simpl. rewrite length_app, Nat.add_1_r.
    by rewrite <- app_assoc.
Qed.

(** The futures and the shared state that [async_prepare] creates. *)
Lemma async_prepare_eq ty run_state op_chain (results : list Slot) (w : World) :
  let base := length (heap w) in
  let n := length results in
  let copy :=
    OpKernelRunState_of (input_tf_tensor_values run_state) (params run_state) in
  let w1 := set_heap (heap w ++ replicate (S n) Unconstructed) w in
  async_prepare ty run_state op_chain results w =
    ((λ _, Some base) <$> op_chain,
     Some <$> seq (S base) n,
     mkAsyncState ty copy.1 (OpKernelContext_new copy.1 n) base (seq (S base) n),
     if copy.2 then w1 else set_fault w1).
Proof.
  intros base n copy w1. unfold async_prepare. simpl.
  rewrite alloc_result_refs_eq. simpl.
  rewrite length_app, Nat.add_1_r, <- app_assoc, length_fmap, length_seq.
  fold base n. simpl. fold copy.
  destruct copy as [rs valid]. simpl. by destruct valid.
Qed.

Lemma lookup_replicate_app {A} (l : list A) (x : A) (n i : nat) :
  length l ≤ i < length l + n → (l ++ replicate n x) !! i = Some x.
Proof.
  intros Hi. rewrite lookup_app_r by lia. apply lookup_replicate_2. lia.
Qed.

Lemma heap_SetError (r : AVRef) (d : DecodedDiagnostic) (w : World) :
  heap (SetError r d w) = <[r := Error d]> (heap w).
Proof. done. Qed.

(** Setting a list of futures to one error. *)
Lemma SetError_all (refs : list AVRef) (d : DecodedDiagnostic) (w : World) :
  let w' := foldl (λ w r, SetError r d w) w refs in
  length (heap w') = length (heap w)
  ∧ (∀ r, r ∈ refs → r < length (heap w) → heap w' !! r = Some (Error d))
  ∧ (∀ r, r ∉ refs → heap w' !! r = heap w !! r)
  ∧ work_queue w' = work_queue w ∧ pending w' = pending w
  ∧ kernel_calls w' = kernel_calls w ∧ fault w' = fault w.
Proof.
  revert w. induction refs as [|r0 refs IH]; intros w; simpl.
  { split_and!; try done. intros r Hr. by apply elem_of_nil in Hr. }
  destruct (IH (SetError r0 d w)) as (Hlen & Hin & Hout & ? & ? & ? & ?).
  simpl in *. rewrite length_insert in Hlen, Hin.
  split_and!; try done.
  - intros r Hr Hlt. destruct (decide (r ∈ refs)) as [Hmem|Hnot].
    + by apply Hin.
    + rewrite (Hout r Hnot). apply elem_of_cons in Hr as [->|]; [|done].
      by apply list_lookup_insert_eq.
  - intros r Hr. apply not_elem_of_cons in Hr as [Hne Hnot].
    rewrite (Hout r Hnot). by apply list_lookup_insert_ne.
Qed.

(** The enqueued closure, for outputs [0 .. k-1], when the result futures
    are [base, base + 1, ...]. *)
Lemma emplace_outputs_spec (st : AsyncState) (base n k : nat) (w : World) :
  as_result_refs st = seq base n → k ≤ n → base + n ≤ length (heap w) →
  let w' := foldl (emplace_output st) w (seq 0 k) in
  length (heap w') = length (heap w)
  ∧ (∀ i, i < k →
       match mutable_output (as_context st) i with
       | Some t => heap w' !! (base + i)
                   = Some (Available (make_payload (as_tensor_type st) t))
       | None => fault w' = true
       end)
  ∧ (∀ r, ¬ (base ≤ r < base + k) → heap w' !! r = heap w !! r)
  ∧ ((∀ i, i < k → is_Some (mutable_output (as_context st) i)) →
     fault w' = fault w)
  ∧ work_queue w' = work_queue w ∧ pending w' = pending w
  ∧ kernel_calls w' = kernel_calls w.
Proof.
  intros Hrefs Hk Hheap. induction k as [|k IH].
  { simpl. split_and!; try done. intros; lia. }
  rewrite seq_S, foldl_app. simpl.
  destruct (IH ltac:(lia)) as (Hlen & Hdone & Hrest & Hfault & ? & ? & ?).
  set (w1 := foldl (emplace_output st) w (seq 0 k)) in *.
  assert (Hk_ref : as_result_refs st !! k = Some (base + k)).
  { rewrite Hrefs. apply lookup_seq. lia. }
  assert (Hstep : emplace_output st w1 k =
            match mutable_output (as_context st) k with
            | Some t =>
                emplace (base + k) (make_payload (as_tensor_type st) t) w1
            | None => set_fault w1
            end).
  { unfold emplace_output. by rewrite Hk_ref. }
  rewrite Hstep. clear Hstep.
  destruct (mutable_output (as_context st) k) as [t|] eqn:Hout; simpl.
  - rewrite length_insert. split_and!; try done.
    + intros i Hi. destruct (decide (i = k)) as [->|Hne].
      * rewrite Hout. apply list_lookup_insert_eq. lia.
      * specialize (Hdone i ltac:(lia)).
        destruct (mutable_output (as_context st) i); [|done].
        rewrite list_lookup_insert_ne by lia. done.
    + intros r Hr. rewrite list_lookup_insert_ne by lia. apply Hrest. lia.
    + intros Hall. apply Hfault. intros i Hi. apply Hall. lia.
  - split_and!; try done.
    + intros i Hi. destruct (decide (i = k)) as [->|Hne].
      * by rewrite Hout.
      * specialize (Hdone i ltac:(lia)).
        destruct (mutable_output (as_context st) i); done.
    + intros r Hr. apply Hrest. lia.
    + intros Hall. destruct (Hall k ltac:(lia)) as [t Ht]. congruence.
Qed.

(** The completion callback on a failure status. *)
Lemma done_callback_failure (st : AsyncState) (kernel : OpKernel) (w : World) :
  ok (status (as_context st)) = false →
  params_op_kernel (ctx_params (as_context st)) = Some kernel →
  as_chain st < length (heap w) →
  (∀ r, r ∈ as_result_refs st → r < length (heap w)) →
  let w' := done_callback st w in
  let d := translated_error (name kernel) (status (as_context st)) in
  work_queue w' = work_queue w
  ∧ kernel_calls w' = kernel_calls w
  ∧ (∀ r, r ∈ as_chain st :: as_result_refs st → heap w' !! r = Some (Error d))
  ∧ (∀ r, r ∉ as_chain st :: as_result_refs st → heap w' !! r = heap w !! r).
Proof.
  intros Hok Hkernel Hchain Hrefs w' d. unfold w', done_callback.
  rewrite Hok, Hkernel. cbn [negb].
  change (EmitError _ _) with d.
  destruct (SetError_all (as_result_refs st) d w)
    as (Hlen & Hin & Hout & Hq & _ & Hcalls & _).
  set (w1 := foldl (λ w r, SetError r d w) w (as_result_refs st)) in *.
  split_and!; try done.
  - intros r [->|Hr]%elem_of_cons; rewrite heap_SetError.
    + apply list_lookup_insert_eq. lia.
    + destruct (decide (r = as_chain st)) as [->|Hne].
      * apply list_lookup_insert_eq. lia.
      * rewrite list_lookup_insert_ne by done. apply Hin; [done|]. by apply Hrefs.
  - intros r [Hne Hnot]%not_elem_of_cons. rewrite heap_SetError.
    rewrite list_lookup_insert_ne by done. by apply Hout.
Qed.

(** The completion callback on a success status only enqueues the
    publication. *)
Lemma done_callback_success (st : AsyncState) (w : World) :
  ok (status (as_context st)) = true →
  done_callback st w = EnqueueWork (PublishOutputs st) w.
Proof. intros Hok. unfold done_callback. by rewrite Hok. Qed.

Lemma AsyncInternal_eq ty run_state kernel_runner op_chain
    (results : list Slot) (w : World) :
  KernelFallbackExecuteCompatAsyncInternal
    ty run_state kernel_runner op_chain results w =
  let '(op_chain', results', async_state, w1) :=
    async_prepare ty run_state op_chain results w in
  let context := as_context async_state in
  (op_chain', results',
   match RunAsync kernel_runner context with
   | CallbackInline e =>
       done_callback (set_context (ran context e) async_state)
                     (log_call (RunAsyncCall context) w1)
   | CallbackLater =>
       set_pending (pending w1 ++ [async_state])
                   (log_call (RunAsyncCall context) w1)
   end).
Proof.
  unfold KernelFallbackExecuteCompatAsyncInternal.
  destruct (async_prepare ty run_state op_chain results w)
    as [[[op_chain' results'] async_state] w1].
  simpl. by destruct (RunAsync kernel_runner (as_context async_state)).
Qed.

(** C4: on the asynchronous path the output futures and the completion
    token are created unconstructed and published before the runner's
    [RunAsync] is invoked; a completion callback that observes a success
    status changes no future and only enqueues one unit of work on the host,
    and running that unit makes the outputs and the token available; a
    callback that observes a failure status enqueues nothing and itself sets
    every output and the token to one error. *)
Theorem KernelFallbackExecuteCompatAsyncInternal_publication
    (ty : TensorType) (run_state : OpKernelRunState)
    (kernel_runner : OpKernelRunner)
    (op_chain : option Slot) (results : list Slot) (w : World) :
  let '(op_chain', results', async_state, w1) :=
    async_prepare ty run_state op_chain results w in
  let context := as_context async_state in
  let futures := as_chain async_state :: as_result_refs async_state in
  results' = Some <$> as_result_refs async_state
  ∧ length results' = length results
  ∧ op_chain' = (λ _, Some (as_chain async_state)) <$> op_chain
  ∧ Forall (λ r, heap w !! r = None ∧ heap w1 !! r = Some Unconstructed)
           futures
  ∧ kernel_calls w1 = kernel_calls w
  ∧ KernelFallbackExecuteCompatAsyncInternal
      ty run_state kernel_runner op_chain results w =
      (op_chain', results',
       match RunAsync kernel_runner context with
       | CallbackInline e =>
           done_callback (set_context (ran context e) async_state)
                         (log_call (RunAsyncCall context) w1)
       | CallbackLater =>
           set_pending (pending w1 ++ [async_state])
                       (log_call (RunAsyncCall context) w1)
       end)
  ∧ Forall (λ r, heap (set_pending (pending w1 ++ [async_state])
                         (log_call (RunAsyncCall context) w1)) !! r
                 = Some Unconstructed) futures
  ∧ ∀ (e : KernelEffect) (w2 : World),
      length (heap w1) ≤ length (heap w2) →
      let finished := set_context (ran context e) async_state in
      let w3 := done_callback finished w2 in
      if ok (k_status e) then
        heap w3 = heap w2
        ∧ work_queue w3 = work_queue w2 ++ [PublishOutputs finished]
        ∧ ∀ w4 : World,
            length (heap w1) ≤ length (heap w4) →
            let w5 := publish_outputs finished w4 in
            heap w5 !! as_chain async_state = Some (Available PChain)
            ∧ ∀ i, i < length results →
                match k_output e i with
                | Some t => ∃ r : AVRef,
                    results' !! i = Some (Some r)
                    ∧ heap w5 !! r = Some (Available (make_payload ty t))
                | None => fault w5 = true
                end
      else
        work_queue w3 = work_queue w2
        ∧ match params_op_kernel (params run_state) with
          | Some kernel =>
              Forall (λ r, heap w3 !! r =
                           Some (Error (translated_error (name kernel)
                                                         (k_status e))))
                     futures
          | None => fault w3 = true
          end.
Proof.
  pose proof (AsyncInternal_eq ty run_state kernel_runner op_chain results w)
    as Hcall.
  rewrite async_prepare_eq in Hcall |- *.
  set (copy := OpKernelRunState_of (input_tf_tensor_values run_state)
                                   (params run_state)) in *.
  set (base := length (heap w)) in *.
  set (n := length results) in *.
  set (w1 := if copy.2
             then set_heap (heap w ++ replicate (S n) Unconstructed) w
             else set_fault (set_heap (heap w ++ replicate (S n) Unconstructed) w))
    in *.
  assert (Hheap1 : heap w1 = heap w ++ replicate (S n) Unconstructed).
  { unfold w1. by destruct (copy.2). }
  assert (Hcalls1 : kernel_calls w1 = kernel_calls w).
  { unfold w1. by destruct (copy.2). }
  assert (Hlen1 : length (heap w1) = base + S n).
  { by rewrite Hheap1, length_app, length_replicate. }
  cbv zeta. cbv zeta in Hcall.
  set (st := mkAsyncState ty copy.1 (OpKernelContext_new copy.1 n) base
                          (seq (S base) n)) in *.
  change (as_context st) with (OpKernelContext_new copy.1 n) in *.
  change (as_chain st) with base.
  change (as_result_refs st) with (seq (S base) n).
  set (context := OpKernelContext_new copy.1 n) in *.
  assert (Hfutures : ∀ r, r ∈ base :: seq (S base) n → base ≤ r < base + S n).
  { intros r [->|Hr%elem_of_seq]%elem_of_cons; lia. }
  split_and!.
  - done.
  - by rewrite length_fmap, length_seq.
  - done.
  - apply Forall_forall. intros r Hr%Hfutures. split.
    + apply lookup_ge_None_2. fold base. lia.
    + rewrite Hheap1. apply lookup_replicate_app. fold base. lia.
  - done.
  - exact Hcall.
  - apply Forall_forall. intros r Hr%Hfutures. simpl.
    rewrite Hheap1. apply lookup_replicate_app. fold base. lia.
  - intros e w2 Hw2.
    set (finished := set_context (ran context e) st).
    assert (Hst : status (as_context finished) = k_status e) by done.
    destruct (ok (k_status e)) eqn:Hok.
    + rewrite done_callback_success by (by rewrite Hst).
      split_and!; try done.
      intros w4 Hw4. unfold publish_outputs.
      change (ctx_num_outputs (as_context finished)) with n.
      destruct (emplace_outputs_spec finished (S base) n n w4 eq_refl
                  (Nat.le_refl _) ltac:(lia))
        as (Hlen & Hdone & Hrest & _).
      simpl. split.
      * apply list_lookup_insert_eq. lia.
      * intros i Hi. specialize (Hdone i Hi). simpl in Hdone.
        rewrite decide_True in Hdone by done.
        destruct (k_output e i) as [t|]; [|done].
        exists (S base + i). split.
        -- rewrite list_lookup_fmap, lookup_seq_lt by done. done.
        -- rewrite list_lookup_insert_ne by lia. done.
    + assert (Hk : params_op_kernel (ctx_params (as_context finished))
                   = params_op_kernel (params run_state)) by done.
      destruct (params_op_kernel (params run_state)) as [kernel|] eqn:Hkernel.
      * destruct (done_callback_failure finished kernel w2)
          as (Hq & _ & Hin & _); [by rewrite Hst|done|simpl; lia|..].
        { intros r Hr%elem_of_seq. simpl in *. lia. }
        split; [exact Hq|]. apply Forall_forall. intros r Hr.
        apply (Hin r Hr).
      * unfold done_callback. rewrite Hst, Hok, Hk. done.
Qed.

(** ** Which runner calls a dispatch makes *)

Lemma done_callback_kernel_calls (st : AsyncState) (w : World) :
  kernel_calls (done_callback st w) = kernel_calls w.
Proof.
  unfold done_callback.
  destruct (negb (ok (status (as_context st)))); [|done].
  destruct (params_op_kernel (ctx_params (as_context st))); [|done].
  set (d := EmitError _ _).
  destruct (SetError_all (as_result_refs st) d w)
    as (_ & _ & _ & _ & _ & Hcalls & _).
  exact Hcalls.
Qed.

Lemma SyncInternal_kernel_calls ty run_state kernel_runner op_chain
    (results : list Slot) (w : World) :
  kernel_calls
    (KernelFallbackExecuteCompatSyncInternal
       ty run_state kernel_runner op_chain results w).2
  = kernel_calls w ++ [RunCall (OpKernelContext_new run_state (length results))].
Proof.
  unfold KernelFallbackExecuteCompatSyncInternal.
  set (context := OpKernelContext_new run_state (length results)).
  destruct (negb (ok (status (ran context (Run kernel_runner context))))).
  { done. }
  destruct (foldl _ _ _) as [results1 w1] eqn:Hloop.
  change (ctx_num_outputs (ran context (Run kernel_runner context)))
    with (length results) in Hloop.
  destruct (make_outputs_available_spec _ _ _ _ _ _ _ (Nat.le_refl _) Hloop)
    as (_ & (_ & _ & _ & _ & _ & Hcalls) & _).
  by destruct op_chain.
Qed.

Lemma omap_id_Some {A} (l : list A) : omap id (Some <$> l) = l.
Proof. induction l as [|x l IH]; [done|]. simpl. f_equal. exact IH. Qed.

Lemma AsyncInternal_kernel_calls ty run_state kernel_runner op_chain
    (results : list Slot) (w : World) :
  kernel_calls
    (KernelFallbackExecuteCompatAsyncInternal
       ty run_state kernel_runner op_chain results w).2
  = kernel_calls w ++
      [RunAsyncCall
         (OpKernelContext_new
            (OpKernelRunState_of (input_tf_tensor_values run_state)
                                 (params run_state)).1
            (length results))].
Proof.
  rewrite AsyncInternal_eq, async_prepare_eq.
  set (copy := OpKernelRunState_of _ _). cbv zeta.
  destruct (RunAsync kernel_runner _); cbn [snd].
  - rewrite done_callback_kernel_calls. by destruct (copy.2).
  - by destruct (copy.2).
Qed.

(** ** The scratch state of a dispatch *)

Lemma foldl_point_values (ts : list Tensor) (vs : list TensorValue) p
    (idxs : list nat) :
  foldl (λ rs i,
           set_input_tf_tensor_values
             (<[i := input_tf_tensors rs !! i]> (input_tf_tensor_values rs)) rs)
        (mkRunState ts vs p) idxs
  = mkRunState ts (foldl (λ vs i, <[i := ts !! i]> vs) vs idxs) p.
Proof.
  revert vs. induction idxs as [|i idxs IH]; intros vs; simpl; [done|apply IH].
Qed.

Lemma foldl_insert_lookups {A} (ts : list A) (k : nat) (vs : list (option A)) :
  k ≤ length ts → length vs = length ts →
  ∀ j, foldl (λ vs i, <[i := ts !! i]> vs) vs (seq 0 k) !! j
       = if decide (j < k) then Some (ts !! j) else vs !! j.
Proof.
  intros Hk Hlen. induction k as [|k IH]; intros j.
  { destruct (decide (j < 0)); [lia|done]. }
  rewrite seq_S, foldl_app. simpl.
  specialize (IH ltac:(lia)).
  destruct (decide (j = k)) as [->|Hne].
  - rewrite decide_True by lia. apply list_lookup_insert_eq.
    assert (Hl : length (foldl (λ vs i, <[i := ts !! i]> vs) vs (seq 0 k))
                 = length vs).
    { clear. generalize (seq 0 k). intros idxs. revert vs.
      induction idxs as [|i idxs IH]; intros vs; simpl; [done|].
      by rewrite IH, length_insert. }
    lia.
  - rewrite list_lookup_insert_ne by done. rewrite IH.
    destruct (decide (j < k)), (decide (j < S k)); try done; lia.
Qed.

Lemma length_resize (n : nat) (vs : list TensorValue) : length (resize n vs) = n.
Proof. unfold resize. rewrite length_app, length_take, length_replicate. lia. Qed.

(** After the resize and the loop, the handles are exactly the inputs. *)
Lemma point_values_at_tensors_eq (ts : list Tensor) (rs : OpKernelRunState) :
  point_values_at_tensors
    (set_input_tf_tensor_values
       (resize (length ts) (input_tf_tensor_values rs))
       (set_input_tf_tensors ts rs))
  = mkRunState ts (Some <$> ts) (params rs).
Proof.
  change (set_input_tf_tensor_values _ _)
    with (mkRunState ts (resize (length ts) (input_tf_tensor_values rs))
                     (params rs)).
  unfold point_values_at_tensors. cbn [input_tf_tensors].
  rewrite foldl_point_values. f_equal.
  apply list_eq. intros j.
  rewrite foldl_insert_lookups by (by rewrite ?length_resize).
  rewrite list_lookup_fmap.
  destruct (decide (j < length ts)) as [Hj|Hj].
  - destruct (lookup_lt_is_Some_2 ts j Hj) as [t ->]. done.
  - rewrite (lookup_ge_None_2 ts) by lia.
    apply lookup_ge_None_2. rewrite length_resize. lia.
Qed.

(** ** The core-runtime dispatch, path by path *)

Lemma core_runtime_dispatch_guarded_eq
    op_name kernel_runner frs (ts : list Tensor) (op_chain : Slot)
    (results : list Slot) (rs : OpKernelRunState) (w : World) :
  core_runtime_dispatch_guarded op_name kernel_runner frs ts op_chain results rs w
  = let status :=
      ValidateInputTypes op_name ts (input_types (op_kernel kernel_runner)) in
    if negb (ok status) && negb (bool_decide (exempted op_name)) then
      let '(out, results, w) :=
        KernelFallbackEmitError op_name (Some op_chain) results status w in
      (local_chain op_chain out, results, set_input_tf_tensors ts rs, w)
    else
      let run_state := prepared_run_state ts kernel_runner frs in
      let '(out, results, w) :=
        if IsAsync kernel_runner then
          KernelFallbackExecuteCompatAsyncInternal
            KernelFallbackTensorT run_state kernel_runner (Some op_chain) results w
        else
          KernelFallbackExecuteCompatSyncInternal
            KernelFallbackTensorT run_state kernel_runner (Some op_chain) results w in
      (local_chain op_chain out, results, run_state, w).
Proof.
  unfold core_runtime_dispatch_guarded, exempted.
  cbn [input_tf_tensors set_input_tf_tensors]. cbv zeta.
  destruct (negb (ok _) && negb _); [done|].
  change (set_input_tf_tensors ts rs) with
    (mkRunState ts (input_tf_tensor_values rs) (params rs)).
  cbn [input_tf_tensors input_tf_tensor_values].
  change (mkRunState ts (input_tf_tensor_values rs) (params rs))
    with (set_input_tf_tensors ts rs).
  rewrite point_values_at_tensors_eq. done.
Qed.

(** The context the runner is handed for the converted inputs [ts]. *)
Lemma prepared_context_inputs ts kernel_runner frs (n : nat) :
  ctx_inputs (OpKernelContext_new (prepared_run_state ts kernel_runner frs) n)
    = Some <$> ts
  ∧ ctx_inputs
      (OpKernelContext_new
         (OpKernelRunState_of
            (input_tf_tensor_values (prepared_run_state ts kernel_runner frs))
            (params (prepared_run_state ts kernel_runner frs))).1 n)
    = Some <$> ts.
Proof. split; [done|]. simpl. by rewrite omap_id_Some. Qed.

(** Running the prepared runner invokes it exactly once, on [ts]. *)
Lemma run_prepared_invokes ts kernel_runner frs (op_chain : option Slot)
    (results : list Slot) (w0 w : World) :
  kernel_calls w = kernel_calls w0 →
  kernel_invoked kernel_runner ts w0
    (if IsAsync kernel_runner then
       KernelFallbackExecuteCompatAsyncInternal
         KernelFallbackTensorT (prepared_run_state ts kernel_runner frs)
         kernel_runner op_chain results w
     else
       KernelFallbackExecuteCompatSyncInternal
         KernelFallbackTensorT (prepared_run_state ts kernel_runner frs)
         kernel_runner op_chain results w).2.
Proof.
  intros Hcalls. unfold kernel_invoked.
  destruct (prepared_context_inputs ts kernel_runner frs (length results))
    as [Hsync Hasync].
  destruct (IsAsync kernel_runner).
  - eexists. rewrite AsyncInternal_kernel_calls, Hcalls.
    split_and!; [exact Hasync|done|done].
  - eexists. rewrite SyncInternal_kernel_calls, Hcalls.
    split_and!; [exact Hsync|done|done].
Qed.

(** An exit through error translation is a rejection. *)
Lemma emit_error_rejected op_name st (op_chain : Slot) (results : list Slot)
    (tls : OpKernelRunState) (w0 w : World) :
  kernel_calls w = kernel_calls w0 →
  rejected_with op_name st results w0
    (let '(out, results, w) :=
       KernelFallbackEmitError op_name (Some op_chain) results st w in
     (local_chain op_chain out, results, tls, w)).
Proof.
  intros Hcalls. rewrite KernelFallbackEmitError_eq.
  exists (length (heap w)). simpl. split_and!; try done.
  by rewrite lookup_app_r, Nat.sub_diag.
Qed.

Section Dispatch.
Variables (exec_ctx : ExecutionContext) (op_name device_name : string)
          (arguments : list TfrtTensor) (results : list Slot)
          (attrs : OpAttrsRef) (tls : OpKernelRunState) (w : World).

Local Abbreviation dispatched :=
  (KernelFallbackExecuteCompatCoreRuntimeDispatch
     exec_ctx op_name device_name arguments results attrs tls w).

Lemma dispatch_without_request_state :
  request_state exec_ctx = None →
  rejected_with op_name (errors.NotFound request_state_not_found) results w
                dispatched
  ∧ dispatched.1.2 = tls.
Proof.
  intros Hstate. unfold KernelFallbackExecuteCompatCoreRuntimeDispatch.
  cbn [GetReadyChain alloc]. rewrite Hstate. cbv zeta.
  split; [|done]. by apply emit_error_rejected.
Qed.

Lemma dispatch_without_runner frs st :
  request_state exec_ctx = Some frs →
  GetOrCreate (location exec_ctx) op_name device_name (length arguments)
              attrs frs = Failure st →
  rejected_with op_name st results w dispatched ∧ dispatched.1.2 = tls.
Proof.
  intros Hstate Hrunner.
  unfold KernelFallbackExecuteCompatCoreRuntimeDispatch.
  cbn [GetReadyChain alloc]. rewrite Hstate, Hrunner.
  split; [|done]. by apply emit_error_rejected.
Qed.

Lemma dispatch_conversion_failure frs kernel_runner e :
  request_state exec_ctx = Some frs →
  GetOrCreate (location exec_ctx) op_name device_name (length arguments)
              attrs frs = Value kernel_runner →
  ConvertInputTensors arguments = Failure e →
  rejected_with op_name (errors.Internal (StrCat [e])) results w dispatched
  ∧ dispatched.1.2 = tls.
Proof.
  intros Hstate Hrunner Hconv.
  unfold KernelFallbackExecuteCompatCoreRuntimeDispatch.
  cbn [GetReadyChain alloc]. rewrite Hstate, Hrunner, Hconv. cbv zeta.
  split; [|done]. by apply emit_error_rejected.
Qed.

Lemma dispatch_validation_failure frs kernel_runner ts :
  request_state exec_ctx = Some frs →
  GetOrCreate (location exec_ctx) op_name device_name (length arguments)
              attrs frs = Value kernel_runner →
  ConvertInputTensors arguments = Value ts →
  ok (ValidateInputTypes op_name ts (input_types (op_kernel kernel_runner)))
    = false →
  ¬ exempted op_name →
  rejected_with op_name
    (ValidateInputTypes op_name ts (input_types (op_kernel kernel_runner)))
    results w dispatched
  ∧ dispatched.1.2 = mkRunState [] (input_tf_tensor_values tls) (params tls).
Proof.
  intros Hstate Hrunner Hconv Hok Hname.
  unfold KernelFallbackExecuteCompatCoreRuntimeDispatch.
  cbn [GetReadyChain alloc]. rewrite Hstate, Hrunner, Hconv.
  rewrite core_runtime_dispatch_guarded_eq. cbv zeta.
  rewrite Hok, bool_decide_eq_false_2 by done. cbn [negb andb].
  pose proof (emit_error_rejected op_name
                (ValidateInputTypes op_name ts
                   (input_types (op_kernel kernel_runner)))
                (Some (length (heap w))) results
                (set_input_tf_tensors ts tls) w
                (set_heap (heap w ++ [Available PChain]) w) eq_refl) as Hrej.
  destruct (KernelFallbackEmitError _ _ _ _ _) as [[out results'] w'].
  destruct Hrej as (error & ? & ? & ? & ?).
  split; [|done]. by exists error.
Qed.

Lemma dispatch_proceeds frs kernel_runner ts :
  request_state exec_ctx = Some frs →
  GetOrCreate (location exec_ctx) op_name device_name (length arguments)
              attrs frs = Value kernel_runner →
  ConvertInputTensors arguments = Value ts →
  ok (ValidateInputTypes op_name ts (input_types (op_kernel kernel_runner)))
    = true ∨ exempted op_name →
  kernel_invoked kernel_runner ts w dispatched.2
  ∧ dispatched.1.2 =
      clean_up_inputs (prepared_run_state ts kernel_runner frs).
Proof.
  intros Hstate Hrunner Hconv Hgo.
  unfold KernelFallbackExecuteCompatCoreRuntimeDispatch.
  cbn [GetReadyChain alloc]. rewrite Hstate, Hrunner, Hconv.
  rewrite core_runtime_dispatch_guarded_eq. cbv zeta.
  assert (negb (ok (ValidateInputTypes op_name ts
                      (input_types (op_kernel kernel_runner))))
          && negb (bool_decide (exempted op_name)) = false) as ->.
  { destruct Hgo as [->|Hex]; [done|].
    rewrite (bool_decide_eq_true_2 _ Hex). apply andb_false_r. }
  pose proof (run_prepared_invokes ts kernel_runner frs
                (Some (Some (length (heap w)))) results w
                (set_heap (heap w ++ [Available PChain]) w) eq_refl) as Hinv.
  destruct (if IsAsync kernel_runner then _ else _) as [[out results'] w'].
  done.
Qed.

End Dispatch.

(** ** Input conversion *)

Lemma ConvertInputTensors_from_Value acc (arguments : list TfrtTensor) ts :
  ConvertInputTensors_from acc arguments = Value ts →
  ∃ ts', ts = acc ++ ts'
         ∧ Forall2 (λ a t, TFRTTensorToTFTensor a = Value t) arguments ts'.
Proof.
  revert acc. induction arguments as [|a arguments IH]; intros acc Hconv.
  - simpl in Hconv. simplify_eq. exists []. by rewrite app_nil_r.
  - simpl in Hconv. destruct (TFRTTensorToTFTensor a) as [t|e] eqn:Ha; [|done].
    destruct (IH _ Hconv) as (ts' & -> & Hall).
    exists (t :: ts'). split; [by rewrite <- app_assoc|by constructor].
Qed.

Lemma ConvertInputTensors_Value (arguments : list TfrtTensor) ts :
  ConvertInputTensors arguments = Value ts →
  Forall2 (λ a t, TFRTTensorToTFTensor a = Value t) arguments ts.
Proof.
  intros (ts' & -> & Hall)%ConvertInputTensors_from_Value. done.
Qed.

Lemma ConvertInputTensors_from_Failure acc (arguments : list TfrtTensor) a e :
  a ∈ arguments → TFRTTensorToTFTensor a = Failure e →
  ∃ e', ConvertInputTensors_from acc arguments = Failure e'.
Proof.
  intros Hin Ha. revert acc.
  induction arguments as [|a0 arguments IH]; intros acc.
  { by apply elem_of_nil in Hin. }
  simpl. destruct (TFRTTensorToTFTensor a0) as [t|e0] eqn:Ha0; [|by eexists].
  apply elem_of_cons in Hin as [->|Hin]; [congruence|]. by apply IH.
Qed.

Lemma ConvertInputTensors_from_first_failure acc (arguments : list TfrtTensor) e :
  ConvertInputTensors_from acc arguments = Failure e →
  ∃ (i : nat) a e0,
    arguments !! i = Some a ∧ TFRTTensorToTFTensor a = Failure e0
    ∧ e = StrCat [e0] ∧ converts_before arguments i.
Proof.
  revert acc. induction arguments as [|a arguments IH]; intros acc Hconv.
  { done. }
  simpl in Hconv. destruct (TFRTTensorToTFTensor a) as [t|e0] eqn:Ha.
  - destruct (IH _ Hconv) as (i & a' & e1 & Hi & Ha' & He & Hbefore).
    exists (S i), a', e1. split_and!; try done.
    intros [|j] b Hj Hb; simplify_eq/=; [by exists t|].
    apply (Hbefore j b); [lia|done].
  - simplify_eq. exists 0, a, e0. split_and!; try done.
    intros j b Hj. lia.
Qed.

Lemma ConvertInputTensors_from_Forall2 acc (arguments : list TfrtTensor) ts :
  Forall2 (λ a t, TFRTTensorToTFTensor a = Value t) arguments ts →
  ConvertInputTensors_from acc arguments = Value (acc ++ ts).
Proof.
  intros Hall. revert acc.
  induction Hall as [|a t arguments ts Ha _ IH]; intros acc; simpl.
  - by rewrite app_nil_r.
  - rewrite Ha, IH. by rewrite <- app_assoc.
Qed.

(** ** Claims on the core-runtime dispatch *)

Lemma ValidateInputTypes_same_length op_name (ts : list Tensor) declared :
  length ts = length declared →
  ValidateInputTypes op_name ts declared
  = ValidateInputTypes_from op_name 0 ts declared.
Proof. intros Hlen. unfold ValidateInputTypes. by rewrite decide_False by lia. Qed.

Lemma ValidateInputTypes_from_code op_name i0 (ts : list Tensor) declared :
  code (ValidateInputTypes_from op_name i0 ts declared) = OK
  ∨ code (ValidateInputTypes_from op_name i0 ts declared) = INVALID_ARGUMENT.
Proof.
  revert i0 declared.
  induction ts as [|t ts IH]; intros i0 [|ty declared]; simpl; try by left.
  destruct (decide (dtype t ≠ ty)); [by right|apply IH].
Qed.

(** Validation reports nothing but invalid-argument errors. *)
Lemma ValidateInputTypes_code op_name (ts : list Tensor) declared :
  code (ValidateInputTypes op_name ts declared) = OK
  ∨ code (ValidateInputTypes op_name ts declared) = INVALID_ARGUMENT.
Proof.
  unfold ValidateInputTypes.
  destruct (decide _); [by right|apply ValidateInputTypes_from_code].
Qed.

Lemma dtype_mismatch_message_contains op_name (i : nat) expected actual :
  let msg := dtype_mismatch_message op_name i expected actual in
  contains msg op_name ∧ contains msg (pretty i)
  ∧ contains msg (DataTypeString expected)
  ∧ contains msg (DataTypeString actual).
Proof. split_and!; apply contains_StrCat; set_solver. Qed.

(** C2 (as amended): [ValidateInputTypes] reports an invalid-argument error
    when the argument count differs from the kernel's declared input-type
    count, and, for equal counts, when an argument's data type differs from
    the declared one; the latter error names the op, the zero-based index of
    the first such argument, the expected and the actual type.  The dispatch
    rejects the invocation on such an error unless the op is named
    "_BatchFunctionFallback"; for that one name the runner is invoked
    whatever the validation reported. *)
Theorem validation_rejects_unless_exempted
    (exec_ctx : ExecutionContext) (op_name device_name : string)
    (arguments : list TfrtTensor) (results : list Slot) (attrs : OpAttrsRef)
    (tls : OpKernelRunState) (w : World)
    (frs : KernelFallbackCompatRequestState) (kernel_runner : OpKernelRunner)
    (ts : list Tensor) :
  request_state exec_ctx = Some frs →
  GetOrCreate (location exec_ctx) op_name device_name (length arguments)
              attrs frs = Value kernel_runner →
  ConvertInputTensors arguments = Value ts →
  let declared := input_types (op_kernel kernel_runner) in
  let st := ValidateInputTypes op_name ts declared in
  let out :=
    KernelFallbackExecuteCompatCoreRuntimeDispatch
      exec_ctx op_name device_name arguments results attrs tls w in
  (length ts ≠ length declared →
     st = errors.InvalidArgument
            (StrCat ["expected "; pretty (length declared); " inputs, got ";
                     pretty (length ts)]))
  ∧ (length ts = length declared →
     ∀ (i : nat) t ty,
       ts !! i = Some t → declared !! i = Some ty → dtype t ≠ ty →
       ∃ (j : nat) t' ty',
         j ≤ i ∧ first_dtype_mismatch ts declared j t' ty'
         ∧ st = errors.InvalidArgument
                  (dtype_mismatch_message op_name j ty' (dtype t'))
         ∧ contains (error_message st) op_name
         ∧ contains (error_message st) (pretty j)
         ∧ contains (error_message st) (DataTypeString ty')
         ∧ contains (error_message st) (DataTypeString (dtype t')))
  ∧ (ok st = true ↔ Forall2 (λ t ty, dtype t = ty) ts declared)
  ∧ (ok st = false → ¬ exempted op_name →
     code st = INVALID_ARGUMENT ∧ rejected_with op_name st results w out)
  ∧ (ok st = true ∨ exempted op_name →
     kernel_invoked kernel_runner ts w out.2).
Proof.
  intros Hstate Hrunner Hconv declared st out. split_and!.
  - apply ValidateInputTypes_count_mismatch.
  - intros Hlen i t ty Ht Hty Hne.
    destruct (first_dtype_mismatch_exists ts declared i t ty Ht Hty Hne)
      as (j & t' & ty' & Hj & Hfirst).
    exists j, t', ty'.
    assert (Hst : st = errors.InvalidArgument
                         (dtype_mismatch_message op_name j ty' (dtype t'))).
    { unfold st. rewrite ValidateInputTypes_same_length by done.
      by rewrite (ValidateInputTypes_from_mismatch _ _ _ _ _ _ _ Hfirst). }
    rewrite Hst.
    destruct (dtype_mismatch_message_contains op_name j ty' (dtype t'))
      as (? & ? & ? & ?).
    split_and!; done.
  - apply ValidateInputTypes_ok_iff.
  - intros Hok Hname. split.
    + destruct (ValidateInputTypes_code op_name ts declared) as [Hc|Hc];
        [|done].
      unfold ok in Hok. fold st in Hc. by rewrite Hc in Hok.
    + by apply (dispatch_validation_failure exec_ctx op_name device_name
                  arguments results attrs tls w frs kernel_runner ts).
  - intros Hgo.
    by apply (dispatch_proceeds exec_ctx op_name device_name arguments results
                attrs tls w frs kernel_runner ts).
Qed.

(** C9: on the core-runtime path every argument is converted to a legacy
    tensor before dispatch: when each argument converts, the conversion
    yields exactly the converted tensors, in order, and these are what the
    runner receives.  If the conversion of any argument fails, the conversion
    fails with the error of the first such argument, and the invocation ends
    in error translation of an internal error that carries it; the scratch
    run state is untouched and the runner is never invoked. *)
Theorem conversion_failure_short_circuits
    (exec_ctx : ExecutionContext) (op_name device_name : string)
    (arguments : list TfrtTensor) (results : list Slot) (attrs : OpAttrsRef)
    (tls : OpKernelRunState) (w : World)
    (frs : KernelFallbackCompatRequestState) (kernel_runner : OpKernelRunner) :
  request_state exec_ctx = Some frs →
  GetOrCreate (location exec_ctx) op_name device_name (length arguments)
              attrs frs = Value kernel_runner →
  let out :=
    KernelFallbackExecuteCompatCoreRuntimeDispatch
      exec_ctx op_name device_name arguments results attrs tls w in
  (∀ ts, Forall2 (λ a t, TFRTTensorToTFTensor a = Value t) arguments ts →
     ConvertInputTensors arguments = Value ts
     ∧ (ok (ValidateInputTypes op_name ts
              (input_types (op_kernel kernel_runner))) = true
        ∨ exempted op_name →
        kernel_invoked kernel_runner ts w out.2))
  ∧ (∀ ts, ConvertInputTensors arguments = Value ts →
       Forall2 (λ a t, TFRTTensorToTFTensor a = Value t) arguments ts
       ∧ (ok (ValidateInputTypes op_name ts
                (input_types (op_kernel kernel_runner))) = true
          ∨ exempted op_name →
          kernel_invoked kernel_runner ts w out.2))
  ∧ (∀ a e, a ∈ arguments → TFRTTensorToTFTensor a = Failure e →
     ∃ (i : nat) a0 e0,
       arguments !! i = Some a0
       ∧ TFRTTensorToTFTensor a0 = Failure e0
       ∧ converts_before arguments i
       ∧ ConvertInputTensors arguments = Failure (StrCat [e0])
       ∧ code (errors.Internal (StrCat [StrCat [e0]])) = INTERNAL
       ∧ rejected_with op_name (errors.Internal (StrCat [StrCat [e0]]))
                       results w out
       ∧ kernel_calls out.2 = kernel_calls w
       ∧ out.1.2 = tls).
Proof.
  intros Hstate Hrunner out.
  assert (Hgo : ∀ ts, ConvertInputTensors arguments = Value ts →
            ok (ValidateInputTypes op_name ts
                  (input_types (op_kernel kernel_runner))) = true
            ∨ exempted op_name →
            kernel_invoked kernel_runner ts w out.2).
  { intros ts Hconv Hok.
    by apply (dispatch_proceeds exec_ctx op_name device_name arguments results
                attrs tls w frs kernel_runner ts). }
  split_and!.
  - intros ts Hall.
    pose proof (ConvertInputTensors_from_Forall2 [] arguments ts Hall) as Hconv.
    split; [exact Hconv|]. by apply Hgo.
  - intros ts Hconv. split; [by apply ConvertInputTensors_Value|].
    by apply Hgo.
  - intros a e Hin Ha.
    destruct (ConvertInputTensors_from_Failure [] arguments a e Hin Ha)
      as [e' Hconv].
    destruct (ConvertInputTensors_from_first_failure [] arguments e' Hconv)
      as (i & a0 & e0 & Hi & Ha0 & -> & Hbefore).
    destruct (dispatch_conversion_failure exec_ctx op_name device_name
                arguments results attrs tls w frs kernel_runner (StrCat [e0])
                Hstate Hrunner Hconv) as [Hrej Htls].
    exists i, a0, e0. split_and!; try done.
    by destruct Hrej as (error & _ & _ & _ & Hcalls).
Qed.

(** C10: for the op named "_BatchFunctionFallback" the core-runtime
    dispatch invokes the runner whenever validation fails, also on an
    argument-count mismatch, which validation does report as an error. *)
Theorem BatchFunctionFallback_skips_validation
    (exec_ctx : ExecutionContext) (device_name : string)
    (arguments : list TfrtTensor) (results : list Slot) (attrs : OpAttrsRef)
    (tls : OpKernelRunState) (w : World)
    (frs : KernelFallbackCompatRequestState) (kernel_runner : OpKernelRunner)
    (ts : list Tensor) :
  request_state exec_ctx = Some frs →
  GetOrCreate (location exec_ctx) "_BatchFunctionFallback" device_name
              (length arguments) attrs frs = Value kernel_runner →
  ConvertInputTensors arguments = Value ts →
  let declared := input_types (op_kernel kernel_runner) in
  let out :=
    KernelFallbackExecuteCompatCoreRuntimeDispatch
      exec_ctx "_BatchFunctionFallback" device_name arguments results attrs
      tls w in
  (length ts ≠ length declared →
     ok (ValidateInputTypes "_BatchFunctionFallback" ts declared) = false)
  ∧ kernel_invoked kernel_runner ts w out.2
  ∧ ¬ rejected_with "_BatchFunctionFallback"
        (ValidateInputTypes "_BatchFunctionFallback" ts declared) results w out.
Proof.
  intros Hstate Hrunner Hconv declared out.
  assert (Hinv : kernel_invoked kernel_runner ts w out.2).
  { apply (dispatch_proceeds exec_ctx "_BatchFunctionFallback" device_name
             arguments results attrs tls w frs kernel_runner ts); try done.
    by right. }
  split_and!.
  - intros Hlen. unfold declared.
    by rewrite ValidateInputTypes_count_mismatch.
  - done.
  - intros (error & _ & _ & _ & Hcalls).
    destruct Hinv as (ctx & _ & _ & Hcalls').
    rewrite Hcalls in Hcalls'.
    apply (f_equal length) in Hcalls'. rewrite length_app in Hcalls'.
    simpl in Hcalls'. lia.
Qed.

(** ** Missing request state *)

(** C8: when the request context holds no
    [KernelFallbackCompatRequestState], each dispatch entry point invokes no
    runner and leaves the scratch run state alone: a not-found status goes
    through [KernelFallbackEmitError], so that every declared output, and
    the completion token where there is one, refer to the one error future
    that carries its translation. *)
Theorem missing_request_state_is_not_found (exec_ctx : ExecutionContext) :
  request_state exec_ctx = None →
  let st := errors.NotFound request_state_not_found in
  code st = NOT_FOUND
  ∧ (∀ op_name device_name arguments (results : list Slot) attrs tls w,
       let out :=
         KernelFallbackExecuteCompatCoreRuntimeDispatch
           exec_ctx op_name device_name arguments results attrs tls w in
       rejected_with op_name st results w out
       ∧ kernel_calls out.2 = kernel_calls w
       ∧ out.1.2 = tls)
  ∧ (∀ args (results : list Slot) (op_chain : option Slot) frame tls w,
       let '(op_chain', results', tls', w') :=
         KernelFallbackExecuteOp args results op_chain frame exec_ctx tls w in
       ∃ error : AVRef,
         results' = (λ _, Some error) <$> results
         ∧ op_chain' = (λ _, Some error) <$> op_chain
         ∧ heap w' !! error =
             Some (Error (translated_error (frame_op_name frame) st))
         ∧ kernel_calls w' = kernel_calls w
         ∧ tls' = tls)
  ∧ (∀ frame tls w,
       GetExecutionContext frame = exec_ctx →
       let '(results', tls', w') := FallbackAsyncExecuteOp frame tls w in
       ∃ error : AVRef,
         results' = (λ _, Some error) <$> GetResults frame
         ∧ heap w' !! error =
             Some (Error (translated_error
                            (frame_op_name (GetAttributes frame)) st))
         ∧ kernel_calls w' = kernel_calls w)
  ∧ (∀ frame tls w,
       GetExecutionContext frame = exec_ctx →
       GetArguments frame ≠ [] → GetResults frame ≠ [] →
       let '(results', tls', w') := FallbackAsyncExecuteOpSeq frame tls w in
       ∃ error : AVRef,
         results' = (λ _, Some error) <$> GetResults frame
         ∧ heap w' !! error =
             Some (Error (translated_error
                            (frame_op_name (GetAttributes frame)) st))
         ∧ kernel_calls w' = kernel_calls w).
Proof.
  intros Hstate st. split_and!.
  - done.
  - intros op_name device_name arguments results attrs tls w out.
    destruct (dispatch_without_request_state exec_ctx op_name device_name
                arguments results attrs tls w Hstate) as [Hrej Htls].
    split_and!; try done. by destruct Hrej as (error & _ & _ & _ & Hcalls).
  - intros args results op_chain frame tls w.
    unfold KernelFallbackExecuteOp. rewrite Hstate.
    rewrite KernelFallbackEmitError_eq.
    exists (length (heap w)). split_and!; try done.
    simpl. by rewrite lookup_app_r, Nat.sub_diag.
  - intros frame tls w Hctx.
    unfold FallbackAsyncExecuteOp, KernelFallbackExecuteOp.
    rewrite Hctx, Hstate, KernelFallbackEmitError_eq.
    exists (length (heap w)). split_and!; try done.
    simpl. by rewrite lookup_app_r, Nat.sub_diag.
  - intros frame tls w Hctx Hargs Hresults.
    unfold FallbackAsyncExecuteOpSeq, KernelFallbackExecuteOp.
    destruct (GetArguments frame) as [|in_chain args]; [done|].
    destruct (GetResults frame) as [|out_op_chain results]; [done|].
    rewrite Hctx, Hstate, KernelFallbackEmitError_eq.
    exists (length (heap w)). split_and!; try done.
    simpl. by rewrite lookup_app_r, Nat.sub_diag.
Qed.

(** ** The runner table *)

Lemma set_runner_table_same (w : World) : set_runner_table (runner_table w) w = w.
Proof. by destruct w. Qed.

Lemma Insert_present key r first (t : gmap Z OpKernelRunner) :
  t !! key = Some first → Insert key r t = (false, t).
Proof. intros Hkey. unfold Insert. by rewrite Hkey. Qed.

Lemma Insert_absent key r (t : gmap Z OpKernelRunner) :
  t !! key = None → Insert key r t = (true, <[key := r]> t).
Proof. intros Hkey. unfold Insert. by rewrite Hkey. Qed.

Lemma already_exists_message (op_name_attr : string) :
  let msg :=
    StrCat ["KernelFallbackCreateOp: OpKernelRunner already exists: ";
            op_name_attr] in
  contains msg "already exists" ∧ contains msg op_name_attr.
Proof.
  split.
  - by exists "KernelFallbackCreateOp: OpKernelRunner ",
              (": " +:+ op_name_attr +:+ "").
  - apply contains_StrCat. set_solver.
Qed.

Lemma KernelFallbackCreateOp_present
    device_attr num_args op_attr_array op_func_attr_array op_key op_name_attr
    exec_ctx (w : World) frs new_runner first :
  request_state exec_ctx = Some frs →
  OpKernelRunner_Create (StripTfPrefix op_name_attr) device_attr num_args
                        op_attr_array op_func_attr_array frs
    = Value new_runner →
  runner_table w !! op_key = Some first →
  KernelFallbackCreateOp device_attr num_args op_attr_array op_func_attr_array
                         op_key op_name_attr exec_ctx w
  = (Failure
       (StringError
          (StrCat ["KernelFallbackCreateOp: OpKernelRunner already exists: ";
                   op_name_attr])), w).
Proof.
  intros Hstate Hcreate Hkey. unfold KernelFallbackCreateOp.
  rewrite Hstate, Hcreate, (Insert_present _ _ first) by done.
  by rewrite set_runner_table_same.
Qed.

Lemma KernelFallbackCreateOp_absent
    device_attr num_args op_attr_array op_func_attr_array op_key op_name_attr
    exec_ctx (w : World) frs new_runner :
  request_state exec_ctx = Some frs →
  OpKernelRunner_Create (StripTfPrefix op_name_attr) device_attr num_args
                        op_attr_array op_func_attr_array frs
    = Value new_runner →
  runner_table w !! op_key = None →
  KernelFallbackCreateOp device_attr num_args op_attr_array op_func_attr_array
                         op_key op_name_attr exec_ctx w
  = (Value (), set_runner_table (<[op_key := new_runner]> (runner_table w)) w).
Proof.
  intros Hstate Hcreate Hkey. unfold KernelFallbackCreateOp.
  by rewrite Hstate, Hcreate, Insert_absent.
Qed.

(** C5: [Insert] fails on a key that is present and overwrites nothing;
    [KernelFallbackCreateOp] then returns an "already exists" error and the
    first runner stays in place; after a successful insert, [Get] for that
    key returns the inserted runner, also after a later attempt to create an
    op under the same key. *)
Theorem KernelFallbackCreateOp_duplicate_key
    (device_attr : string) (num_args : Z)
    (op_attr_array op_func_attr_array : AggregateAttr)
    (op_key : Z) (op_name_attr : string) (exec_ctx : ExecutionContext)
    (w : World) (frs : KernelFallbackCompatRequestState)
    (new_runner : OpKernelRunner) :
  request_state exec_ctx = Some frs →
  OpKernelRunner_Create (StripTfPrefix op_name_attr) device_attr num_args
                        op_attr_array op_func_attr_array frs
    = Value new_runner →
  let '(outcome, w1) :=
    KernelFallbackCreateOp device_attr num_args op_attr_array
                           op_func_attr_array op_key op_name_attr exec_ctx w in
  match Get op_key (runner_table w) with
  | Some first =>
      Insert op_key new_runner (runner_table w) = (false, runner_table w)
      ∧ (∃ msg, outcome = Failure (StringError msg)
                ∧ contains msg "already exists"
                ∧ contains msg op_name_attr)
      ∧ w1 = w
      ∧ Get op_key (runner_table w1) = Some first
  | None =>
      (∃ t, Insert op_key new_runner (runner_table w) = (true, t)
            ∧ Get op_key t = Some new_runner)
      ∧ outcome = Value ()
      ∧ Get op_key (runner_table w1) = Some new_runner
      ∧ (∀ key, key ≠ op_key →
           Get key (runner_table w1) = Get key (runner_table w))
      ∧ ∀ device_attr' num_args' op_attr_array' op_func_attr_array'
          op_name_attr' other,
          OpKernelRunner_Create (StripTfPrefix op_name_attr') device_attr'
                                num_args' op_attr_array' op_func_attr_array'
                                frs = Value other →
          let '(outcome2, w2) :=
            KernelFallbackCreateOp device_attr' num_args' op_attr_array'
                                   op_func_attr_array' op_key op_name_attr'
                                   exec_ctx w1 in
          (∃ msg, outcome2 = Failure (StringError msg)
                  ∧ contains msg "already exists")
          ∧ w2 = w1
          ∧ Get op_key (runner_table w2) = Some new_runner
  end.
Proof.
  intros Hstate Hcreate. unfold Get.
  destruct (runner_table w !! op_key) as [first|] eqn:Hkey.
  - rewrite (KernelFallbackCreateOp_present _ _ _ _ _ _ _ _ frs new_runner first)
      by done.
    destruct (already_exists_message op_name_attr) as [Hexists Hname].
    split_and!; try done.
    + by apply (Insert_present _ _ first).
    + by eexists.
  - rewrite (KernelFallbackCreateOp_absent _ _ _ _ _ _ _ _ frs new_runner)
      by done.
    set (w1 := set_runner_table _ w).
    assert (Hnew : runner_table w1 !! op_key = Some new_runner).
    { apply lookup_insert_eq. }
    split_and!; try done.
    + exists (<[op_key := new_runner]> (runner_table w)).
      split; [by apply Insert_absent|apply lookup_insert_eq].
    + intros key Hne. by apply lookup_insert_ne.
    + intros device_attr' num_args' op_attr_array' op_func_attr_array'
             op_name_attr' other Hcreate'.
      rewrite (KernelFallbackCreateOp_present _ _ _ _ _ _ _ _ frs other
                 new_runner) by done.
      destruct (already_exists_message op_name_attr') as [Hexists _].
      split_and!; try done. by eexists.
Qed.

(** ** The resource array *)

Lemma FallbackSetResource_eq arg device_attr index exec_ctx frs (w : World) :
  request_state exec_ctx = Some frs →
  FallbackSetResource arg device_attr index exec_ctx w =
    (Value (),
     set_resource_array
       (<[index := length (heap w)]> (resource_array w))
       (set_heap
          (heap w ++
             [Available (PFallbackTensor (mkFallbackTensor true (tensor arg)))])
          w)).
Proof. intros Hstate. unfold FallbackSetResource. by rewrite Hstate. Qed.

Lemma FallbackGetResource_one in_ch out_ch slot device_attr index exec_ctx frs
    (w : World) (r : AVRef) :
  request_state exec_ctx = Some frs →
  resource_array w !! index = Some r →
  FallbackGetResource in_ch out_ch [slot] device_attr [index] exec_ctx w
  = (in_ch, [Some r], w).
Proof.
  intros Hstate Hr. unfold FallbackGetResource. rewrite Hstate.
  simpl. unfold GetResource. by rewrite Hr.
Qed.

(** C6: after [FallbackSetResource] at an index, [FallbackGetResource] for
    that index yields a future that holds the tensor that was set, wrapped
    as immutable, and changes nothing, so that repeated gets yield the same
    future; a second set at the index replaces the value, and other indices
    are not affected. *)
Theorem resource_set_get_roundtrip
    (exec_ctx : ExecutionContext) (frs : KernelFallbackCompatRequestState)
    (arg : FallbackTensor) (device_attr : string) (index : Z) (w : World) :
  request_state exec_ctx = Some frs →
  let '(outcome, w1) :=
    FallbackSetResource arg device_attr index exec_ctx w in
  outcome = Value ()
  ∧ (∀ j, j ≠ index → GetResource j w1 = GetResource j w)
  ∧ (∀ (in_ch out_ch slot : Slot) device_attr',
       let '(out_ch', results', w2) :=
         FallbackGetResource in_ch out_ch [slot] device_attr' [index]
                             exec_ctx w1 in
       w2 = w1 ∧ out_ch' = in_ch
       ∧ ∃ r : AVRef,
           results' = [Some r]
           ∧ heap w2 !! r =
               Some (Available
                       (PFallbackTensor (mkFallbackTensor true (tensor arg))))
           ∧ FallbackGetResource in_ch out_ch [slot] device_attr' [index]
                                 exec_ctx w2
             = (in_ch, [Some r], w2))
  ∧ (∀ (arg2 : FallbackTensor) device_attr2 (in_ch out_ch slot : Slot)
       device_attr',
       let '(_, w2) :=
         FallbackSetResource arg2 device_attr2 index exec_ctx w1 in
       let '(_, results', w3) :=
         FallbackGetResource in_ch out_ch [slot] device_attr' [index]
                             exec_ctx w2 in
       ∃ r : AVRef,
         results' = [Some r]
         ∧ heap w3 !! r =
             Some (Available
                     (PFallbackTensor (mkFallbackTensor true (tensor arg2))))).
Proof.
  intros Hstate. rewrite (FallbackSetResource_eq _ _ _ _ frs) by done.
  set (w1 := set_resource_array _ _).
  assert (Hidx : resource_array w1 !! index = Some (length (heap w))).
  { apply lookup_insert_eq. }
  assert (Hcell : heap w1 !! length (heap w) =
            Some (Available
                    (PFallbackTensor (mkFallbackTensor true (tensor arg))))).
  { simpl. by rewrite lookup_app_r, Nat.sub_diag. }
  split_and!.
  - done.
  - intros j Hne. unfold GetResource. by apply lookup_insert_ne.
  - intros in_ch out_ch slot device_attr'.
    rewrite (FallbackGetResource_one _ _ _ _ _ _ frs _ (length (heap w)))
      by done.
    split_and!; try done. exists (length (heap w)).
    split_and!; try done. by apply (FallbackGetResource_one _ _ _ _ _ _ frs).
  - intros arg2 device_attr2 in_ch out_ch slot device_attr'.
    rewrite (FallbackSetResource_eq _ _ _ _ frs) by done.
    set (w2 := set_resource_array _ _).
    rewrite (FallbackGetResource_one _ _ _ _ _ _ frs _ (length (heap w1))).
    + exists (length (heap w1)). split; [done|].
      simpl. by rewrite lookup_app_r, Nat.sub_diag.
    + done.
    + apply lookup_insert_eq.
Qed.

(** ** The scratch run state across invocations *)

(** The two internal execute functions read the handles and the parameters
    of the run state, never the owned copies. *)
Lemma internal_execute_ignores_copies ty (rsA rsB : OpKernelRunState)
    kernel_runner op_chain (results : list Slot) (w : World) :
  input_tf_tensor_values rsA = input_tf_tensor_values rsB →
  params rsA = params rsB →
  KernelFallbackExecuteCompatSyncInternal ty rsA kernel_runner op_chain results w
  = KernelFallbackExecuteCompatSyncInternal ty rsB kernel_runner op_chain results w
  ∧ KernelFallbackExecuteCompatAsyncInternal ty rsA kernel_runner op_chain results w
  = KernelFallbackExecuteCompatAsyncInternal ty rsB kernel_runner op_chain results w.
Proof.
  destruct rsA as [copiesA valuesA paramsA], rsB as [copiesB valuesB paramsB].
  simpl. intros -> ->. done.
Qed.

Lemma prepare_input_tensors_spec (w : World) (args : list FrameArg) (i : nat)
    (rs : OpKernelRunState) :
  i + length args ≤ length (input_tf_tensor_values rs) →
  match argument_tensors w args with
  | None => prepare_input_tensors i args rs w = None
  | Some ts => ∃ rs1,
      prepare_input_tensors i args rs w = Some rs1
      ∧ params rs1 = params rs
      ∧ input_tf_tensor_values rs1 =
          take i (input_tf_tensor_values rs) ++ (Some <$> ts)
          ++ drop (i + length args) (input_tf_tensor_values rs)
  end.
Proof.
  revert i rs. induction args as [|arg args IH]; intros i rs Hlen.
  { simpl. exists rs. split_and!; try done.
    by rewrite Nat.add_0_r, take_drop. }
  simpl in Hlen |- *.
  destruct (heap w !! arg_value arg) as [[|[| |fallback_tensor]|]|]; try done.
  set (rs' := set_input_tf_tensor_values _ _).
  assert (Hvalues : input_tf_tensor_values rs' =
            <[i := Some (tensor fallback_tensor)]> (input_tf_tensor_values rs)).
  { unfold rs'. by destruct (negb _ && negb _). }
  assert (Hparams : params rs' = params rs).
  { unfold rs'. by destruct (negb _ && negb _). }
  specialize (IH (S i) rs').
  rewrite Hvalues, length_insert in IH. specialize (IH ltac:(lia)).
  destruct (argument_tensors w args) as [ts|]; [|done].
  destruct IH as (rs1 & Hprep & Hp & Hv).
  exists rs1. split_and!; [done|congruence|].
  rewrite Hv.
  rewrite (take_S_r _ _ (Some (tensor fallback_tensor)))
    by (apply list_lookup_insert_eq; lia).
  rewrite take_insert_ge by lia. rewrite drop_insert_lt by lia.
  rewrite <- app_assoc. simpl. by rewrite Nat.add_succ_r.
Qed.

(** What [execute_op_guarded] shows to the outside does not depend on the
    scratch run state it starts from. *)
Lemma execute_op_guarded_observable
    args (results : list Slot) (op_chain : option Slot) kernel_runner frs
    (rsA rsB : OpKernelRunState) (w : World) :
  let outA := execute_op_guarded args results op_chain kernel_runner frs rsA w in
  let outB := execute_op_guarded args results op_chain kernel_runner frs rsB w in
  (outA.1.1, outA.2) = (outB.1.1, outB.2).
Proof.
  unfold execute_op_guarded.
  pose proof (prepare_input_tensors_spec w args 0
                (set_input_tf_tensor_values
                   (resize (length args) (input_tf_tensor_values rsA)) rsA)) as HA.
  pose proof (prepare_input_tensors_spec w args 0
                (set_input_tf_tensor_values
                   (resize (length args) (input_tf_tensor_values rsB)) rsB)) as HB.
  cbn [input_tf_tensor_values set_input_tf_tensor_values] in HA, HB.
  rewrite length_resize in HA, HB.
  specialize (HA (Nat.le_refl _)). specialize (HB (Nat.le_refl _)).
  destruct (argument_tensors w args) as [ts|].
  - destruct HA as (rsA1 & -> & _ & HvA), HB as (rsB1 & -> & _ & HvB).
    rewrite drop_ge, app_nil_r in HvA by (by rewrite length_resize).
    rewrite drop_ge, app_nil_r in HvB by (by rewrite length_resize).
    simpl in HvA, HvB.
    destruct (internal_execute_ignores_copies FallbackTensorT
                (SetUpParams rsA1 kernel_runner frs)
                (SetUpParams rsB1 kernel_runner frs)
                kernel_runner op_chain results w) as [Hsync Hasync].
    { simpl. congruence. }
    { done. }
    rewrite Hsync, Hasync.
    destruct (if IsAsync kernel_runner then _ else _) as [[out results'] w'].
    done.
  - rewrite HA, HB. done.
Qed.

Lemma core_runtime_dispatch_guarded_observable
    op_name kernel_runner frs (ts : list Tensor) (op_chain : Slot)
    (results : list Slot) (rsA rsB : OpKernelRunState) (w : World) :
  let outA :=
    core_runtime_dispatch_guarded op_name kernel_runner frs ts op_chain results
                                  rsA w in
  let outB :=
    core_runtime_dispatch_guarded op_name kernel_runner frs ts op_chain results
                                  rsB w in
  (outA.1.1, outA.2) = (outB.1.1, outB.2).
Proof.
  rewrite !core_runtime_dispatch_guarded_eq. cbv zeta.
  destruct (negb (ok _) && negb _).
  - by destruct (KernelFallbackEmitError _ _ _ _ _) as [[out results'] w'].
  - by destruct (if IsAsync kernel_runner then _ else _) as [[out results'] w'].
Qed.

(** An invocation shows the same to the outside whatever the scratch run
    state of the thread holds. *)
Lemma invoke_observable (inv : Invocation) (tlsA tlsB : OpKernelRunState)
    (w : World) :
  (invoke inv tlsA w).1 = (invoke inv tlsB w).1.
Proof.
  destruct inv as [exec_ctx op_name device_name arguments results attrs
                  |args results op_chain frame exec_ctx]; simpl.
  - unfold KernelFallbackExecuteCompatCoreRuntimeDispatch.
    cbn [GetReadyChain alloc].
    destruct (request_state exec_ctx) as [frs|]; [|done].
    destruct (GetOrCreate _ _ _ _ _ _) as [kernel_runner|st]; [|done].
    destruct (ConvertInputTensors arguments) as [ts|e]; [|done].
    pose proof (core_runtime_dispatch_guarded_observable
                  op_name kernel_runner frs ts (Some (length (heap w))) results
                  tlsA tlsB (set_heap (heap w ++ [Available PChain]) w)) as Hobs.
    destruct (core_runtime_dispatch_guarded _ _ _ _ _ _ tlsA _)
      as [[[outA resultsA] rsA] wA].
    destruct (core_runtime_dispatch_guarded _ _ _ _ _ _ tlsB _)
      as [[[outB resultsB] rsB] wB].
    simpl in Hobs. by simplify_eq.
  - unfold KernelFallbackExecuteOp.
    destruct (request_state exec_ctx) as [frs|]; [|done].
    destruct (Get _ _) as [kernel_runner|]; [|done].
    pose proof (execute_op_guarded_observable args results op_chain
                  kernel_runner frs tlsA tlsB w) as Hobs.
    destruct (execute_op_guarded _ _ _ _ _ tlsA _)
      as [[[outA resultsA] rsA] wA].
    destruct (execute_op_guarded _ _ _ _ _ tlsB _)
      as [[[outB resultsB] rsB] wB].
    simpl in Hobs. by simplify_eq.
Qed.

(** Every exit path of an invocation either ran the cleanup, which empties
    the owned copies, or never touched the scratch run state. *)
Lemma invoke_scratch (inv : Invocation) (tls : OpKernelRunState) (w : World) :
  input_tf_tensors (invoke inv tls w).2 = [] ∨ (invoke inv tls w).2 = tls.
Proof.
  destruct inv as [exec_ctx op_name device_name arguments results attrs
                  |args results op_chain frame exec_ctx]; simpl.
  - unfold KernelFallbackExecuteCompatCoreRuntimeDispatch.
    cbn [GetReadyChain alloc].
    destruct (request_state exec_ctx) as [frs|]; [|by right].
    destruct (GetOrCreate _ _ _ _ _ _) as [kernel_runner|st]; [|by right].
    destruct (ConvertInputTensors arguments) as [ts|e]; [|by right].
    destruct (core_runtime_dispatch_guarded _ _ _ _ _ _ _ _)
      as [[[out results'] rs] w']. by left.
  - unfold KernelFallbackExecuteOp.
    destruct (request_state exec_ctx) as [frs|]; [|by right].
    destruct (Get _ _) as [kernel_runner|]; [|by right].
    destruct (execute_op_guarded _ _ _ _ _ _ _)
      as [[[out results'] rs] w']. by left.
Qed.

Lemma invoke_keeps_scratch_empty (inv : Invocation) (tls : OpKernelRunState)
    (w : World) :
  input_tf_tensors tls = [] → input_tf_tensors (invoke inv tls w).2 = [].
Proof.
  intros Hempty.
  destruct (invoke_scratch inv tls w) as [Hcleared|Hsame]; [done|].
  by rewrite Hsame.
Qed.

Lemma run_thread_keeps_scratch_empty (invs : list Invocation)
    (tls : OpKernelRunState) (w : World) :
  input_tf_tensors tls = [] → input_tf_tensors (run_thread invs tls w).1 = [].
Proof.
  revert tls w. induction invs as [|inv invs IH]; intros tls w Hempty; [done|].
  simpl. pose proof (invoke_keeps_scratch_empty inv tls w Hempty) as Hnext.
  destruct (invoke inv tls w) as [[[out results'] w'] tls']. by apply IH.
Qed.

(** C7: on a thread, after any sequence of invocations through the two
    dispatch entry points, the owned tensor copies of the thread-local run
    state are empty, because every exit path either ran the scope guard or
    never touched the run state; and the next invocation shows the outside
    (the outputs, the completion token and the world, which records the
    inputs handed to the runner) exactly what it shows on a fresh run
    state. *)
Theorem scratch_cleared_between_invocations
    (invs : list Invocation) (inv : Invocation) (w : World) :
  let '(tls, w1) := run_thread invs OpKernelRunState_default w in
  input_tf_tensors tls = []
  ∧ input_tf_tensors (invoke inv tls w1).2 = []
  ∧ (invoke inv tls w1).1 = (invoke inv OpKernelRunState_default w1).1
  ∧ ∀ (tls0 : OpKernelRunState) (w0 : World),
      (input_tf_tensors (invoke inv tls0 w0).2 = []
       ∨ (invoke inv tls0 w0).2 = tls0)
      ∧ ∀ tls0' : OpKernelRunState,
          (invoke inv tls0 w0).1 = (invoke inv tls0' w0).1.
Proof.
  pose proof (run_thread_keeps_scratch_empty invs OpKernelRunState_default w
                eq_refl) as Hempty.
  destruct (run_thread invs OpKernelRunState_default w) as [tls w1].
  simpl in Hempty. split_and!.
  - done.
  - by apply invoke_keeps_scratch_empty.
  - apply invoke_observable.
  - intros tls0 w0. split; [apply invoke_scratch|].
    intros tls0'. apply invoke_observable.
Qed.

End EngineProperties.

(** * The model on concrete invocations *)

Module Scenarios.
Import Demo.

(** Dispatching "Add" on the scalars 3 and 4 synchronously yields one
    available output holding 7 and an available completion token. *)
Example add_3_4 :
  let out :=
    KernelFallbackExecuteCompatCoreRuntimeDispatch
      with_state "Add" "cpu"
      [DenseHostTensor (scalar 3); DenseHostTensor (scalar 4)] [None] tt
      OpKernelRunState_default World_empty in
  slot_state out.2 out.1.1.1 = Some (Available PChain)
  ∧ (slot_state out.2 <$> out.1.1.2)
    = [Some (Available (PKernelFallbackTensor (scalar 7)))]
  ∧ fault out.2 = false.
Proof. vm_compute. done. Qed.

(** A runner that reports a failure: both outputs and the token hold the
    same translated error. *)
Example failing_op_two_outputs :
  let out :=
    KernelFallbackExecuteCompatCoreRuntimeDispatch
      with_state "Fail" "cpu" [] [None; None] tt
      OpKernelRunState_default World_empty in
  let e :=
    Error (mkDiag "error running kernel fallback kernel Fail: out of luck"
                  ABORTED) in
  (slot_state out.2 <$> out.1.1.1 :: out.1.1.2) = [Some e; Some e; Some e].
Proof. vm_compute. done. Qed.

(** An asynchronous op: the output is not available when the call returns;
    the completion callback only enqueues work; the output and the token are
    available once the host has run that work. *)
Example async_identity :
  let out :=
    KernelFallbackExecuteCompatCoreRuntimeDispatch
      with_state "AsyncIdentity" "cpu" [DenseHostTensor (scalar 5)] [None] tt
      OpKernelRunState_default World_empty in
  let done :=
    mkEffect Status_OK (λ i, if decide (i = 0) then Some (scalar 5) else None) in
  let w1 := out.2 in
  let w2 := legacy_completes done w1 in
  let w3 := host_runs_work w2 in
  (slot_state w1 <$> out.1.1.1 :: out.1.1.2)
    = [Some Unconstructed; Some Unconstructed]
  ∧ heap w2 = heap w1 ∧ length (work_queue w2) = 1
  ∧ (slot_state w3 <$> out.1.1.1 :: out.1.1.2)
    = [Some (Available PChain);
       Some (Available (PKernelFallbackTensor (scalar 5)))].
Proof. vm_compute. done. Qed.

(** C2, witness: "Add" with a float first argument is rejected with the
    invalid-argument error that names input 0, int32 and float. *)
Lemma validation_witness :
  request_state with_state = Some demo_request_state
  ∧ GetOrCreate 0 "Add" "cpu" 2 tt demo_request_state = Value AddRunner
  ∧ ConvertInputTensors
      [DenseHostTensor (mkTensor DT_FLOAT [1%Z]); DenseHostTensor (scalar 4)]
    = Value [mkTensor DT_FLOAT [1%Z]; scalar 4]
  ∧ rejected_with "Add"
      (errors.InvalidArgument (dtype_mismatch_message "Add" 0 DT_INT32 DT_FLOAT))
      [None] World_empty
      (KernelFallbackExecuteCompatCoreRuntimeDispatch
         with_state "Add" "cpu"
         [DenseHostTensor (mkTensor DT_FLOAT [1%Z]); DenseHostTensor (scalar 4)]
         [None] tt OpKernelRunState_default World_empty).
Proof.
  split_and!; [reflexivity..|].
  pose proof (validation_rejects_unless_exempted
                with_state "Add" "cpu"
                [DenseHostTensor (mkTensor DT_FLOAT [1%Z]);
                 DenseHostTensor (scalar 4)]
                [None] tt OpKernelRunState_default World_empty
                demo_request_state AddRunner
                [mkTensor DT_FLOAT [1%Z]; scalar 4]
                eq_refl eq_refl eq_refl) as (_ & _ & _ & Hrej & _).
  apply Hrej; [reflexivity|]. unfold exempted. discriminate.
Defined.

(** C2, counterexample: "_BatchFunctionFallback" with two arguments for a
    kernel that declares one input is not rejected, although validation
    reports the count mismatch: the runner is invoked and its output is
    published. *)
Lemma count_mismatch_not_rejected_for_exempted_op :
  let op_name := "_BatchFunctionFallback" in
  let ts := [scalar 3; scalar 4] in
  let declared := input_types (op_kernel BatchRunner) in
  let out :=
    KernelFallbackExecuteCompatCoreRuntimeDispatch
      with_state op_name "cpu"
      [DenseHostTensor (scalar 3); DenseHostTensor (scalar 4)] [None] tt
      OpKernelRunState_default World_empty in
  GetOrCreate 0 op_name "cpu" 2 tt demo_request_state = Value BatchRunner
  ∧ length ts ≠ length declared
  ∧ ValidateInputTypes op_name ts declared
    = errors.InvalidArgument "expected 1 inputs, got 2"
  ∧ ¬ rejected_with op_name (ValidateInputTypes op_name ts declared)
        [None] World_empty out
  ∧ length (kernel_calls out.2) = 1
  ∧ (slot_state out.2 <$> out.1.1.2)
    = [Some (Available (PKernelFallbackTensor (scalar 3)))].
Proof.
  split_and!.
  - reflexivity.
  - vm_compute. discriminate.
  - vm_compute. reflexivity.
  - intros (error & _ & _ & _ & Hcalls). vm_compute in Hcalls. discriminate.
  - vm_compute. reflexivity.
  - vm_compute. reflexivity.
Qed.

(** C5, witness: creating "tf.Add" under key 7 twice. *)
Lemma create_op_witness :
  request_state with_state = Some demo_request_state
  ∧ OpKernelRunner_Create (StripTfPrefix "tf.Add") "cpu" 2 tt tt
                          demo_request_state = Value AddRunner
  ∧ let '(outcome, w1) :=
      KernelFallbackCreateOp "cpu" 2 tt tt 7 "tf.Add" with_state World_empty in
    outcome = Value ()
    ∧ Get 7 (runner_table w1) = Some AddRunner
    ∧ let '(outcome2, w2) :=
        KernelFallbackCreateOp "cpu" 0 tt tt 7 "tf.Fail" with_state w1 in
      (∃ msg, outcome2 = Failure (StringError msg)
              ∧ contains msg "already exists")
      ∧ w2 = w1
      ∧ Get 7 (runner_table w2) = Some AddRunner.
Proof.
  split_and!; [reflexivity..|].
  pose proof (KernelFallbackCreateOp_duplicate_key
                "cpu" 2 tt tt 7 "tf.Add" with_state World_empty
                demo_request_state AddRunner eq_refl eq_refl) as Hcreate.
  destruct (KernelFallbackCreateOp _ _ _ _ _ _ _ _) as [outcome w1].
  change (Get 7 (runner_table World_empty)) with (@None OpKernelRunner)
    in Hcreate.
  destruct Hcreate as (_ & Hout & Hget & _ & Hagain).
  split_and!; [exact Hout|exact Hget|].
  apply (Hagain "cpu" 0%Z _ _ "tf.Fail" FailRunner). reflexivity.
Defined.

(** C6, witness: a tensor set at index 2 is what a get of index 2 yields. *)
Lemma resource_witness :
  request_state with_state = Some demo_request_state
  ∧ let '(_, w1) :=
      FallbackSetResource (mkFallbackTensor false (scalar 42)) "cpu" 2
                          with_state World_empty in
    let '(out_ch, results, w2) :=
      FallbackGetResource (Some 0) None [None] "cpu" [2%Z] with_state w1 in
    w2 = w1
    ∧ (slot_state w2 <$> results)
      = [Some (Available (PFallbackTensor (mkFallbackTensor true (scalar 42))))].
Proof.
  split; [reflexivity|].
  pose proof (resource_set_get_roundtrip
                with_state demo_request_state
                (mkFallbackTensor false (scalar 42)) "cpu" 2 World_empty
                eq_refl) as Hround.
  destruct (FallbackSetResource _ _ _ _ _) as [outcome w1].
  destruct Hround as (_ & _ & Hget & _).
  specialize (Hget (Some 0) None None "cpu").
  destruct (FallbackGetResource _ _ _ _ _ _ _) as [[out_ch results] w2].
  destruct Hget as (Hw & _ & r & -> & Hcell & _).
  split; [exact Hw|]. simpl. by rewrite Hcell.
Defined.

(** C8, witness: without request state, "Add" yields the not-found error in
    its output and its completion token, and no runner is invoked. *)
Lemma missing_state_witness :
  request_state without_state = None
  ∧ let out :=
      KernelFallbackExecuteCompatCoreRuntimeDispatch
        without_state "Add" "cpu"
        [DenseHostTensor (scalar 3); DenseHostTensor (scalar 4)] [None] tt
        OpKernelRunState_default World_empty in
    rejected_with "Add" (errors.NotFound request_state_not_found) [None]
                  World_empty out
    ∧ kernel_calls out.2 = []
    ∧ out.1.2 = OpKernelRunState_default.
Proof.
  split; [reflexivity|].
  pose proof (missing_request_state_is_not_found without_state eq_refl)
    as (_ & Hcore & _).
  exact (Hcore "Add" "cpu"
               [DenseHostTensor (scalar 3); DenseHostTensor (scalar 4)]
               [None] tt OpKernelRunState_default World_empty).
Defined.

(** C9, witness: two arguments that convert reach the runner converted;
    an argument that does not convert ends the invocation. *)
Lemma conversion_witness :
  request_state with_state = Some demo_request_state
  ∧ GetOrCreate 0 "Add" "cpu" 2 tt demo_request_state = Value AddRunner
  ∧ (ConvertInputTensors
       [DenseHostTensor (scalar 3); DenseHostTensor (scalar 4)]
     = Value [scalar 3; scalar 4]
     ∧ kernel_invoked AddRunner [scalar 3; scalar 4] World_empty
         (KernelFallbackExecuteCompatCoreRuntimeDispatch
            with_state "Add" "cpu"
            [DenseHostTensor (scalar 3); DenseHostTensor (scalar 4)] [None] tt
            OpKernelRunState_default World_empty).2)
  ∧ let out :=
      KernelFallbackExecuteCompatCoreRuntimeDispatch
        with_state "Add" "cpu"
        [DenseHostTensor (scalar 4); OpaqueTensor "gpu"] [None] tt
        OpKernelRunState_default World_empty in
    ∃ msg, rejected_with "Add" (errors.Internal msg) [None] World_empty out
           ∧ kernel_calls out.2 = []
           ∧ out.1.2 = OpKernelRunState_default.
Proof.
  split; [reflexivity|]. split; [reflexivity|]. split.
  - pose proof (conversion_failure_short_circuits
                  with_state "Add" "cpu"
                  [DenseHostTensor (scalar 3); DenseHostTensor (scalar 4)]
                  [None] tt OpKernelRunState_default World_empty
                  demo_request_state AddRunner eq_refl eq_refl)
      as (Hconverted & _ & _).
    destruct (Hconverted [scalar 3; scalar 4]) as [Hconv Hinvoked].
    { constructor; [reflexivity|]. constructor; [reflexivity|]. constructor. }
    split; [exact Hconv|]. apply Hinvoked. left. reflexivity.
  - pose proof (conversion_failure_short_circuits
                  with_state "Add" "cpu"
                  [DenseHostTensor (scalar 4); OpaqueTensor "gpu"] [None] tt
                  OpKernelRunState_default World_empty demo_request_state
                  AddRunner eq_refl eq_refl) as (_ & _ & Hfail).
    destruct (Hfail (OpaqueTensor "gpu") "cannot convert tensor of kind gpu")
      as (i & a0 & e0 & _ & _ & _ & _ & _ & Hrej & Hcalls & Htls).
    + apply list_elem_of_In. simpl. tauto.
    + reflexivity.
    + exists (StrCat [StrCat [e0]]).
      split_and!; [exact Hrej|exact Hcalls|exact Htls].
Defined.

(** C10, witness: "_BatchFunctionFallback" with two arguments for one
    declared input runs its kernel. *)
Lemma batch_function_witness :
  request_state with_state = Some demo_request_state
  ∧ GetOrCreate 0 "_BatchFunctionFallback" "cpu" 2 tt demo_request_state
    = Value BatchRunner
  ∧ ConvertInputTensors
      [DenseHostTensor (scalar 3); DenseHostTensor (scalar 4)]
    = Value [scalar 3; scalar 4]
  ∧ let out :=
      KernelFallbackExecuteCompatCoreRuntimeDispatch
        with_state "_BatchFunctionFallback" "cpu"
        [DenseHostTensor (scalar 3); DenseHostTensor (scalar 4)] [None] tt
        OpKernelRunState_default World_empty in
    ok (ValidateInputTypes "_BatchFunctionFallback" [scalar 3; scalar 4]
                           (input_types (op_kernel BatchRunner))) = false
    ∧ kernel_invoked BatchRunner [scalar 3; scalar 4] World_empty out.2.
Proof.
  split_and!; [reflexivity..|].
  pose proof (BatchFunctionFallback_skips_validation
                with_state "cpu"
                [DenseHostTensor (scalar 3); DenseHostTensor (scalar 4)]
                [None] tt OpKernelRunState_default World_empty
                demo_request_state BatchRunner [scalar 3; scalar 4]
                eq_refl eq_refl eq_refl) as (Hfails & Hinv & _).
  split; [|exact Hinv]. apply Hfails. simpl. lia.
Defined.

End Scenarios.

(** * Further properties of the engine *)

Section EngineExtras.
Context `{Collaborators} `{!RunnerFactory}.

(** ** Input conversion *)

(** X1: [ConvertInputTensors] converts the arguments from left to right:
    it returns as many tensors as there are arguments, each the conversion
    of the argument at its position, or else the error of the first argument
    that does not convert, and nothing of the arguments after it matters. *)
Theorem ConvertInputTensors_stops_at_first_failure
    (arguments : list TfrtTensor) :
  ConvertInputTensors [] = Value []
  ∧ match ConvertInputTensors arguments with
    | Value ts =>
        length ts = length arguments
        ∧ ∀ (i : nat) a, arguments !! i = Some a →
            ∃ t, ts !! i = Some t ∧ TFRTTensorToTFTensor a = Value t
    | Failure e =>
        ∃ (i : nat) a e0,
          arguments !! i = Some a ∧ TFRTTensorToTFTensor a = Failure e0
          ∧ e = StrCat [e0] ∧ converts_before arguments i
          ∧ ∀ rest, ConvertInputTensors (take (S i) arguments ++ rest)
                    = Failure e
    end.
Proof.
  split; [done|].
  destruct (ConvertInputTensors arguments) as [ts|e] eqn:Hconv.
  - apply ConvertInputTensors_Value in Hconv.
    split; [symmetry; by eapply Forall2_length|].
    intros i a Hi.
    destruct (Forall2_lookup_l _ _ _ _ _ Hconv Hi) as (t & Ht & Ha).
    by exists t.
  - destruct (ConvertInputTensors_from_first_failure [] arguments e Hconv)
      as (i & a & e0 & Hi & Ha & -> & Hbefore).
    exists i, a, e0. split_and!; try done.
    intros rest. unfold ConvertInputTensors.
    clear Hconv. generalize (@nil Tensor) as acc.
    revert i Hi Hbefore.
    induction arguments as [|a0 arguments IH]; intros i Hi Hbefore acc.
    { done. }
    destruct i as [|i]; simplify_eq/=.
    + by rewrite Ha.
    + destruct (Hbefore 0 a0 ltac:(lia) eq_refl) as [t ->].
      apply (IH i); [done|].
      intros j b Hj Hb. apply (Hbefore (S j) b); [lia|done].
Qed.

(** ** Runner construction *)

(** X2: when the runner cache cannot produce a runner, the core-runtime
    dispatch hands the cache's status to error translation: the completion
    token and every output refer to one future holding its translation, no
    runner is invoked, the thread-local run state is not touched, and the
    arguments are not converted: only their number reaches the cache. *)
Theorem runner_construction_failure_is_reported
    (exec_ctx : ExecutionContext) (op_name device_name : string)
    (arguments : list TfrtTensor) (results : list Slot) (attrs : OpAttrsRef)
    (tls : OpKernelRunState) (w : World)
    (frs : KernelFallbackCompatRequestState) (st : Status) :
  request_state exec_ctx = Some frs →
  GetOrCreate (location exec_ctx) op_name device_name (length arguments)
              attrs frs = Failure st →
  let out :=
    KernelFallbackExecuteCompatCoreRuntimeDispatch
      exec_ctx op_name device_name arguments results attrs tls w in
  rejected_with op_name st results w out
  ∧ out.1.2 = tls
  ∧ fault out.2 = fault w
  ∧ ∀ arguments' : list TfrtTensor,
      length arguments' = length arguments →
      KernelFallbackExecuteCompatCoreRuntimeDispatch
        exec_ctx op_name device_name arguments' results attrs tls w = out.
Proof.
  intros Hstate Hrunner out.
  destruct (dispatch_without_runner exec_ctx op_name device_name arguments
              results attrs tls w frs st Hstate Hrunner) as [Hrej Htls].
  split_and!; try done.
  - unfold out, KernelFallbackExecuteCompatCoreRuntimeDispatch.
    cbn [GetReadyChain alloc]. by rewrite Hstate, Hrunner.
  - intros arguments' Hlen.
    unfold out, KernelFallbackExecuteCompatCoreRuntimeDispatch.
    cbn [GetReadyChain alloc]. by rewrite Hstate, Hlen, Hrunner.
Qed.

(** ** Op names *)

Lemma substring_all (s : string) : String.substring 0 (String.length s) s = s.
Proof. induction s as [|a s IH]; [done|]. simpl. by rewrite IH. Qed.

Lemma prefix_app (pre rest : string) : String.prefix pre (pre +:+ rest) = true.
Proof.
  induction pre as [|a pre IH]; [by destruct rest|].
  change (String a pre +:+ rest) with (String a (pre +:+ rest)). simpl.
  by destruct (Ascii.ascii_dec a a).
Qed.

Lemma prefix_true_app (pre s : string) :
  String.prefix pre s = true → ∃ rest, s = pre +:+ rest.
Proof.
  revert s. induction pre as [|a pre IH]; intros s Hpre.
  { by exists s. }
  destruct s as [|b s]; [done|]. simpl in Hpre.
  destruct (Ascii.ascii_dec a b) as [->|]; [|done].
  destruct (IH s Hpre) as [rest ->]. by exists rest.
Qed.

Lemma StripPrefix_app (pre rest : string) : StripPrefix (pre +:+ rest) pre = rest.
Proof.
  unfold StripPrefix. rewrite prefix_app.
  induction pre as [|a pre IH].
  - change ("" +:+ rest) with rest. simpl. rewrite Nat.sub_0_r.
    apply substring_all.
  - change (String a pre +:+ rest) with (String a (pre +:+ rest)).
    simpl. exact IH.
Qed.

Lemma StripPrefix_other (pre s : string) :
  (∀ rest, s ≠ pre +:+ rest) → StripPrefix s pre = s.
Proof.
  intros Hno. unfold StripPrefix.
  destruct (String.prefix pre s) eqn:Hpre; [|done].
  destruct (prefix_true_app pre s Hpre) as [rest ->]. by destruct (Hno rest).
Qed.

(** X3: [StripTfPrefix] removes one leading "tf." and nothing else: a name
    that starts with "tf." loses exactly these three characters, also when
    more of them follow, and any other name is returned as it is. *)
Theorem StripTfPrefix_strips_one_prefix (op_name : string) :
  StripTfPrefix ("tf." +:+ op_name) = op_name
  ∧ StripTfPrefix ("tf.tf." +:+ op_name) = "tf." +:+ op_name
  ∧ ((∀ rest, op_name ≠ "tf." +:+ rest) → StripTfPrefix op_name = op_name)
  ∧ String.length (StripTfPrefix op_name) ≤ String.length op_name.
Proof.
  split_and!.
  - apply StripPrefix_app.
  - apply (StripPrefix_app "tf." ("tf." +:+ op_name)).
  - apply StripPrefix_other.
  - unfold StripTfPrefix, StripPrefix.
    destruct (String.prefix "tf." op_name) eqn:Hpre; [|done].
    destruct (prefix_true_app _ _ Hpre) as [rest ->].
    pose proof (StripPrefix_app "tf." rest) as Hstrip.
    unfold StripPrefix in Hstrip. rewrite prefix_app in Hstrip.
    rewrite Hstrip.
    change (String.length ("tf." +:+ rest)) with (3 + String.length rest).
    lia.
Qed.

(** ** Creating ops *)

(** X4: [KernelFallbackCreateOp] succeeds exactly when the request state is
    present, the runner is constructed and the op key is free; it then adds
    that runner under the key.  In every other case the world is returned as
    it was, and in no case is an entry of the runner table removed or
    replaced or is anything but the table changed: the futures, the host's
    queue, the outstanding asynchronous kernels, the resource array, the log
    of runner calls and the fault flag are those of the world it started
    from. *)
Theorem KernelFallbackCreateOp_success_iff
    (device_attr : string) (num_args : Z)
    (op_attr_array op_func_attr_array : AggregateAttr)
    (op_key : Z) (op_name_attr : string) (exec_ctx : ExecutionContext)
    (w : World) :
  let '(outcome, w1) :=
    KernelFallbackCreateOp device_attr num_args op_attr_array
                           op_func_attr_array op_key op_name_attr exec_ctx w in
  (outcome = Value () ↔
     ∃ frs kernel_runner,
       request_state exec_ctx = Some frs
       ∧ OpKernelRunner_Create (StripTfPrefix op_name_attr) device_attr
                               num_args op_attr_array op_func_attr_array frs
         = Value kernel_runner
       ∧ runner_table w !! op_key = None
       ∧ runner_table w1 = <[op_key := kernel_runner]> (runner_table w))
  ∧ (outcome ≠ Value () → w1 = w)
  ∧ runner_table w ⊆ runner_table w1
  ∧ heap w1 = heap w ∧ resource_array w1 = resource_array w
  ∧ kernel_calls w1 = kernel_calls w ∧ work_queue w1 = work_queue w
  ∧ fault w1 = fault w
  ∧ pending w1 = pending w
  ∧ w1 = set_runner_table (runner_table w1) w.
Proof.
  unfold KernelFallbackCreateOp.
  destruct (request_state exec_ctx) as [frs|] eqn:Hstate.
  - destruct (OpKernelRunner_Create _ _ _ _ _ _) as [kernel_runner|st]
      eqn:Hcreate.
    + unfold Insert.
      destruct (runner_table w !! op_key) as [first|] eqn:Hkey; simpl.
      * rewrite !set_runner_table_same. split_and!; try done.
        split; [done|]. intros (? & ? & _ & _ & ? & _). done.
      * split_and!; try done.
        -- split; [|done]. intros _. by exists frs, kernel_runner.
        -- by apply insert_subseteq.
    + rewrite set_runner_table_same. split_and!; try done. split; [done|].
      intros (frs' & r & Hfrs & Hr & _). simplify_eq. congruence.
  - rewrite set_runner_table_same. split_and!; try done. split; [done|].
    intros (frs' & r & Hfrs & _). done.
Qed.

(** ** The resource kernels *)

Lemma get_resources_loop (indices : list Z) (w : World) (k : nat)
    (results : list Slot) :
  k ≤ length indices → length indices ≤ length results →
  (∀ index, index ∈ indices → is_Some (GetResource index w)) →
  foldl (λ '(results, w) i,
           match indices !! i with
           | None => (results, w)
           | Some index =>
               match GetResource index w with
               | Some r =>
                   if decide (i < length results)
                   then (<[i := Some r]> results, w)
                   else (results, set_fault w)
               | None => (results, set_fault w)
               end
           end)
        (results, w) (seq 0 k)
  = (((λ index, GetResource index w) <$> take k indices) ++ drop k results, w).
Proof.
  intros Hk Hlen Hset. induction k as [|k IH].
  { by rewrite take_0, drop_0. }
  rewrite seq_S, foldl_app, IH by lia. simpl.
  destruct (lookup_lt_is_Some_2 indices k ltac:(lia)) as [index Hindex].
  destruct (lookup_lt_is_Some_2 results k ltac:(lia)) as [slot Hslot].
  rewrite Hindex.
  destruct (Hset index) as [r Hr]; [by eapply list_elem_of_lookup_2|].
  rewrite Hr.
  assert (Hk' : length ((λ index, GetResource index w) <$> take k indices) = k).
  { rewrite length_fmap, length_take. lia. }
  rewrite decide_True by (rewrite length_app, Hk', length_drop; lia).
  f_equal. rewrite insert_app_r_alt by lia. rewrite Hk', Nat.sub_diag.
  rewrite (drop_S _ _ _ Hslot). simpl.
  rewrite (take_S_r _ _ _ Hindex), fmap_app, <- app_assoc. simpl.
  by rewrite Hr.
Qed.

(** X5: with the request state present, [FallbackGetResource] writes, for
    every requested index in order, the future the resource array holds for
    it into the result slot of the same position, leaves further result
    slots alone, forwards the input chain, and changes nothing in the world:
    provided every requested index has been set and there are at least as
    many result slots as indices. *)
Theorem FallbackGetResource_all_indices
    (in_ch out_ch : Slot) (results : list Slot) (device_attr : string)
    (indices_attr : list Z) (exec_ctx : ExecutionContext) (w : World)
    (frs : KernelFallbackCompatRequestState) :
  request_state exec_ctx = Some frs →
  length indices_attr ≤ length results →
  (∀ index, index ∈ indices_attr → is_Some (GetResource index w)) →
  FallbackGetResource in_ch out_ch results device_attr indices_attr exec_ctx w
  = (in_ch,
     ((λ index, GetResource index w) <$> indices_attr)
       ++ drop (length indices_attr) results,
     w).
Proof.
  intros Hstate Hlen Hset. unfold FallbackGetResource. rewrite Hstate.
  rewrite (get_resources_loop indices_attr w (length indices_attr) results)
    by done.
  by rewrite firstn_all.
Qed.

(** X6: without the request state the resource kernels store and read
    nothing.  [FallbackSetResource] returns an error and the world as it
    was; [FallbackGetResource] puts a fresh error future into the output
    chain only: unlike the dispatch entry points it leaves every result slot
    as it was, and the output chain is the new error, not the input chain. *)
Theorem resource_kernels_without_request_state
    (exec_ctx : ExecutionContext) (arg : FallbackTensor)
    (device_attr : string) (index : Z)
    (in_ch out_ch : Slot) (results : list Slot) (indices_attr : list Z)
    (w : World) :
  request_state exec_ctx = None →
  FallbackSetResource arg device_attr index exec_ctx w
    = (Failure (StringError request_state_not_found), w)
  ∧ let '(out_ch', results', w') :=
      FallbackGetResource in_ch out_ch results device_attr indices_attr
                          exec_ctx w in
    results' = results
    ∧ resource_array w' = resource_array w
    ∧ (∃ error : AVRef,
         out_ch' = Some error
         ∧ heap w !! error = None
         ∧ heap w' !! error =
             Some (Error (mkDiag request_state_not_found default_error_code)))
    ∧ ∀ r, r < length (heap w) → heap w' !! r = heap w !! r.
Proof.
  intros Hstate. unfold FallbackSetResource, FallbackGetResource.
  rewrite Hstate. split; [done|]. simpl. split_and!; try done.
  - exists (length (heap w)). split_and!; try done.
    + by apply lookup_ge_None_2.
    + by rewrite lookup_app_r, Nat.sub_diag.
  - intros r Hr. by rewrite lookup_app_l.
Qed.

(** ** The BEF execute kernel *)

Lemma prepare_input_tensors_copies (w : World) (args : list FrameArg) ts :
  argument_tensors w args = Some ts →
  ∀ (i : nat) (rs : OpKernelRunState),
    ∃ rs1, prepare_input_tensors i args rs w = Some rs1
           ∧ input_tf_tensors rs1 = input_tf_tensors rs ++ copied_tensors w args.
Proof.
  revert ts. induction args as [|arg args IH]; intros ts Hargs i rs.
  { exists rs. by rewrite app_nil_r. }
  simpl in Hargs |- *.
  destruct (heap w !! arg_value arg) as [[|[| |fallback_tensor]|]|]; try done.
  destruct (argument_tensors w args) as [ts'|] eqn:Hrest; [|done].
  destruct (negb (is_immutable fallback_tensor) && negb (IsUnique arg)).
  - edestruct (IH ts' eq_refl (S i)) as (rs1 & -> & Hcopies).
    exists rs1. split; [done|]. rewrite Hcopies. simpl.
    by rewrite <- app_assoc.
  - edestruct (IH ts' eq_refl (S i)) as (rs1 & -> & Hcopies).
    exists rs1. split; [done|]. by rewrite Hcopies.
Qed.

Lemma copied_tensors_none (w : World) (args : list FrameArg) :
  (∀ arg fallback_tensor,
     arg ∈ args →
     heap w !! arg_value arg = Some (Available (PFallbackTensor fallback_tensor)) →
     is_immutable fallback_tensor = true ∨ IsUnique arg = true) →
  copied_tensors w args = [].
Proof.
  induction args as [|arg args IH]; intros Hall; [done|]. simpl.
  destruct (heap w !! arg_value arg) as [[|[| |fallback_tensor]|]|] eqn:Harg;
    try done.
  destruct (Hall arg fallback_tensor) as [-> | ->]; [by left|done|..].
  - simpl. apply IH. intros a ft Ha. apply Hall. by right.
  - rewrite andb_false_r. apply IH. intros a ft Ha. apply Hall. by right.
Qed.

Lemma copied_tensors_length (w : World) (args : list FrameArg) :
  length (copied_tensors w args) ≤ length args.
Proof.
  induction args as [|arg args IH]; simpl; [done|].
  destruct (heap w !! arg_value arg) as [[|[| |fallback_tensor]|]|];
    simpl; try lia.
  destruct (negb _ && negb _); simpl; lia.
Qed.

(** Running a runner on a run state whose handles are [ts] invokes it once,
    on [ts]. *)
Lemma internal_execute_invokes ty (rs : OpKernelRunState) kernel_runner
    (op_chain : option Slot) (results : list Slot) (w : World) ts :
  input_tf_tensor_values rs = Some <$> ts →
  params_inputs (params rs) = OwnTensorValues →
  params_op_kernel (params rs) = Some (op_kernel kernel_runner) →
  kernel_invoked kernel_runner ts w
    (if IsAsync kernel_runner then
       KernelFallbackExecuteCompatAsyncInternal
         ty rs kernel_runner op_chain results w
     else
       KernelFallbackExecuteCompatSyncInternal
         ty rs kernel_runner op_chain results w).2.
Proof.
  intros Hvalues Hinputs Hkernel. unfold kernel_invoked.
  destruct (IsAsync kernel_runner).
  - exists (OpKernelContext_new
              (OpKernelRunState_of (input_tf_tensor_values rs) (params rs)).1
              (length results)).
    rewrite AsyncInternal_kernel_calls. split_and!; [|exact Hkernel|done].
    simpl. by rewrite Hvalues, omap_id_Some.
  - exists (OpKernelContext_new rs (length results)).
    rewrite SyncInternal_kernel_calls. split_and!; [|exact Hkernel|done].
    simpl. by rewrite Hinputs.
Qed.

(** The guarded part of [KernelFallbackExecuteOp] when every argument is an
    available fallback tensor. *)
Lemma execute_op_guarded_eq args (results : list Slot) (op_chain : option Slot)
    kernel_runner frs (tls : OpKernelRunState) (w : World) ts :
  argument_tensors w args = Some ts →
  ∃ rs1,
    input_tf_tensors rs1 = input_tf_tensors tls ++ copied_tensors w args
    ∧ input_tf_tensor_values rs1 = Some <$> ts
    ∧ execute_op_guarded args results op_chain kernel_runner frs tls w
      = let run_state := SetUpParams rs1 kernel_runner frs in
        let '(op_chain, results, w) :=
          if IsAsync kernel_runner then
            KernelFallbackExecuteCompatAsyncInternal
              FallbackTensorT run_state kernel_runner op_chain results w
          else
            KernelFallbackExecuteCompatSyncInternal
              FallbackTensorT run_state kernel_runner op_chain results w in
        (op_chain, results, run_state, w).
Proof.
  intros Hargs. unfold execute_op_guarded.
  set (rs0 := set_input_tf_tensor_values _ tls).
  destruct (prepare_input_tensors_copies w args ts Hargs 0 rs0)
    as (rs1 & Hprep & Hcopies).
  pose proof (prepare_input_tensors_spec w args 0 rs0) as Hspec.
  rewrite Hargs in Hspec.
  destruct Hspec as (rs1' & Hprep' & _ & Hvalues).
  { unfold rs0. simpl. by rewrite length_resize. }
  rewrite Hprep in Hprep'. simplify_eq.
  exists rs1'. rewrite Hprep. split_and!; try done.
  rewrite Hvalues. unfold rs0. simpl.
  rewrite drop_ge, app_nil_r by (by rewrite length_resize). done.
Qed.

(** X7: while [KernelFallbackExecuteOp] runs a kernel whose arguments are
    all available fallback tensors, the run state holds a handle to the
    tensor of every argument, in order, but an owned copy only of the
    arguments that are neither immutable nor uniquely referenced; when all
    arguments are immutable or unique nothing is copied. *)
Theorem execute_op_copies_only_shared_mutable_arguments
    (args : list FrameArg) (results : list Slot) (op_chain : option Slot)
    (kernel_runner : OpKernelRunner) (frs : KernelFallbackCompatRequestState)
    (tls : OpKernelRunState) (w : World) (ts : list Tensor) :
  argument_tensors w args = Some ts →
  let out :=
    execute_op_guarded args results op_chain kernel_runner frs tls w in
  let run_state := out.1.2 in
  length ts = length args
  ∧ input_tf_tensor_values run_state = Some <$> ts
  ∧ input_tf_tensors run_state = input_tf_tensors tls ++ copied_tensors w args
  ∧ length (copied_tensors w args) ≤ length args
  ∧ ((∀ arg fallback_tensor,
        arg ∈ args →
        heap w !! arg_value arg
          = Some (Available (PFallbackTensor fallback_tensor)) →
        is_immutable fallback_tensor = true ∨ IsUnique arg = true) →
     input_tf_tensors run_state = input_tf_tensors tls).
Proof.
  intros Hargs out run_state.
  destruct (execute_op_guarded_eq args results op_chain kernel_runner frs tls
              w ts Hargs) as (rs1 & Hcopies & Hvalues & Heq).
  assert (Hrs : run_state = SetUpParams rs1 kernel_runner frs).
  { unfold run_state, out. rewrite Heq. cbv zeta.
    by destruct (if IsAsync kernel_runner then _ else _) as [[? ?] ?]. }
  rewrite Hrs. simpl. split_and!; try done.
  - clear -Hargs. revert ts Hargs.
    induction args as [|arg args IH]; intros ts Hargs; simplify_eq/=; [done|].
    destruct (heap w !! arg_value arg) as [[|[| |ft]|]|]; try done.
    destruct (argument_tensors w args) as [ts'|]; simplify_eq/=.
    by rewrite (IH ts').
  - apply copied_tensors_length.
  - intros Hall. by rewrite Hcopies, copied_tensors_none, app_nil_r.
Qed.

(** X8: [KernelFallbackExecuteOp], with the request state present, a runner
    under the op key and every argument an available fallback tensor,
    invokes the runner exactly once on the tensors of all its arguments, and
    does so without any check of their number or data types against the
    kernel's declared input types; afterwards the thread-local run state
    holds no owned copies, while its handles are left as they were set. *)
Theorem KernelFallbackExecuteOp_invokes_runner_unvalidated
    (args : list FrameArg) (results : list Slot) (op_chain : option Slot)
    (frame : FallbackKernelAttributeFrame) (exec_ctx : ExecutionContext)
    (tls : OpKernelRunState) (w : World)
    (frs : KernelFallbackCompatRequestState) (kernel_runner : OpKernelRunner)
    (ts : list Tensor) :
  request_state exec_ctx = Some frs →
  Get (frame_op_key frame) (runner_table w) = Some kernel_runner →
  argument_tensors w args = Some ts →
  let out := KernelFallbackExecuteOp args results op_chain frame exec_ctx tls w in
  kernel_invoked kernel_runner ts w out.2
  ∧ input_tf_tensors out.1.2 = []
  ∧ input_tf_tensor_values out.1.2 = Some <$> ts.
Proof.
  intros Hstate Hget Hargs out.
  destruct (execute_op_guarded_eq args results op_chain kernel_runner frs tls
              w ts Hargs) as (rs1 & Hcopies & Hvalues & Heq).
  pose proof (internal_execute_invokes FallbackTensorT
                (SetUpParams rs1 kernel_runner frs) kernel_runner op_chain
                results w ts Hvalues eq_refl eq_refl) as Hinv.
  unfold out, KernelFallbackExecuteOp. rewrite Hstate, Hget, Heq. cbv zeta.
  destruct (if IsAsync kernel_runner then _ else _) as [[oc res] w'].
  done.
Qed.

(** ** Result slots *)

(** What the two internal execute functions leave in the result slots and
    in the slot of the completion token. *)
Lemma internal_execute_results ty (rs : OpKernelRunState) kernel_runner
    (op_chain : option Slot) (results : list Slot) (w : World) (async : bool) :
  let out :=
    if async then
      KernelFallbackExecuteCompatAsyncInternal
        ty rs kernel_runner op_chain results w
    else
      KernelFallbackExecuteCompatSyncInternal
        ty rs kernel_runner op_chain results w in
  length out.1.2 = length results
  ∧ (∃ c : AVRef, out.1.1 = (λ _, Some c) <$> op_chain)
  ∧ (fault out.2 = false → Forall is_Some out.1.2).
Proof.
  destruct async; cbv zeta.
  - rewrite AsyncInternal_eq, async_prepare_eq. cbv zeta. simpl.
    rewrite length_fmap, length_seq. split_and!; [done|by eexists|].
    intros _. apply Forall_fmap, Forall_true. by eexists.
  - unfold KernelFallbackExecuteCompatSyncInternal.
    set (context := OpKernelContext_new rs (length results)).
    destruct (negb (ok (status (ran context (Run kernel_runner context))))).
    { rewrite KernelFallbackEmitError_eq. simpl.
      rewrite length_fmap. split_and!; [done|by eexists|].
      intros _. apply Forall_fmap, Forall_true. by eexists. }
    destruct (foldl _ _ _) as [results1 w1] eqn:Hloop.
    change (ctx_num_outputs (ran context (Run kernel_runner context)))
      with (length results) in Hloop.
    destruct (make_outputs_available_spec _ _ _ _ _ _ _ (Nat.le_refl _) Hloop)
      as (Hlen & _ & Hdone & _).
    assert (Hfilled : fault w1 = false → Forall is_Some results1).
    { intros Hfault. apply Forall_lookup. intros i slot Hi.
      pose proof (lookup_lt_Some _ _ _ Hi) as Hlt. rewrite Hlen in Hlt.
      specialize (Hdone i Hlt).
      destruct (mutable_output _ i); [|congruence].
      destruct Hdone as (r & Hr & _). rewrite Hr in Hi. by simplify_eq. }
    destruct op_chain as [slot|]; simpl.
    + split_and!; [done|by eexists|done].
    + split_and!; [done|by exists 0|done].
Qed.

(** X9: a core-runtime dispatch never changes the number of result slots
    and always returns a completion token; unless it ran into undefined
    behaviour (a kernel that reports success without having set one of its
    outputs), it leaves a future in every result slot, on every path. *)
Theorem dispatch_fills_every_result_slot
    (exec_ctx : ExecutionContext) (op_name device_name : string)
    (arguments : list TfrtTensor) (results : list Slot) (attrs : OpAttrsRef)
    (tls : OpKernelRunState) (w : World) :
  let out :=
    KernelFallbackExecuteCompatCoreRuntimeDispatch
      exec_ctx op_name device_name arguments results attrs tls w in
  length out.1.1.2 = length results
  ∧ is_Some out.1.1.1
  ∧ (fault out.2 = false → Forall is_Some out.1.1.2).
Proof.
  assert (Hemit : ∀ st (chain : AVRef) (tls' : OpKernelRunState) w',
            let out :=
              let '(out, results, w) :=
                KernelFallbackEmitError op_name (Some (Some chain)) results
                                        st w' in
              (local_chain (Some chain) out, results, tls', w) in
            length out.1.1.2 = length results
            ∧ is_Some out.1.1.1
            ∧ (fault out.2 = false → Forall is_Some out.1.1.2)).
  { intros st chain tls' w'. rewrite KernelFallbackEmitError_eq. simpl.
    rewrite length_fmap. split_and!; [done|by eexists|].
    intros _. apply Forall_fmap, Forall_true. by eexists. }
  unfold KernelFallbackExecuteCompatCoreRuntimeDispatch.
  cbn [GetReadyChain alloc].
  destruct (request_state exec_ctx) as [frs|]; [|apply Hemit].
  destruct (GetOrCreate _ _ _ _ _ _) as [kernel_runner|st]; [|apply Hemit].
  destruct (ConvertInputTensors arguments) as [ts|e]; [|apply Hemit].
  rewrite core_runtime_dispatch_guarded_eq. cbv zeta.
  destruct (negb (ok _) && negb _).
  { pose proof (Hemit (ValidateInputTypes op_name ts
                         (input_types (op_kernel kernel_runner)))
                      (length (heap w)) (set_input_tf_tensors ts tls)
                      (set_heap (heap w ++ [Available PChain]) w)) as Hthis.
    cbv zeta in Hthis.
    by destruct (KernelFallbackEmitError _ _ _ _ _) as [[out results'] w']. }
  pose proof (internal_execute_results KernelFallbackTensorT
                (prepared_run_state ts kernel_runner frs) kernel_runner
                (Some (Some (length (heap w)))) results
                (set_heap (heap w ++ [Available PChain]) w)
                (IsAsync kernel_runner)) as Hres.
  cbv zeta in Hres.
  destruct (IsAsync kernel_runner);
    destruct (_ : option Slot * list Slot * World) as [[out results'] w'];
    destruct Hres as (Hlen & [c Hc] & Hfilled); simpl in *; subst out;
    split_and!; try done; by eexists.
Qed.

(** ** The copy of the run state for an asynchronous kernel *)

Lemma fmap_Some_omap_id {A} (l : list (option A)) :
  Forall is_Some l → Some <$> omap id l = l.
Proof.
  induction 1 as [|x l [y ->] _ IH]; [done|]. simpl. f_equal. exact IH.
Qed.

Lemma length_omap_id {A} (l : list (option A)) :
  Forall is_Some l → length (omap id l) = length l.
Proof.
  induction 1 as [|x l [y ->] _ IH]; [done|]. simpl. f_equal. exact IH.
Qed.

(** X10: the run state built for an asynchronous kernel owns a copy of
    every tensor the handles of the original point at, not only of those the
    original owned; its handles and its [params.inputs] point at its own
    copies, all other parameters are those of the original, and a context
    built on it sees the same inputs as one built on the original.  The
    constructor is well defined exactly when no handle is null. *)
Theorem OpKernelRunState_of_copies_all_inputs
    (run_state : OpKernelRunState) :
  let '(copy, valid) :=
    OpKernelRunState_of (input_tf_tensor_values run_state) (params run_state) in
  (valid = true ↔ Forall is_Some (input_tf_tensor_values run_state))
  ∧ input_tf_tensor_values copy = Some <$> input_tf_tensors copy
  ∧ params_inputs (params copy) = OwnTensorValues
  ∧ set_params_inputs NullInputs (params copy)
    = set_params_inputs NullInputs (params run_state)
  ∧ (Forall is_Some (input_tf_tensor_values run_state) →
     length (input_tf_tensors copy)
       = length (input_tf_tensor_values run_state)
     ∧ input_tf_tensor_values copy = input_tf_tensor_values run_state
     ∧ (params_inputs (params run_state) = OwnTensorValues →
        ∀ n, ctx_inputs (OpKernelContext_new copy n)
             = ctx_inputs (OpKernelContext_new run_state n))).
Proof.
  unfold OpKernelRunState_of. cbv zeta. cbn [input_tf_tensors
    input_tf_tensor_values params].
  split_and!; try done.
  - apply bool_decide_eq_true.
  - intros Hall. split_and!.
    + by apply length_omap_id.
    + by apply fmap_Some_omap_id.
    + intros Hown n. unfold OpKernelContext_new. simpl. rewrite Hown.
      by apply fmap_Some_omap_id.
Qed.

(** ** A kernel that completes inside [RunAsync] *)

(** X11: when the runner invokes the completion callback before [RunAsync]
    returns, a failure status is visible on return: the completion token and
    every output already hold one and the same error, and no work is
    enqueued.  A success status is not: on return the token and the outputs
    are still unconstructed, and exactly one unit of work has been appended
    to the host's queue. *)
Theorem inline_completion_is_visible_on_return_only_for_errors
    (ty : TensorType) (run_state : OpKernelRunState)
    (kernel_runner : OpKernelRunner) (kernel : OpKernel)
    (op_chain : option Slot) (results : list Slot) (w : World)
    (e : KernelEffect) :
  (∀ ctx, RunAsync kernel_runner ctx = CallbackInline e) →
  params_op_kernel (params run_state) = Some kernel →
  let '(op_chain', results', w') :=
    KernelFallbackExecuteCompatAsyncInternal
      ty run_state kernel_runner op_chain results w in
  ∃ (chain : AVRef) (refs : list AVRef),
    op_chain' = (λ _, Some chain) <$> op_chain
    ∧ results' = Some <$> refs
    ∧ length refs = length results
    ∧ pending w' = pending w
    ∧ if ok (k_status e) then
        Forall (λ r, heap w' !! r = Some Unconstructed) (chain :: refs)
        ∧ ∃ item, work_queue w' = work_queue w ++ [item]
      else
        Forall (λ r, heap w' !! r =
                     Some (Error (translated_error (name kernel) (k_status e))))
               (chain :: refs)
        ∧ work_queue w' = work_queue w.
Proof.
  intros Hinline Hkernel.
  rewrite AsyncInternal_eq, async_prepare_eq. cbv zeta.
  set (copy := OpKernelRunState_of _ _).
  set (base := length (heap w)). set (n := length results).
  set (st := mkAsyncState ty copy.1 (OpKernelContext_new copy.1 n) base
                          (seq (S base) n)).
  change (as_context st) with (OpKernelContext_new copy.1 n).
  rewrite Hinline.
  set (context := OpKernelContext_new copy.1 n).
  set (finished := set_context (ran context e) st).
  set (w1 := log_call (RunAsyncCall context)
               (if copy.2
                then set_heap (heap w ++ replicate (S n) Unconstructed) w
                else set_fault
                       (set_heap (heap w ++ replicate (S n) Unconstructed) w))).
  assert (Hheap1 : heap w1 = heap w ++ replicate (S n) Unconstructed).
  { unfold w1. by destruct (copy.2). }
  assert (Hq1 : work_queue w1 = work_queue w ∧ pending w1 = pending w).
  { unfold w1. by destruct (copy.2). }
  destruct Hq1 as [Hq1 Hp1].
  assert (Hfutures : ∀ r, r ∈ base :: seq (S base) n → base ≤ r < base + S n).
  { intros r [->|Hr%elem_of_seq]%elem_of_cons; lia. }
  assert (Hst : status (as_context finished) = k_status e) by done.
  exists base, (seq (S base) n).
  split_and!; [done|done|by rewrite length_seq|..].
  - unfold done_callback. rewrite Hst.
    destruct (negb (ok (k_status e))); [|done].
    destruct (params_op_kernel _); [|done].
    set (d := EmitError _ _).
    destruct (SetError_all (as_result_refs finished) d w1)
      as (_ & _ & _ & _ & Hp & _).
    exact (eq_trans Hp Hp1).
  - destruct (ok (k_status e)) eqn:Hok.
    + rewrite done_callback_success by (by rewrite Hst). split.
      * apply Forall_forall. intros r Hr%Hfutures.
        change (heap (EnqueueWork (PublishOutputs finished) w1))
          with (heap w1).
        rewrite Hheap1. apply lookup_replicate_app. fold base. lia.
      * exists (PublishOutputs finished).
        change (work_queue (EnqueueWork (PublishOutputs finished) w1))
          with (work_queue w1 ++ [PublishOutputs finished]).
        by rewrite Hq1.
    + destruct (done_callback_failure finished kernel w1)
        as (Hq & _ & Hin & _).
      * by rewrite Hst.
      * exact Hkernel.
      * change (as_chain finished) with base.
        rewrite Hheap1, length_app, length_replicate. fold base. lia.
      * intros r Hr. change (as_result_refs finished) with (seq (S base) n) in Hr.
        apply elem_of_seq in Hr.
        rewrite Hheap1, length_app, length_replicate. fold base. lia.
      * split; [|by rewrite Hq]. apply Forall_forall. intros r Hr.
        apply (Hin r Hr).
Qed.

(** ** Copies for downstream consumers *)

Lemma alloc_each_loop (p : Payload) (k : nat) (results : list Slot) (w : World) :
  k ≤ length results →
  foldl (λ '(results, w) i,
           let '(r, w) := MakeAvailableAsyncValueRef p w in
           (<[i := Some r]> results, w))
        (results, w) (seq 0 k)
  = ((Some <$> seq (length (heap w)) k) ++ drop k results,
     set_heap (heap w ++ replicate k (Available p)) w).
Proof.
  intros Hk. induction k as [|k IH].
  { simpl. rewrite app_nil_r. by destruct w. }
  rewrite !seq_S, foldl_app, IH by lia.
  cbn [foldl MakeAvailableAsyncValueRef alloc heap set_heap].
  rewrite length_app, length_replicate. f_equal.
  - destruct (lookup_lt_is_Some_2 results k ltac:(lia)) as [slot Hslot].
    rewrite insert_app_r_alt by (rewrite length_fmap, length_seq; lia).
    rewrite length_fmap, length_seq, Nat.sub_diag.
    rewrite (drop_S _ _ _ Hslot).
    by rewrite fmap_app, <- app_assoc.
  - unfold set_heap. cbn [heap work_queue pending runner_table resource_array
                          kernel_calls fault].
    f_equal. rewrite <- app_assoc. f_equal.
    change [Available p] with (replicate 1 (Available p)).
    rewrite <- replicate_add. f_equal. lia.
Qed.

(** X12: [FallbackCopyTensorIfSmall] gives every result slot a new future
    of its own: the futures are fresh, pairwise distinct and available, each
    holds the tensor of the argument (and, for an immutable argument, the
    argument itself), and nothing else in the world changes. *)
Theorem FallbackCopyTensorIfSmall_gives_each_result_its_own_future
    (arg : FallbackTensor) (results : list Slot) (w : World) :
  let '(results', w') := FallbackCopyTensorIfSmall arg results w in
  ∃ refs : list AVRef,
    results' = Some <$> refs
    ∧ length refs = length results
    ∧ NoDup refs
    ∧ Forall (λ r, heap w !! r = None
                   ∧ ∃ copy, heap w' !! r = Some (Available (PFallbackTensor copy))
                             ∧ tensor copy = tensor arg
                             ∧ (is_immutable arg = true → copy = arg)) refs
    ∧ only_allocates w w'
    ∧ length (heap w') = length (heap w) + length results
    ∧ fault w' = fault w.
Proof.
  assert (Hgen : ∀ copy : FallbackTensor,
            tensor copy = tensor arg →
            (is_immutable arg = true → copy = arg) →
            let '(results', w') :=
              ((Some <$> seq (length (heap w)) (length results))
                 ++ drop (length results) results,
               set_heap (heap w ++ replicate (length results)
                                     (Available (PFallbackTensor copy))) w) in
            ∃ refs : list AVRef,
              results' = Some <$> refs
              ∧ length refs = length results
              ∧ NoDup refs
              ∧ Forall (λ r, heap w !! r = None
                             ∧ ∃ copy, heap w' !! r
                                       = Some (Available (PFallbackTensor copy))
                                       ∧ tensor copy = tensor arg
                                       ∧ (is_immutable arg = true → copy = arg))
                       refs
              ∧ only_allocates w w'
              ∧ length (heap w') = length (heap w) + length results
              ∧ fault w' = fault w).
  { intros copy Ht Him. rewrite drop_all, app_nil_r.
    exists (seq (length (heap w)) (length results)).
    split_and!; try done.
    - by rewrite length_seq.
    - apply NoDup_seq.
    - apply Forall_forall. intros r Hr%elem_of_seq. split.
      + apply lookup_ge_None_2. lia.
      + exists copy. split_and!; try done. simpl.
        apply lookup_replicate_app. lia.
    - split_and!; try done. by eexists.
    - simpl. by rewrite length_app, length_replicate. }
  unfold FallbackCopyTensorIfSmall. cbv zeta.
  destruct (is_immutable arg) eqn:Himmutable; cbn [negb].
  - rewrite (alloc_each_loop (PFallbackTensor arg) (length results) results w
               (Nat.le_refl _)).
    by apply Hgen.
  - rewrite (alloc_each_loop
               (PFallbackTensor
                  (FallbackTensor_of_Tensor
                     (imm_tensor (ImmutableTensor_Create (tensor arg)))))
               (length results) results w (Nat.le_refl _)).
    by apply Hgen.
Qed.

(** ** The sequenced execute kernel *)

(** The completion token the two internal execute functions return when
    they are given a slot for it: a future created by the call, in the state
    that the outcome of the runner determines. *)
Lemma internal_execute_token ty (rs : OpKernelRunState) kernel_runner
    (slot : Slot) (results : list Slot) (w : World) :
  params_op_kernel (params rs) = Some (op_kernel kernel_runner) →
  let out :=
    if IsAsync kernel_runner then
      KernelFallbackExecuteCompatAsyncInternal
        ty rs kernel_runner (Some slot) results w
    else
      KernelFallbackExecuteCompatSyncInternal
        ty rs kernel_runner (Some slot) results w in
  ∃ (chain : AVRef) (call : KernelCall),
    out.1.1 = Some (Some chain)
    ∧ heap w !! chain = None
    ∧ kernel_calls out.2 = kernel_calls w ++ [call]
    ∧ heap out.2 !! chain = Some (token_on_return kernel_runner call).
Proof.
  intros Hkernel. destruct (IsAsync kernel_runner); cbv zeta.
  - rewrite AsyncInternal_eq, async_prepare_eq. cbv zeta.
    set (copy := OpKernelRunState_of _ _).
    set (base := length (heap w)). set (n := length results).
    set (st := mkAsyncState ty copy.1 (OpKernelContext_new copy.1 n) base
                            (seq (S base) n)).
    change (as_context st) with (OpKernelContext_new copy.1 n).
    set (context := OpKernelContext_new copy.1 n).
    set (w1 := log_call (RunAsyncCall context)
                 (if copy.2
                  then set_heap (heap w ++ replicate (S n) Unconstructed) w
                  else set_fault
                         (set_heap (heap w ++ replicate (S n) Unconstructed)
                                   w))).
    assert (Hheap1 : heap w1 = heap w ++ replicate (S n) Unconstructed).
    { unfold w1. by destruct (copy.2). }
    assert (Hcalls1 : kernel_calls w1 = kernel_calls w ++ [RunAsyncCall context]).
    { unfold w1. by destruct (copy.2). }
    assert (Hbase : heap w1 !! base = Some Unconstructed).
    { rewrite Hheap1. apply lookup_replicate_app. fold base. lia. }
    exists base, (RunAsyncCall context).
    split; [done|]. split; [by apply lookup_ge_None_2|].
    cbn [token_on_return snd].
    destruct (RunAsync kernel_runner context) as [e|] eqn:Hasync.
    + set (finished := set_context (ran context e) st).
      assert (Hst : status (as_context finished) = k_status e) by done.
      split; [by rewrite done_callback_kernel_calls|].
      destruct (ok (k_status e)) eqn:Hok.
      * rewrite done_callback_success by (by rewrite Hst). exact Hbase.
      * destruct (done_callback_failure finished (op_kernel kernel_runner) w1)
          as (_ & _ & Hin & _).
        -- by rewrite Hst.
        -- exact Hkernel.
        -- change (as_chain finished) with base.
           rewrite Hheap1, length_app, length_replicate. fold base. lia.
        -- intros r Hr.
           change (as_result_refs finished) with (seq (S base) n) in Hr.
           apply elem_of_seq in Hr.
           rewrite Hheap1, length_app, length_replicate. fold base. lia.
        -- rewrite Hst in Hin. apply Hin. by left.
    + split; [exact Hcalls1|exact Hbase].
  - unfold KernelFallbackExecuteCompatSyncInternal.
    set (context := OpKernelContext_new rs (length results)).
    set (e := Run kernel_runner context).
    change (status (ran context e)) with (k_status e).
    destruct (ok (k_status e)) eqn:Hok; cbn [negb].
    + change (ctx_num_outputs (ran context e)) with (length results).
      destruct (foldl _ _ _) as [results1 w1] eqn:Hloop.
      destruct (make_outputs_available_spec _ _ _ _ _ _ _ (Nat.le_refl _) Hloop)
        as (_ & ([ext Hext] & _ & _ & _ & _ & Hcalls) & _).
      exists (length (heap w1)), (RunCall context).
      cbn [token_on_return]. fold e. rewrite Hok.
      split_and!; [done| |exact Hcalls|].
      * apply lookup_ge_None_2. rewrite Hext, length_app. simpl. lia.
      * simpl. by rewrite lookup_app_r, Nat.sub_diag.
    + rewrite KernelFallbackEmitError_eq.
      exists (length (heap w)), (RunCall context).
      cbn [token_on_return]. fold e. rewrite Hok.
      split_and!; [done|by apply lookup_ge_None_2|done|].
      simpl. by rewrite lookup_app_r, Nat.sub_diag.
Qed.

(** X13: [FallbackAsyncExecuteOpSeq] treats its first argument as the input
    chain and its first result as the output chain: the runner is invoked on
    the tensors of the remaining arguments only, the frame keeps its number
    of result slots, and the first of them holds the completion token of
    this execution: a future the call created (never the input chain it
    was given), available after a synchronous kernel that succeeded, holding
    the translated error after one that failed, and for an asynchronous
    kernel still unconstructed unless its callback already reported an
    error. *)
Theorem FallbackAsyncExecuteOpSeq_chain_is_not_an_input
    (frame : AsyncKernelFrame) (tls : OpKernelRunState) (w : World)
    (in_chain : FrameArg) (args : list FrameArg)
    (out_op_chain : Slot) (results : list Slot)
    (frs : KernelFallbackCompatRequestState) (kernel_runner : OpKernelRunner)
    (ts : list Tensor) :
  GetArguments frame = in_chain :: args →
  GetResults frame = out_op_chain :: results →
  request_state (GetExecutionContext frame) = Some frs →
  Get (frame_op_key (GetAttributes frame)) (runner_table w)
    = Some kernel_runner →
  argument_tensors w args = Some ts →
  let '(results', tls', w') := FallbackAsyncExecuteOpSeq frame tls w in
  kernel_invoked kernel_runner ts w w'
  ∧ length ts = length (GetArguments frame) - 1
  ∧ length results' = length (GetResults frame)
  ∧ (∃ (chain : AVRef) (call : KernelCall),
       results' !! 0 = Some (Some chain)
       ∧ heap w !! chain = None
       ∧ (arg_value in_chain < length (heap w) → chain ≠ arg_value in_chain)
       ∧ kernel_calls w' = kernel_calls w ++ [call]
       ∧ heap w' !! chain = Some (token_on_return kernel_runner call))
  ∧ input_tf_tensors tls' = [].
Proof.
  intros Hargs Hresults Hstate Hget Hts.
  unfold FallbackAsyncExecuteOpSeq, KernelFallbackExecuteOp.
  rewrite Hargs, Hresults, Hstate, Hget.
  destruct (execute_op_guarded_eq args results
              (Some (Some (arg_value in_chain))) kernel_runner frs tls w ts Hts)
    as (rs1 & Hcopies & Hvalues & ->).
  cbv zeta.
  pose proof (internal_execute_invokes FallbackTensorT
                (SetUpParams rs1 kernel_runner frs) kernel_runner
                (Some (Some (arg_value in_chain))) results w ts Hvalues
                eq_refl eq_refl) as Hinv.
  pose proof (internal_execute_results FallbackTensorT
                (SetUpParams rs1 kernel_runner frs) kernel_runner
                (Some (Some (arg_value in_chain))) results w
                (IsAsync kernel_runner)) as Hres.
  pose proof (internal_execute_token FallbackTensorT
                (SetUpParams rs1 kernel_runner frs) kernel_runner
                (Some (arg_value in_chain)) results w eq_refl) as Htoken.
  cbv zeta in Hres, Htoken.
  assert (Hlen : length ts = length args).
  { clear -Hts. revert ts Hts.
    induction args as [|arg args IH]; intros ts Hts; simplify_eq/=; [done|].
    destruct (heap w !! arg_value arg) as [[|[| |ft]|]|]; try done.
    destruct (argument_tensors w args) as [ts'|]; simplify_eq/=.
    by rewrite (IH ts'). }
  destruct (IsAsync kernel_runner);
    destruct (_ : option Slot * list Slot * World) as [[oc res] w'];
    destruct Hres as (Hlenres & _ & _);
    destruct Htoken as (chain & call & Hoc & Hfresh & Hcalls & Hstate');
    simpl in *; subst oc;
    (split_and!; [done|lia|by rewrite Hlenres| |done]);
    (exists chain, call; split_and!; [done|done| |done|done]);
    intros Hlt ->; apply lookup_lt_is_Some_2 in Hlt as [? ?]; congruence.
Qed.

End EngineExtras.

(** * Properties of the pass that imports quantization statistics *)

Module ImportQuantStatsProperties.
Import ImportQuantStats.

Section PassProperties.
Variable F : Type.
Variable LoadProtoFromBuffer : string → option (list (QuantParamsEntry F)).
Variable stoi : string → option Z.
Variable regex_match : string → string → bool.

(** ** Which results receive statistics *)

Lemma IsQuantizableResult_nat (op : Operation) (i : nat) :
  IsQuantizableResult op (Z.of_nat i) = true
  ↔ result_is_float op !! i = Some true.
Proof.
  unfold IsQuantizableResult, getNumResults. rewrite Nat2Z.id.
  destruct (decide _) as [Hout|Hin].
  - split; [done|]. intros Hi%lookup_lt_Some. lia.
  - destruct (result_is_float op !! i) as [[|]|]; simpl; split; congruence.
Qed.

Lemma IsQuantizableResult_true (op : Operation) (index : Z) :
  IsQuantizableResult op index = true
  ↔ (0 ≤ index)%Z ∧ result_is_float op !! Z.to_nat index = Some true.
Proof.
  split.
  - intros Hq. assert (0 ≤ index)%Z as Hpos.
    { unfold IsQuantizableResult in Hq. destruct (decide _); [done|lia]. }
    split; [done|]. apply IsQuantizableResult_nat. by rewrite Z2Nat.id.
  - intros [Hpos Hfloat]. rewrite <- (Z2Nat.id index) by done.
    by apply IsQuantizableResult_nat.
Qed.

Lemma omap_quantizable (op : Operation) (mk : nat → StatisticsOp F)
    (idxs : list nat) :
  stats_arg F <$>
    omap (λ i, if IsQuantizableResult op (Z.of_nat i) then Some (mk i) else None)
         idxs
  = (λ i, stats_arg F (mk i))
      <$> filter (λ i, result_is_float op !! i = Some true) idxs.
Proof.
  induction idxs as [|i idxs IH]; [done|]. csimpl.
  rewrite filter_cons.
  destruct (IsQuantizableResult op (Z.of_nat i)) eqn:Hq.
  - apply IsQuantizableResult_nat in Hq. rewrite decide_True by done.
    csimpl. by rewrite IH.
  - rewrite decide_False; [done|].
    intros Hfloat%IsQuantizableResult_nat. congruence.
Qed.

(** X14: [ImportAsStatsOps] creates no statistics op for an entry without
    parameters.  Otherwise, when the index names a result of float tensor
    type it creates one op, on that result; for every other index (negative,
    as -1, beyond the results, or naming a result that is no float tensor)
    it creates one op on each float-tensor result, in order.  No other
    result ever receives statistics, no result receives them twice, and all
    ops carry the first min/max pair as layer statistics and per-axis
    statistics exactly when there are at least two parameters. *)
Theorem ImportAsStatsOps_targets
    (op : Operation) (index : Z) (info : QuantParamsEntry F) :
  let ops := ImportAsStatsOps F op index info in
  let floats :=
    filter (λ i, result_is_float op !! i = Some true)
           (seq 0 (getNumResults op)) in
  (entry_params F info = [] → ops = [])
  ∧ (entry_params F info ≠ [] →
     stats_arg F <$> ops =
       if IsQuantizableResult op index then [Z.to_nat index] else floats)
  ∧ ((index < 0)%Z ∨ (Z.of_nat (getNumResults op) ≤ index)%Z
     ∨ result_is_float op !! Z.to_nat index = Some false →
     IsQuantizableResult op index = false)
  ∧ Forall (λ s, result_is_float op !! stats_arg F s = Some true) ops
  ∧ NoDup (stats_arg F <$> ops)
  ∧ ∀ s first rest,
      s ∈ ops → entry_params F info = first :: rest →
      layer_stats F s = (min F first, max F first)
      ∧ axis F s = (if decide (rest = []) then None
                    else Some (entry_quantize_axis F info))
      ∧ (axis_stats F s = None ↔ rest = []).
Proof.
  intros ops floats.
  assert (Hnot : (index < 0)%Z ∨ (Z.of_nat (getNumResults op) ≤ index)%Z
                 ∨ result_is_float op !! Z.to_nat index = Some false →
                 IsQuantizableResult op index = false).
  { intros Hcase. destruct (IsQuantizableResult op index) eqn:Hq; [|done].
    apply IsQuantizableResult_true in Hq as [Hpos Hfloat].
    destruct Hcase as [?|[Hge|?]]; [lia| |congruence].
    apply lookup_lt_Some in Hfloat. unfold getNumResults in Hge. lia. }
  unfold ops, ImportAsStatsOps.
  destruct (entry_params F info) as [|first rest] eqn:Hparams.
  { split_and!; try done; [constructor..]. }
  rewrite decide_False by done. simpl.
  set (axes := if decide (1 < S (length rest)) then _ else _).
  assert (Haxes : ∃ a b, axes = (a, b)
                         ∧ b = (if decide (rest = []) then None
                                else Some (entry_quantize_axis F info))
                         ∧ (a = None ↔ rest = [])).
  { unfold axes. destruct rest as [|second rest].
    - rewrite decide_False by (simpl; lia). by eexists _, _.
    - rewrite decide_True by (simpl; lia). eexists _, _.
      split_and!; [done|done|]. split; done. }
  destruct Haxes as (a & b & -> & Hb & Ha).
  destruct (IsQuantizableResult op index) eqn:Hq.
  - apply IsQuantizableResult_true in Hq as [Hpos Hfloat].
    split_and!; try done.
    + by repeat constructor.
    + apply NoDup_singleton.
    + intros s first' rest' ->%list_elem_of_singleton ?. simplify_eq. done.
  - split_and!; try done.
    + intros _. rewrite omap_quantizable. by rewrite list_fmap_id.
    + apply Forall_forall. intros s (i & Hs & Hi)%list_elem_of_omap.
      destruct (IsQuantizableResult op (Z.of_nat i)) eqn:Hqi; [|done].
      simplify_eq. simpl. by apply IsQuantizableResult_nat.
    + rewrite omap_quantizable, list_fmap_id.
      apply NoDup_filter, NoDup_seq.
    + intros s first' rest' (i & Hs & Hi)%list_elem_of_omap ?.
      destruct (IsQuantizableResult op (Z.of_nat i)); [|done].
      simplify_eq. done.
Qed.

(** ** Which entry applies to an operation *)

(** X15: the callback of [runOnFunction] never attaches statistics to a
    terminator; for any other operation an entry under the operation's exact
    name takes precedence over every regular expression; without one, the
    first regular expression (in the order the map enumerates them) that
    matches the name is applied and no later one; and when nothing matches
    nothing is attached. *)
Theorem visit_precedence
    (op_to_name : Operation → string)
    (names : gmap string (Z * QuantParamsEntry F))
    (regexes : list (string * (Z * QuantParamsEntry F)))
    (op : Operation) :
  let attached := visit F regex_match op_to_name names regexes op in
  let op_name := op_to_name op in
  (isKnownTerminator op = true → attached = [])
  ∧ (isKnownTerminator op = false →
     (∀ port info,
        names !! op_name = Some (port, info) →
        attached = ImportAsStatsOps F op port info)
     ∧ (names !! op_name = None →
        (∀ before regex port info after,
           regexes = before ++ (regex, (port, info)) :: after →
           Forall (λ e, regex_match e.1 op_name = false) before →
           regex_match regex op_name = true →
           attached = ImportAsStatsOps F op port info)
        ∧ (Forall (λ e, regex_match e.1 op_name = false) regexes →
           attached = []))).
Proof.
  intros attached op_name. unfold attached, visit. fold op_name.
  split; [by intros ->|]. intros ->. split.
  - by intros port info ->.
  - intros ->. split.
    + intros before regex port info after -> Hbefore Hmatch.
      induction Hbefore as [|[r [p i]] before Hr _ IH]; simpl.
      * by rewrite Hmatch.
      * simpl in Hr. by rewrite Hr.
    + intros Hnone.
      induction Hnone as [|[r [p i]] rest Hr _ IH]; simpl; [done|].
      simpl in Hr. by rewrite Hr.
Qed.

(** ** Names and ports *)

Lemma StrSplit_length (text : string) (d : Ascii.ascii) :
  1 ≤ length (StrSplit text d)
  ∧ (has_char d text = true → 2 ≤ length (StrSplit text d)).
Proof.
  induction text as [|c text [IH1 IH2]]; simpl; [split; [lia|done]|].
  destruct (Ascii.eqb c d); simpl.
  - split; [lia|]. intros _. lia.
  - destruct (StrSplit text d) as [|piece pieces]; simpl in *; [lia|].
    split; [lia|]. intros Hhas. specialize (IH2 Hhas). lia.
Qed.

Lemma StrSplit_no_delimiter (text : string) (d : Ascii.ascii) :
  has_char d text = false → StrSplit text d = [text].
Proof.
  induction text as [|c text IH]; simpl; [done|].
  intros [Hc Hrest]%orb_false_elim. rewrite Hc, IH by done. done.
Qed.

Lemma StrSplit_at_delimiter (a b : string) (d : Ascii.ascii) :
  has_char d a = false →
  StrSplit (a +:+ String d b) d = a :: StrSplit b d.
Proof.
  induction a as [|c a IH]; intros Ha.
  - change (EmptyString +:+ String d b) with (String d b). simpl.
    by rewrite Ascii.eqb_refl.
  - change (String c a +:+ String d b) with (String c (a +:+ String d b)).
    simpl in Ha |- *. apply orb_false_elim in Ha as [Hc Hrest].
    by rewrite Hc, IH.
Qed.

(** X16: the key and the port of an entry name.  A name without ':' is its
    own key, with port -1.  In "key:port" (one ':') the port is what
    [std::stoi] reads after the ':', and parsing throws when that is no
    number, as for a name that ends in ':'.  In a name with two or more ':'
    the key is the part before the first one and the port is -1: the rest is
    not read at all. *)
Theorem name_and_port_cases (key rest : string) :
  has_char colon key = false →
  name_and_port stoi key = Some (key, (-1)%Z)
  ∧ (has_char colon rest = false →
     name_and_port stoi (key +:+ String colon rest)
     = match stoi rest with
       | Some port => Some (key, port)
       | None => None
       end)
  ∧ (has_char colon rest = true →
     name_and_port stoi (key +:+ String colon rest) = Some (key, (-1)%Z)).
Proof.
  intros Hkey. unfold name_and_port. split_and!.
  - by rewrite StrSplit_no_delimiter.
  - intros Hrest.
    rewrite StrSplit_at_delimiter, (StrSplit_no_delimiter rest) by done.
    simpl. by destruct (stoi rest).
  - intros Hrest. rewrite StrSplit_at_delimiter by done.
    destruct (StrSplit_length rest colon) as [_ Hlen].
    specialize (Hlen Hrest). cbn [length].
    rewrite decide_False by lia. done.
Qed.

(** ** Parsing the statistics *)

Lemma StringMap_insert_subseteq {V} (key : string) (v : V) (m : gmap string V) :
  m ⊆ StringMap_insert key v m.
Proof.
  unfold StringMap_insert. destruct (m !! key) eqn:Hkey; [done|].
  by apply insert_subseteq.
Qed.

Lemma StringMap_insert_lookup {V} (key : string) (v : V) (m : gmap string V) :
  m !! key = None → StringMap_insert key v m !! key = Some v.
Proof.
  intros Hkey. unfold StringMap_insert. rewrite Hkey. apply lookup_insert_eq.
Qed.

Lemma StringMap_insert_lookup_ne {V} (key key' : string) (v : V)
    (m : gmap string V) :
  key ≠ key' → StringMap_insert key v m !! key' = m !! key'.
Proof.
  intros Hne. unfold StringMap_insert. destruct (m !! key); [done|].
  by apply lookup_insert_ne.
Qed.

Lemma parse_entries_grows (entries : list (QuantParamsEntry F))
    (st st' : PassState F) :
  parse_entries F stoi entries st = Some st' →
  name_to_info F st ⊆ name_to_info F st'
  ∧ regex_to_info F st ⊆ regex_to_info F st'.
Proof.
  revert st. induction entries as [|entry entries IH]; intros st Hparse.
  { by simplify_eq/=. }
  simpl in Hparse.
  destruct (negb (String.eqb (entry_name F entry) EmptyString)).
  - destruct (name_and_port stoi (entry_name F entry)) as [[key port]|];
      [|done].
    simpl in Hparse. destruct (IH _ Hparse) as [Hnames Hregexes].
    split; [|done]. simpl in Hnames.
    etrans; [apply StringMap_insert_subseteq|done].
  - destruct (negb (String.eqb (entry_name_regex F entry) EmptyString)).
    + destruct (name_and_port stoi (entry_name_regex F entry))
        as [[key port]|]; [|done].
      simpl in Hparse. destruct (IH _ Hparse) as [Hnames Hregexes].
      split; [done|]. simpl in Hregexes.
      etrans; [apply StringMap_insert_subseteq|done].
    + by apply IH.
Qed.

Lemma parse_entries_first_name (before after : list (QuantParamsEntry F))
    (entry : QuantParamsEntry F) (key : string) (port : Z)
    (st st' : PassState F) :
  parse_entries F stoi (before ++ entry :: after) st = Some st' →
  entry_name F entry ≠ EmptyString →
  name_and_port stoi (entry_name F entry) = Some (key, port) →
  name_to_info F st !! key = None →
  (∀ e k p, e ∈ before → entry_name F e ≠ EmptyString →
            name_and_port stoi (entry_name F e) = Some (k, p) → k ≠ key) →
  name_to_info F st' !! key = Some (port, entry).
Proof.
  revert st. induction before as [|e before IH];
    intros st Hparse Hname Hport Hfree Hothers.
  - simpl in Hparse.
    apply String.eqb_neq in Hname. rewrite Hname, Hport in Hparse.
    simpl in Hparse. destruct (parse_entries_grows _ _ _ Hparse) as [Hnames _].
    eapply lookup_weaken; [|exact Hnames]. simpl.
    by apply StringMap_insert_lookup.
  - simpl in Hparse.
    assert (Hrest : ∀ e' k p, e' ∈ before →
              entry_name F e' ≠ EmptyString →
              name_and_port stoi (entry_name F e') = Some (k, p) → k ≠ key).
    { intros e' k p He'. apply Hothers. by right. }
    destruct (String.eqb (entry_name F e) EmptyString) eqn:He; simpl in Hparse.
    + destruct (negb (String.eqb (entry_name_regex F e) EmptyString)).
      * destruct (name_and_port stoi (entry_name_regex F e)) as [[k p]|];
          [|done].
        simpl in Hparse. by apply (IH _ Hparse).
      * by apply (IH _ Hparse).
    + apply String.eqb_neq in He.
      destruct (name_and_port stoi (entry_name F e)) as [[k p]|] eqn:Hk;
        [|done].
      simpl in Hparse. apply (IH _ Hparse); try done. simpl.
      rewrite StringMap_insert_lookup_ne; [done|].
      apply (Hothers e k p); [by left|done|done].
Qed.

(** X17: [ParseQuantStats] returns true, and changes nothing, exactly when
    the statistics cannot be loaded, and [CreateImportQuantStatsPass] then
    returns no pass.  When they load and no port fails to parse, it returns
    false; no entry the maps already hold is removed or replaced; and for
    every key the first entry (in file order) with a non-empty name and that
    key is the one recorded, whatever entries follow. *)
Theorem ParseQuantStats_first_entry_wins
    (stats_str : string) (st : PassState F) :
  match LoadProtoFromBuffer stats_str with
  | None =>
      ParseQuantStats F LoadProtoFromBuffer stoi stats_str st = Some (true, st)
      ∧ CreateImportQuantStatsPass F LoadProtoFromBuffer stoi stats_str
        = Some None
  | Some entries =>
      match ParseQuantStats F LoadProtoFromBuffer stoi stats_str st with
      | None => parse_entries F stoi entries st = None
      | Some (failed, st') =>
          failed = false
          ∧ name_to_info F st ⊆ name_to_info F st'
          ∧ regex_to_info F st ⊆ regex_to_info F st'
          ∧ ∀ before entry after key port,
              entries = before ++ entry :: after →
              entry_name F entry ≠ EmptyString →
              name_and_port stoi (entry_name F entry) = Some (key, port) →
              name_to_info F st !! key = None →
              (∀ e k p, e ∈ before → entry_name F e ≠ EmptyString →
                        name_and_port stoi (entry_name F e) = Some (k, p) →
                        k ≠ key) →
              name_to_info F st' !! key = Some (port, entry)
      end
  end.
Proof.
  unfold CreateImportQuantStatsPass, ParseQuantStats.
  destruct (LoadProtoFromBuffer stats_str) as [entries|]; [|done].
  destruct (parse_entries F stoi entries st) as [st'|] eqn:Hparse; [|done].
  simpl. destruct (parse_entries_grows _ _ _ Hparse) as [Hnames Hregexes].
  split_and!; try done.
  intros before entry after key port -> Hname Hport Hfree Hothers.
  by apply (parse_entries_first_name before after entry key port st st').
Qed.

End PassProperties.

End ImportQuantStatsProperties.

(** * Further concrete invocations *)

Module ExtraScenarios.
Import Demo.

(** X2, witness: an op for which no kernel is registered. *)
Lemma unknown_op_witness :
  request_state with_state = Some demo_request_state
  ∧ GetOrCreate 0 "Mul" "cpu" 1 tt demo_request_state
    = Failure (errors.NotFound "no kernel registered for Mul")
  ∧ let out :=
      KernelFallbackExecuteCompatCoreRuntimeDispatch
        with_state "Mul" "cpu" [OpaqueTensor "gpu"] [None; None] tt
        OpKernelRunState_default World_empty in
    rejected_with "Mul" (errors.NotFound "no kernel registered for Mul")
                  [None; None] World_empty out
    ∧ out.1.2 = OpKernelRunState_default.
Proof.
  split_and!; [reflexivity..|].
  pose proof (runner_construction_failure_is_reported
                with_state "Mul" "cpu" [OpaqueTensor "gpu"] [None; None] tt
                OpKernelRunState_default World_empty demo_request_state
                (errors.NotFound "no kernel registered for Mul")
                eq_refl eq_refl) as (Hrej & Htls & _).
  split; [exact Hrej|exact Htls].
Defined.

(** X5, witness: a world in which indices 2 and 5 of the resource array
    are set. *)
Lemma get_resources_witness :
  let w :=
    (FallbackSetResource (mkFallbackTensor false (scalar 50)) "cpu" 5 with_state
       (FallbackSetResource (mkFallbackTensor false (scalar 20)) "cpu" 2
                            with_state World_empty).2).2 in
  request_state with_state = Some demo_request_state
  ∧ length [5%Z; 2%Z; 5%Z] ≤ length [None; None; None; Some 9]
  ∧ (∀ index, index ∈ [5%Z; 2%Z; 5%Z] → is_Some (GetResource index w))
  ∧ FallbackGetResource (Some 0) None [None; None; None; Some 9] "cpu"
                        [5%Z; 2%Z; 5%Z] with_state w
    = (Some 0, [Some 1; Some 0; Some 1; Some 9], w).
Proof.
  intros w.
  assert (Hset : ∀ index, index ∈ [5%Z; 2%Z; 5%Z] → is_Some (GetResource index w)).
  { intros index Hin. apply list_elem_of_In in Hin. simpl in Hin.
    destruct Hin as [<-|[<-|[<-|[]]]]; vm_compute; eauto. }
  split_and!; [reflexivity|simpl; lia|exact Hset|].
  rewrite (FallbackGetResource_all_indices
             (Some 0) None [None; None; None; Some 9] "cpu" [5%Z; 2%Z; 5%Z]
             with_state w demo_request_state eq_refl ltac:(simpl; lia) Hset).
  reflexivity.
Defined.

(** X6, witness: a get without request state leaves the result slot empty. *)
Lemma resource_without_state_witness :
  request_state without_state = None
  ∧ FallbackSetResource (mkFallbackTensor false (scalar 1)) "cpu" 0
                        without_state World_empty
    = (Failure (StringError request_state_not_found), World_empty)
  ∧ (FallbackGetResource (Some 0) None [None] "cpu" [0%Z] without_state
                         World_empty).1.2 = [None].
Proof.
  split; [reflexivity|].
  pose proof (resource_kernels_without_request_state
                without_state (mkFallbackTensor false (scalar 1)) "cpu" 0
                (Some 0) None [None] [0%Z] World_empty eq_refl)
    as [Hset Hget].
  split; [exact Hset|].
  destruct (FallbackGetResource _ _ _ _ _ _ _) as [[out_ch results] w'].
  by destruct Hget as (-> & _).
Defined.

(** X7, witness: of a shared mutable argument and an immutable one, only
    the first is copied. *)
Lemma copies_witness :
  let w :=
    mkWorld
      [Available PChain;
       Available (PFallbackTensor (mkFallbackTensor false (scalar 3)));
       Available (PFallbackTensor (mkFallbackTensor true (scalar 4)))]
      [] [] {[ 7%Z := AddRunner ]} ∅ [] false in
  let args := [mkFrameArg 1 false; mkFrameArg 2 false] in
  argument_tensors w args = Some [scalar 3; scalar 4]
  ∧ input_tf_tensors
      (execute_op_guarded args [None] None AddRunner demo_request_state
                          OpKernelRunState_default w).1.2
    = [scalar 3].
Proof.
  intros w args. split; [reflexivity|].
  pose proof (execute_op_copies_only_shared_mutable_arguments
                args [None] None AddRunner demo_request_state
                OpKernelRunState_default w [scalar 3; scalar 4] eq_refl)
    as (_ & _ & Hcopies & _).
  exact Hcopies.
Defined.

(** X8, witness: "Add" through the BEF kernel with a float argument, which
    the core-runtime path would reject, reaches the runner. *)
Lemma execute_op_witness :
  let w :=
    mkWorld
      [Available (PFallbackTensor
                    (mkFallbackTensor false (mkTensor DT_FLOAT [1%Z])));
       Available (PFallbackTensor (mkFallbackTensor true (scalar 4)))]
      [] [] {[ 7%Z := AddRunner ]} ∅ [] false in
  let args := [mkFrameArg 0 true; mkFrameArg 1 false] in
  let frame := mkAttrFrame "cpu" tt tt 7%Z "tf.Add" in
  request_state with_state = Some demo_request_state
  ∧ Get (frame_op_key frame) (runner_table w) = Some AddRunner
  ∧ argument_tensors w args = Some [mkTensor DT_FLOAT [1%Z]; scalar 4]
  ∧ ok (ValidateInputTypes "Add" [mkTensor DT_FLOAT [1%Z]; scalar 4]
                           (input_types (op_kernel AddRunner))) = false
  ∧ kernel_invoked AddRunner [mkTensor DT_FLOAT [1%Z]; scalar 4] w
      (KernelFallbackExecuteOp args [None] None frame with_state
                               OpKernelRunState_default w).2.
Proof.
  intros w args frame. split_and!; [reflexivity..|].
  pose proof (KernelFallbackExecuteOp_invokes_runner_unvalidated
                args [None] None frame with_state OpKernelRunState_default w
                demo_request_state AddRunner
                [mkTensor DT_FLOAT [1%Z]; scalar 4] eq_refl eq_refl eq_refl)
    as (Hinv & _).
  exact Hinv.
Defined.

(** X11, witness: a runner that fails inside [RunAsync]. *)
Lemma inline_failure_witness :
  let e := mkEffect (mkStatus ABORTED "out of luck") (λ _, None) in
  let kernel_runner :=
    mkRunner (mkOpKernel "Fail" [] 1) None None None None None true
             (λ _, e) (λ _, CallbackInline e) in
  let run_state :=
    prepared_run_state [] kernel_runner demo_request_state in
  (∀ ctx, RunAsync kernel_runner ctx = CallbackInline e)
  ∧ params_op_kernel (params run_state) = Some (op_kernel kernel_runner)
  ∧ let '(op_chain', results', w') :=
      KernelFallbackExecuteCompatAsyncInternal
        KernelFallbackTensorT run_state kernel_runner (Some None) [None]
        World_empty in
    (slot_state w' <$> results')
    = [Some (Error (mkDiag "error running kernel fallback kernel Fail: out of luck"
                           ABORTED))]
    ∧ work_queue w' = [].
Proof.
  intros e kernel_runner run_state. split_and!; [reflexivity..|].
  pose proof (inline_completion_is_visible_on_return_only_for_errors
                KernelFallbackTensorT run_state kernel_runner
                (op_kernel kernel_runner) (Some None) [None] World_empty e
                (λ _, eq_refl) eq_refl) as Hinline.
  destruct (KernelFallbackExecuteCompatAsyncInternal _ _ _ _ _ _)
    as [[op_chain' results'] w'].
  destruct Hinline as (chain & refs & _ & -> & Hlen & _ & Hall & Hq).
  split; [|exact Hq].
  destruct refs as [|r [|r' refs]]; try done.
  apply Forall_cons in Hall as [_ Hall]. apply Forall_cons in Hall as [Hr _].
  simpl. by rewrite Hr.
Defined.

(** X13, witness: the sequenced kernel on an input chain and two tensors. *)
Lemma execute_op_seq_witness :
  let w :=
    mkWorld
      [Available PChain;
       Available (PFallbackTensor (mkFallbackTensor false (scalar 3)));
       Available (PFallbackTensor (mkFallbackTensor true (scalar 4)))]
      [] [] {[ 7%Z := AddRunner ]} ∅ [] false in
  let frame :=
    mkFrame [mkFrameArg 0 false; mkFrameArg 1 true; mkFrameArg 2 false]
            [None; None] (mkAttrFrame "cpu" tt tt 7%Z "tf.Add") with_state in
  GetArguments frame
    = mkFrameArg 0 false :: [mkFrameArg 1 true; mkFrameArg 2 false]
  ∧ GetResults frame = None :: [None]
  ∧ request_state (GetExecutionContext frame) = Some demo_request_state
  ∧ Get (frame_op_key (GetAttributes frame)) (runner_table w) = Some AddRunner
  ∧ argument_tensors w [mkFrameArg 1 true; mkFrameArg 2 false]
    = Some [scalar 3; scalar 4]
  ∧ let '(results', tls', w') :=
      FallbackAsyncExecuteOpSeq frame OpKernelRunState_default w in
    kernel_invoked AddRunner [scalar 3; scalar 4] w w'
    ∧ length results' = 2.
Proof.
  intros w frame. split_and!; [reflexivity..|].
  pose proof (FallbackAsyncExecuteOpSeq_chain_is_not_an_input
                frame OpKernelRunState_default w (mkFrameArg 0 false)
                [mkFrameArg 1 true; mkFrameArg 2 false] None [None]
                demo_request_state AddRunner [scalar 3; scalar 4]
                eq_refl eq_refl eq_refl eq_refl eq_refl) as Hseq.
  destruct (FallbackAsyncExecuteOpSeq _ _ _) as [[results' tls'] w'].
  destruct Hseq as (Hinv & _ & Hlen & _).
  split; [exact Hinv|exact Hlen].
Defined.

(** X16, witness: the entry name "conv:2". *)
Lemma name_and_port_witness :
  let stoi := λ text, if String.eqb text "2" then Some 2%Z else None in
  ImportQuantStats.has_char ImportQuantStats.colon "conv" = false
  ∧ ImportQuantStats.name_and_port stoi "conv" = Some ("conv", (-1)%Z)
  ∧ ImportQuantStats.name_and_port stoi "conv:2" = Some ("conv", 2%Z)
  ∧ ImportQuantStats.name_and_port stoi "conv:2:0" = Some ("conv", (-1)%Z).
Proof.
  intros stoi. split; [reflexivity|].
  pose proof (ImportQuantStatsProperties.name_and_port_cases
                stoi "conv" "2" eq_refl) as (Hplain & Hport & _).
  pose proof (ImportQuantStatsProperties.name_and_port_cases
                stoi "conv" "2:0" eq_refl) as (_ & _ & Hmore).
  split_and!; [exact Hplain|exact (Hport eq_refl)|exact (Hmore eq_refl)].
Defined.

End ExtraScenarios.
